(** * EPUB to DOCX translation pipeline (translate_epub_to_docx.py)

    A shallow embedding of
    [20251226-epub翻译/translate_epub_to_docx.py]: the response cleaner, the
    sentence chunker, the translation client with its cache and retry loop,
    the inline segment extractor, the table renderer, the archive path
    normalisation, the document writer and the loop over the sections of a
    book, followed by the properties of each. *)

From Stdlib Require Import ZArith NArith List Bool Lia.
From Stdlib Require DecimalNat.
From stdpp Require Import gmap strings list.

Set Default Proof Using "Type".

(** ** Python strings

    A Python [str] is a sequence of Unicode code points: [list N]. *)

Abbreviation str := (list N).

Module Py.

(** UTF-8 decoding of the bytes of a Rocq string literal, so that the
    source's literals can be written as they are. *)
Fixpoint utf8 (l : list N) : str :=
  match l with
  | [] => []
  | b0 :: l1 =>
      if (b0 <? 0x80)%N then b0 :: utf8 l1
      else if (b0 <? 0xE0)%N then
        match l1 with
        | b1 :: l2 => ((b0 - 0xC0) * 64 + (b1 - 0x80))%N :: utf8 l2
        | _ => []
        end
      else if (b0 <? 0xF0)%N then
        match l1 with
        | b1 :: b2 :: l3 =>
            ((b0 - 0xE0) * 4096 + (b1 - 0x80) * 64 + (b2 - 0x80))%N :: utf8 l3
        | _ => []
        end
      else
        match l1 with
        | b1 :: b2 :: b3 :: l4 =>
            ((b0 - 0xF0) * 262144 + (b1 - 0x80) * 4096
             + (b2 - 0x80) * 64 + (b3 - 0x80))%N :: utf8 l4
        | _ => []
        end
  end.

(** The escapes [\n] and [\t] of a Python literal. *)
Fixpoint unescape (l : str) : str :=
  match l with
  | 92%N :: 110%N :: l' => 10%N :: unescape l'
  | 92%N :: 116%N :: l' => 9%N :: unescape l'
  | c :: l' => c :: unescape l'
  | [] => []
  end.

(** [u "..."] is the Python literal ["..."]. *)
Definition u (s : string) : str :=
  unescape (utf8 (map Ascii.N_of_ascii (String.list_ascii_of_string s))).

(** [str.isspace] of one code point; also the class [\s] of [re] on [str]
    patterns, and the characters removed by [str.strip()]. *)
Definition isspace (c : N) : bool :=
  ((0x09 <=? c) && (c <=? 0x0D) || (0x1C <=? c) && (c <=? 0x20)
   || (c =? 0x85) || (c =? 0xA0) || (c =? 0x1680)
   || (0x2000 <=? c) && (c <=? 0x200A)
   || (c =? 0x2028) || (c =? 0x2029) || (c =? 0x202F) || (c =? 0x205F)
   || (c =? 0x3000))%N.

(** The line boundaries of [str.splitlines]. *)
Definition islinebreak (c : N) : bool :=
  ((0x0A <=? c) && (c <=? 0x0D) || (0x1C <=? c) && (c <=? 0x1E)
   || (c =? 0x85) || (c =? 0x2028) || (c =? 0x2029))%N.

Fixpoint dropwhile (f : N -> bool) (s : str) : str :=
  match s with
  | c :: s' => if f c then dropwhile f s' else s
  | [] => []
  end.

Definition lstrip_by (f : N -> bool) (s : str) : str := dropwhile f s.
Definition rstrip_by (f : N -> bool) (s : str) : str := rev (dropwhile f (rev s)).

(** [s.lstrip()], [s.rstrip()], [s.strip()]. *)
Definition lstrip (s : str) : str := lstrip_by isspace s.
Definition rstrip (s : str) : str := rstrip_by isspace s.
Definition strip (s : str) : str := rstrip (lstrip s).

(** [s.lstrip(chars)] and [s.rstrip(chars)]. *)
Definition inb (chars : str) (c : N) : bool := existsb (N.eqb c) chars.
Definition lstrip_chars (chars s : str) : str := lstrip_by (inb chars) s.
Definition rstrip_chars (chars s : str) : str := rstrip_by (inb chars) s.

(** Truthiness of a string: [if s], [not s]. *)
Definition truthy (s : str) : bool :=
  match s with [] => false | _ => true end.

(** [s.startswith(p)]. *)
Fixpoint startswith (s p : str) : bool :=
  match p, s with
  | [], _ => true
  | a :: p', b :: s' => (a =? b)%N && startswith s' p'
  | _ :: _, [] => false
  end.

(** [s.endswith(p)]. *)
Definition endswith (s p : str) : bool := startswith (rev s) (rev p).

(** [s == t]. *)
Definition eqb (s t : str) : bool := bool_decide (s = t).

(** [sep.join(l)]. *)
Fixpoint join (sep : str) (l : list str) : str :=
  match l with
  | [] => []
  | [x] => x
  | x :: l' => x ++ sep ++ join sep l'
  end.

(** [s.split(sep)] for a one-character separator: one more piece than
    there are separators. *)
Fixpoint split (sep : N) (s : str) : list str :=
  match s with
  | [] => [[]]
  | c :: s' =>
      if (c =? sep)%N then [] :: split sep s'
      else match split sep s' with
           | p :: ps => (c :: p) :: ps
           | [] => [[c]]
           end
  end.

(** [s.replace(old, new)] for a one-character [old]. *)
Definition replace (old : N) (new : str) (s : str) : str :=
  flat_map (fun c => if (c =? old)%N then new else [c]) s.

(** [s.splitlines()]: lines without their terminators; [\r\n] is one
    terminator; no empty last line after a final terminator. [after_cr]
    says that the previous character was a [\r] that ended a line. *)
Fixpoint splitlines_from (after_cr : bool) (s : str) : list str :=
  match s with
  | [] => []
  | c :: s' =>
      if after_cr && (c =? 0x0A)%N then splitlines_from false s'
      else if islinebreak c then [] :: splitlines_from (c =? 0x0D)%N s'
      else match splitlines_from false s' with
           | l :: ls => (c :: l) :: ls
           | [] => [[c]]
           end
  end.

Definition splitlines (s : str) : list str := splitlines_from false s.

(** [s.lower()], code point by code point. The source uses the lowered
    line only in [startswith] tests against [INFERENCE_PREFIXES], whose
    characters are ASCII letters and six caseless CJK characters. The
    code points whose lowercase form begins with an ASCII character are
    A-Z, U+0130 and U+212A, all lowered here as Python does; the lowercase
    form of any other code point contains none of the characters of the
    prefixes, so leaving it in place changes no such test. *)
Definition lower_char (c : N) : str :=
  if (0x41 <=? c)%N && (c <=? 0x5A)%N then [(c + 32)%N]
  else if (c =? 0x130)%N then [0x69%N; 0x307%N]
  else if (c =? 0x212A)%N then [0x6B%N]
  else [c].

Definition lower (s : str) : str := flat_map lower_char s.

End Py.

(** ** Regular expressions of the source *)

Module Re.

(** Whether subject character [c] matches pattern character [p] under
    [re.IGNORECASE] on a [str] pattern, for the characters of
    [<translation>] and [</translation>]: ASCII letters match in both
    cases, [s] also matches U+017F, [i] also matches U+0130 and U+0131. *)
Definition ignorecase_eq (p c : N) : bool :=
  ((c =? p)
   || ((0x61 <=? p) && (p <=? 0x7A) && (c =? p - 32))
   || ((p =? 0x73) && (c =? 0x17F))
   || ((p =? 0x69) && ((c =? 0x130) || (c =? 0x131))))%N.

(** The rest of [s] after the literal [p] if [s] begins with it. *)
Fixpoint match_literal (p s : str) : option str :=
  match p, s with
  | [], _ => Some s
  | a :: p', c :: s' => if ignorecase_eq a c then match_literal p' s' else None
  | _ :: _, [] => None
  end.

(** The leftmost occurrence of the literal [p] in [s]: what is before it
    and what is after it. *)
Fixpoint find_literal (p s : str) : option (str * str) :=
  match match_literal p s with
  | Some rest => Some ([], rest)
  | None =>
      match s with
      | [] => None
      | c :: s' =>
          match find_literal p s' with
          | Some (before, after) => Some (c :: before, after)
          | None => None
          end
      end
  end.

End Re.

(** [SENTENCE_SPLIT_RE = re.compile(r"(?<=[\.\!\?\u3002\uff01\uff1f])\s+")]:
    the characters of the look-behind class. *)
Definition SENTENCE_TERMINATOR (c : N) : bool :=
  ((c =? 0x2E) || (c =? 0x21) || (c =? 0x3F)
   || (c =? 0x3002) || (c =? 0xFF01) || (c =? 0xFF1F))%N.

(** [SENTENCE_SPLIT_RE.split(text)]. A match is a maximal run of
    whitespace that directly follows a terminator; the pieces between the
    matches are returned, one more than there are matches. [in_sep]: the
    previous character belongs to a match; [after_term]: the previous
    character is a terminator. The head of the result is the rest of the
    piece being read. *)
Fixpoint SENTENCE_SPLIT_RE_split_from (in_sep after_term : bool) (s : str)
  : list str :=
  match s with
  | [] => [[]]
  | c :: s' =>
      if Py.isspace c && (in_sep || after_term) then
        if in_sep then SENTENCE_SPLIT_RE_split_from true false s'
        else [] :: SENTENCE_SPLIT_RE_split_from true false s'
      else
        match SENTENCE_SPLIT_RE_split_from false (SENTENCE_TERMINATOR c) s' with
        | p :: ps => (c :: p) :: ps
        | [] => [[c]]
        end
  end.

Definition SENTENCE_SPLIT_RE_split (text : str) : list str :=
  SENTENCE_SPLIT_RE_split_from false false text.

(** [TRANSLATION_TAG_RE = re.compile(r"<translation>(.*?)</translation>",
    re.IGNORECASE | re.DOTALL)]; [TRANSLATION_TAG_RE.search(raw)] gives
    [match.group(1)] of the leftmost match, if any: what lies between the
    first opening tag and the first closing tag after it. *)
Definition TRANSLATION_TAG_RE_search (raw : str) : option str :=
  match Re.find_literal (Py.u "<translation>") raw with
  | Some (_, after) =>
      match Re.find_literal (Py.u "</translation>") after with
      | Some (group1, _) => Some group1
      | None => None
      end
  | None => None
  end.

Definition INFERENCE_PREFIXES : list str :=
  [ Py.u "思考"; Py.u "推理"; Py.u "分析"; Py.u "reasoning"; Py.u "analysis";
    Py.u "thought"; Py.u "original"; Py.u "source"; Py.u "translation" ].

(** ** The response cleaner *)

(** One turn of the loop of [extract_translation_only] over the lines. *)
Definition clean_line (cleaned_lines : list str) (line : str) : list str :=
  let stripped := Py.strip line in
  if negb (Py.truthy stripped) then cleaned_lines
  else
    let lowered := Py.lower stripped in
    if existsb (fun prefix => Py.startswith lowered prefix) INFERENCE_PREFIXES
    then cleaned_lines
    else cleaned_lines ++ [stripped].

Definition extract_translation_only (raw : str) : str :=
  if negb (Py.truthy raw) then []
  else
    let candidate :=
      match TRANSLATION_TAG_RE_search raw with
      | Some group1 => Py.strip group1
      | None => []
      end in
    if Py.truthy candidate then candidate
    else
      let cleaned_lines := fold_left clean_line (Py.splitlines raw) [] in
      Py.strip (Py.join (Py.u "\n") cleaned_lines).

(** [cleaned or text], the end of an attempt of [_translate_once]. *)
Definition cleaned_or_text (raw_text text : str) : str :=
  let cleaned := extract_translation_only raw_text in
  if Py.truthy cleaned then cleaned else text.

(** ** The chunk splitter *)

Definition len (s : str) : Z := Z.of_nat (length s).

(** One turn of the loop of [split_text]; the state is [(chunks, buf)]. *)
Definition split_text_step (max_chars : Z) (st : list str * str) (part : str)
  : list str * str :=
  let '(chunks, buf) := st in
  if negb (Py.truthy part) then st
  else if (len buf + len part + 1 <=? max_chars)%Z then
    (chunks, Py.strip (buf ++ Py.u " " ++ part))
  else
    ((if Py.truthy buf then chunks ++ [buf] else chunks), part).

Definition split_text (text : str) (max_chars : Z) : list str :=
  let parts := SENTENCE_SPLIT_RE_split text in
  let '(chunks, buf) := fold_left (split_text_step max_chars) parts ([], []) in
  if Py.truthy buf then chunks ++ [buf] else chunks.

(** ** The generation service and the state of a run *)

(** A decoded JSON value, as [response.json()] returns it. A number is
    kept as an integer of the same truthiness: the code only tests it for
    truth. A dict is its list of bindings, keys distinct. *)
#[warning="-register-all"]
Inductive json :=
| JNull
| JBool (b : bool)
| JNum (n : Z)
| JStr (s : str)
| JList (l : list json)
| JDict (d : list (str * json)).

Record request := { req_url : str; req_json : json; req_timeout : Z }.

(** A response: its status and its body, [None] when the body is not
    JSON ([response.json()] raises). *)
Record response := { status_code : Z; body : option json }.

(** What [requests.post] does: it raises (connection refused, timeout,
    ...) or returns a response. *)
Inductive outcome :=
| Fails
| Responds (r : response).

(** What a run does to the outside, in order: [Call text] marks an entry
    into [_translate_once], [Post r] a call to [requests.post] and
    [Sleep n] a call to [time.sleep(n)]. *)
Inductive event :=
| Call (text : str)
| Post (r : request)
| Sleep (seconds : Z).

#[warning="-register-all"]
Inductive exn :=
| ConnectionError
| HTTPError (status : Z)
| JSONDecodeError
| AttributeError
| RuntimeError (last_err : option exn).

Inductive result (A : Type) :=
| Return (a : A)
| Raise (e : exn).
Arguments Return {A} a.
Arguments Raise {A} e.

(** The mutable state: the [_cache] dict of the translator, the events so
    far and the paragraphs of the output document. *)
Record state := {
  _cache : gmap str str;
  trace : list event;
  paragraphs : list str
}.

Definition set_cache (c : gmap str str) (st : state) : state :=
  {| _cache := c; trace := trace st; paragraphs := paragraphs st |}.
Definition log (e : event) (st : state) : state :=
  {| _cache := _cache st; trace := trace st ++ [e]; paragraphs := paragraphs st |}.
Definition add_paragraph (text : str) (st : state) : state :=
  {| _cache := _cache st; trace := trace st; paragraphs := paragraphs st ++ [text] |}.

(** Computations that read and write the state and may raise. *)
Definition M (A : Type) : Type := state -> state * result A.

Definition ret {A} (a : A) : M A := fun st => (st, Return a).
Definition raise {A} (e : exn) : M A := fun st => (st, Raise e).
Definition bind {A B} (m : M A) (k : A -> M B) : M B :=
  fun st =>
    match m st with
    | (st', Return a) => k a st'
    | (st', Raise e) => (st', Raise e)
    end.
(** [try: m except Exception as err: h err]. *)
Definition try_except {A} (m : M A) (h : exn -> M A) : M A :=
  fun st =>
    match m st with
    | (st', Return a) => (st', Return a)
    | (st', Raise e) => h e st'
    end.
Definition modify (f : state -> state) : M unit := fun st => (f st, Return tt).
Definition lift {A} (r : result A) : M A := fun st => (st, r).

Notation "'do' x <- m ; k" := (bind m (fun x => k))
  (at level 10, x name, m at level 100, k at level 200).
Notation "'do_' m ; k" := (bind m (fun _ => k))
  (at level 10, m at level 100, k at level 200).

(** [[f(x) for x in l]], left to right, stopping at the first exception. *)
Fixpoint mapM {A B} (f : A -> M B) (l : list A) : M (list B) :=
  match l with
  | [] => ret []
  | x :: l' => do y <- f x; do ys <- mapM f l'; ret (y :: ys)
  end.

(** [for x in l: acc = f(acc, x)]. *)
Fixpoint foldM {A B} (f : B -> A -> M B) (acc : B) (l : list A) : M B :=
  match l with
  | [] => ret acc
  | x :: l' => do acc' <- f acc x; foldM f acc' l'
  end.

(** *** JSON access *)

Definition json_truthy (j : json) : bool :=
  match j with
  | JNull => false
  | JBool b => b
  | JNum n => negb (n =? 0)%Z
  | JStr s => Py.truthy s
  | JList l => match l with [] => false | _ => true end
  | JDict d => match d with [] => false | _ => true end
  end.

Fixpoint assoc (k : str) (d : list (str * json)) : option json :=
  match d with
  | [] => None
  | (k', v) :: d' => if Py.eqb k k' then Some v else assoc k d'
  end.

(** [j.get(k, default)]: only a dict has [get]. *)
Definition json_get (j : json) (k : str) (default : json) : result json :=
  match j with
  | JDict d => Return (match assoc k d with Some v => v | None => default end)
  | _ => Raise AttributeError
  end.

(** [j.strip()]: only a string has [strip]. *)
Definition json_strip (j : json) : result str :=
  match j with
  | JStr s => Return (Py.strip s)
  | _ => Raise AttributeError
  end.

(** [(data.get("response") or data.get("message", {}).get("content")
    or "").strip()]. *)
Definition raw_text_of (data : json) : result str :=
  match json_get data (Py.u "response") JNull with
  | Raise e => Raise e
  | Return a =>
      if json_truthy a then json_strip a
      else
        match json_get data (Py.u "message") (JDict []) with
        | Raise e => Raise e
        | Return msg =>
            match json_get msg (Py.u "content") JNull with
            | Raise e => Raise e
            | Return b =>
                if json_truthy b then json_strip b else json_strip (JStr [])
            end
        end
  end.

(** [response.raise_for_status()]. *)
Definition raise_for_status (r : response) : result unit :=
  if (400 <=? status_code r)%Z && (status_code r <? 600)%Z
  then Raise (HTTPError (status_code r)) else Return tt.

(** [response.json()]. *)
Definition response_json (r : response) : result json :=
  match body r with
  | Some data => Return data
  | None => Raise JSONDecodeError
  end.

(** ** The translation client *)

Record OllamaTranslator := {
  model : str;
  url : str;
  max_chars : Z;
  retry : Z
}.

(** [OllamaTranslator.__init__]: the fields, and an empty [_cache]. *)
Definition OllamaTranslator_init (model url : str) (max_chars retry : Z)
  : OllamaTranslator * state :=
  ({| model := model; url := Py.rstrip_chars (Py.u "/") url;
      max_chars := max_chars; retry := retry |},
   {| _cache := ∅; trace := []; paragraphs := [] |}).

Definition instruction : str :=
  Py.u "Translate the following English text to Simplified Chinese only. "
  ++ Py.u "Do not explain, show reasoning, or repeat the English text. "
  ++ Py.u "Wrap the final translation inside <translation> and </translation> tags.".

Section Client.

(** The service: what [requests.post] does with a request, given all that
    happened before. *)
Variable service : list event -> request -> outcome.
Variable self : OllamaTranslator.

Definition requests_post (r : request) : M response :=
  fun st =>
    match service (trace st) r with
    | Fails => (log (Post r) st, Raise ConnectionError)
    | Responds resp => (log (Post r) st, Return resp)
    end.

Definition sleep (seconds : Z) : M unit := modify (log (Sleep seconds)).

Definition generate_request (text : str) : request :=
  {| req_url := url self ++ Py.u "/api/generate";
     req_json := JDict [ (Py.u "model", JStr (model self));
                         (Py.u "prompt", JStr (instruction ++ Py.u "\n\n" ++ text));
                         (Py.u "stream", JBool false) ];
     req_timeout := 120 |}.

Definition chat_request (text : str) : request :=
  {| req_url := url self ++ Py.u "/api/chat";
     req_json :=
       JDict [ (Py.u "model", JStr (model self));
               (Py.u "messages",
                JList [ JDict [ (Py.u "role", JStr (Py.u "system"));
                                (Py.u "content", JStr instruction) ];
                        JDict [ (Py.u "role", JStr (Py.u "user"));
                                (Py.u "content", JStr text) ] ]);
               (Py.u "stream", JBool false) ];
     req_timeout := 120 |}.

(** The body of the [try] of [_translate_once]: one attempt. *)
Definition attempt (text : str) : M str :=
  do response <- requests_post (generate_request text);
  do response <- (if (status_code response =? 404)%Z
                  then requests_post (chat_request text)
                  else ret response);
  do_ lift (raise_for_status response);
  do data <- lift (response_json response);
  do raw_text <- lift (raw_text_of data);
  ret (cleaned_or_text raw_text text).

(** [for _ in range(n): try: return attempt except: last_err = err;
    sleep(1)], then [raise RuntimeError]. *)
Fixpoint retry_loop (n : nat) (last_err : option exn) (text : str) : M str :=
  match n with
  | O => raise (RuntimeError last_err)
  | S n' =>
      try_except (attempt text)
        (fun err => do_ sleep 1; retry_loop n' (Some err) text)
  end.

Definition _translate_once (text : str) : M str :=
  do_ modify (log (Call text));
  retry_loop (Z.to_nat (retry self + 1)) None text.

Definition translate_text (text : str) : M str :=
  if negb (Py.truthy (Py.strip text)) then ret text
  else
    fun st =>
      match _cache st !! text with
      | Some cached => (st, Return cached)
      | None =>
          (do translated <-
             (if (len text <=? max_chars self)%Z then _translate_once text
              else
                let chunks := split_text text (max_chars self) in
                do results <- mapM _translate_once chunks;
                ret (concat results));
           do_ modify (fun st => set_cache (<[text := translated]> (_cache st)) st);
           ret translated) st
      end.

End Client.

(** ** Archive paths and the image map *)

Module posixpath.

Definition sep : N := 0x2F.

(** One turn of the loop of [posixpath.normpath] over the components. *)
Definition normpath_step (initial_slashes : nat) (new_comps : list str)
    (comp : str) : list str :=
  if Py.eqb comp [] || Py.eqb comp (Py.u ".") then new_comps
  else if negb (Py.eqb comp (Py.u ".."))
          || (Nat.eqb initial_slashes 0
              && match new_comps with [] => true | _ => false end)
          || match last new_comps with
             | Some l => Py.eqb l (Py.u "..")
             | None => false
             end
  then new_comps ++ [comp]
  else removelast new_comps.

Definition normpath (path : str) : str :=
  if negb (Py.truthy path) then Py.u "."
  else
    let initial_slashes :=
      if Py.startswith path (Py.u "/") then
        if Py.startswith path (Py.u "//") && negb (Py.startswith path (Py.u "///"))
        then 2%nat else 1%nat
      else 0%nat in
    let comps := Py.split sep path in
    let new_comps := fold_left (normpath_step initial_slashes) comps [] in
    let path := repeat sep initial_slashes ++ Py.join (Py.u "/") new_comps in
    if Py.truthy path then path else Py.u ".".

(** [posixpath.join(a, b)]. *)
Definition join (a b : str) : str :=
  if Py.startswith b (Py.u "/") then b
  else if negb (Py.truthy a) || Py.endswith a (Py.u "/") then a ++ b
  else a ++ Py.u "/" ++ b.

(** [posixpath.dirname(p)]. *)
Definition dirname (p : str) : str :=
  let head := rev (Py.dropwhile (fun c => negb (c =? sep)%N) (rev p)) in
  if Py.truthy head && negb (forallb (fun c => (c =? sep)%N) head)
  then Py.rstrip_chars (Py.u "/") head
  else head.

End posixpath.

Definition normalize_epub_path (path : str) : str :=
  Py.lstrip_chars (Py.u "./") (posixpath.normpath path).

(** An image resource of the archive; the bytes that [build_image_map]
    writes to [out_path] are not modelled. *)
Record epub_item := { get_name : str }.

(** The mapping that [build_image_map] returns. It returns when every
    [open(out_path, "wb")] of its loop does; the paths that it opens are
    [image_files] below, and [translate_epub_to_docx] stops at the first
    of them that cannot be opened. *)
Definition build_image_map (items : list epub_item) (temp_dir : str)
  : gmap str str :=
  fold_left
    (fun (mapping : gmap str str) item =>
       let name := normalize_epub_path (get_name item) in
       let safe_name := Py.replace posixpath.sep (Py.u "__") name in
       let out_path := posixpath.join temp_dir safe_name in
       <[name := out_path]> mapping)
    items ∅.

(** The files that [build_image_map] opens for writing, in order. *)
Definition image_files (items : list epub_item) (temp_dir : str) : list str :=
  map (fun item =>
         let name := normalize_epub_path (get_name item) in
         let safe_name := Py.replace posixpath.sep (Py.u "__") name in
         posixpath.join temp_dir safe_name)
      items.

Definition resolve_image_src (src doc_path : str) : option str :=
  if negb (Py.truthy src) || Py.startswith src (Py.u "data:") then None
  else
    let base := posixpath.dirname doc_path in
    Some (normalize_epub_path (posixpath.join base src)).

(** ** The content tree and the segment extractor *)

(** A node of the parsed document: a string, a [Tag] with its name,
    attributes and children, or any other element. The strings are the
    instances of [NavigableString]: [NavigableString s] is one of the
    class itself or of [CData], [Comment s] one of [Comment],
    [ProcessingInstruction], [Declaration] or [Doctype], the subclasses
    whose strings [get_text] leaves out; [s] is [str(node)]. *)
#[warning="-register-all"]
Inductive node :=
| NavigableString (s : str)
| Tag (name : str) (attrs : list (str * str)) (children : list node)
| PageElement
| Comment (s : str).

(** [{"type": "text", "value": v}] and [{"type": "img", "src": s}]. *)
Inductive segment :=
| text_segment (value : str)
| img_segment (src : str).

(** [tag.get(key, default)]. *)
Fixpoint attr_get (attrs : list (str * str)) (key default : str) : str :=
  match attrs with
  | [] => default
  | (k, v) :: attrs' => if Py.eqb key k then v else attr_get attrs' key default
  end.

(** [walk] of [extract_inline_segments]; the list [segments] it appends
    to is passed in and returned. *)
Fixpoint walk (child : node) (segments : list segment) : list segment :=
  match child with
  | NavigableString s => segments ++ [text_segment s]
  | Comment s => segments ++ [text_segment s]
  | PageElement => segments
  | Tag name attrs children =>
      if Py.eqb name (Py.u "img")
      then segments ++ [img_segment (attr_get attrs (Py.u "src") [])]
      else if Py.eqb name (Py.u "br")
      then segments ++ [text_segment (Py.u "\n")]
      else fold_left (fun segs grand => walk grand segs) children segments
  end.

(** One turn of the loop of [merge_text_segments]. *)
Definition merge_step (merged : list segment) (seg : segment) : list segment :=
  match seg with
  | text_segment value =>
      match last merged with
      | Some (text_segment prev) =>
          removelast merged ++ [text_segment (prev ++ value)]
      | _ => merged ++ [seg]
      end
  | img_segment _ => merged ++ [seg]
  end.

Definition merge_text_segments (segments : list segment) : list segment :=
  fold_left merge_step segments [].

Definition extract_inline_segments (node : node) : list segment :=
  merge_text_segments (walk node []).

(** ** The table renderer *)

(** The descendants of a node, in document order. *)
Fixpoint descendants (n : node) : list node :=
  match n with
  | Tag _ _ children => flat_map (fun c => c :: descendants c) children
  | _ => []
  end.

(** [tag.find_all(names)]: the descendant tags with one of the names. *)
Definition find_all (names : list str) (tag : node) : list node :=
  List.filter
    (fun d => match d with
              | Tag name _ _ => existsb (Py.eqb name) names
              | _ => false
              end)
    (descendants tag).

(** The strings below a node that [get_text] takes, in document order:
    those of the classes [NavigableString] and [CData]. *)
Fixpoint all_strings (n : node) : list str :=
  match n with
  | NavigableString s => [s]
  | Tag _ _ children => flat_map all_strings children
  | PageElement => []
  | Comment _ => []
  end.

(** [cell.get_text(sep, strip=True)]: the stripped strings that are not
    empty, joined. *)
Definition get_text (sep : str) (cell : node) : str :=
  Py.join sep (List.filter Py.truthy (map Py.strip (all_strings cell))).

Section Renderer.

Variable service : list event -> request -> outcome.
Variable translator : OllamaTranslator.

(** The inner loop of [process_table], over the cells of a row. *)
Definition process_cell (cells : list str) (cell : node) : M (list str) :=
  let cell_text := get_text (Py.u " ") cell in
  if Py.truthy cell_text then
    do t <- translate_text service translator cell_text;
    ret (cells ++ [t])
  else ret cells.

(** The outer loop of [process_table], over the rows. [paragraphs]
    records the lines that are handed to [doc.add_paragraph]; what the
    document makes of a line, and that it can refuse one, is modelled
    with the document writer below, in [doc_process_row]. *)
Definition process_row (row : node) : M unit :=
  do cells <- foldM process_cell [] (find_all [Py.u "td"; Py.u "th"] row);
  match cells with
  | [] => ret tt
  | _ => modify (add_paragraph (Py.join (Py.u "\t") cells))
  end.

Definition process_table (tag : node) : M unit :=
  foldM (fun _ row => process_row row) tt (find_all [Py.u "tr"] tag).

End Renderer.

(** ** The cleaning protocol in the words of the specification *)

(** A line is a marker line when its lowercased content starts with one
    of the markers. *)
Definition is_marker_line (markers : list str) (line : str) : bool :=
  existsb (Py.startswith (Py.lower line)) markers.

(** Stage 1: the trimmed content of the delimiter pair, when there is one
    and it is not empty. Stage 2: the trimmed lines that are neither
    blank nor marker lines, joined by newlines. Stage 3: the input text
    when nothing is left. *)
Definition stage1 (raw : str) : option str :=
  match TRANSLATION_TAG_RE_search raw with
  | Some content => if Py.truthy (Py.strip content) then Some (Py.strip content) else None
  | None => None
  end.

Definition stage2 (markers : list str) (raw : str) : str :=
  let lines := map Py.strip (Py.splitlines raw) in
  let kept :=
    List.filter (fun l => negb (is_marker_line markers l))
      (List.filter Py.truthy lines) in
  Py.strip (Py.join (Py.u "\n") kept).

Definition three_stage_protocol (markers : list str) (raw text : str) : str :=
  let cleaned :=
    match stage1 raw with
    | Some content => content
    | None => stage2 markers raw
    end in
  match cleaned with
  | [] => text
  | _ => cleaned
  end.

(** The markers that the specification names. *)
Definition markers_named_by_spec : list str :=
  [ Py.u "thinking"; Py.u "analysis"; Py.u "reasoning"; Py.u "original";
    Py.u "source"; Py.u "translation" ].

(** * The vocabulary of the properties *)

(** ** Whitespace *)

(** [s] consists of whitespace only. *)
Definition blank (s : str) : bool := forallb Py.isspace s.

(** [s] without its whitespace. *)
Definition squash (s : str) : str := List.filter (fun c => negb (Py.isspace c)) s.

Definition nonblank (s : str) : Prop := blank s = false.

(** ** The tag pair *)

(** [m] is the literal [p] up to case. *)
Definition matches_literal (p m : str) : Prop :=
  Forall2 (fun a c => Re.ignorecase_eq a c = true) p m.

(** [m] is the first part of [s] that is the literal [p] up to case: [s]
    is [before], [m] and [after], and no part of [s] that is [p] up to
    case begins before [m] does. *)
Definition first_occurrence (p s before m after : str) : Prop :=
  s = before ++ m ++ after
  /\ matches_literal p m
  /\ forall before' m' after',
       s = before' ++ m' ++ after' -> matches_literal p m' ->
       (length before <= length before')%nat.

(** [content] lies between the first opening tag of [raw] and the first
    closing tag after it. *)
Definition tag_pair (raw content : str) : Prop :=
  exists before opening closing after,
    first_occurrence (Py.u "<translation>") raw before opening
      (content ++ closing ++ after)
    /\ first_occurrence (Py.u "</translation>") (content ++ closing ++ after)
         content closing after.

(** ** The chunk splitter *)

(** The end of [split_text]: the last buffer is flushed. *)
Definition flush (st : list str * str) : list str :=
  let '(chunks, buf) := st in
  if Py.truthy buf then chunks ++ [buf] else chunks.

(** A chunk is within the budget, or it is one sentence that alone is over
    the budget. *)
Definition within_budget (max_chars : Z) (parts : list str) (c : str) : Prop :=
  (len c <= max_chars)%Z \/ ((max_chars < len c)%Z /\ In c parts).

(** The sentences of a text: the pieces of the split, trimmed, without the
    empty ones. *)
Definition sentences_of (parts : list str) : list str :=
  List.filter Py.truthy (map Py.strip parts).

Definition sentences (text : str) : list str :=
  sentences_of (SENTENCE_SPLIT_RE_split text).

(** Chunk [c] consists of the sentences [g] with one space between two of
    them, up to whitespace around it. *)
Definition chunk_of (c : str) (g : list str) : Prop :=
  Py.strip c = Py.join (Py.u " ") g.

Definition ends_term (p : str) : Prop :=
  exists p' t, p = p' ++ [t] /\ SENTENCE_TERMINATOR t = true.

(** The shape of the pieces of a split: every piece but the last ends
    with a terminator, no piece but the first begins with whitespace. The
    flag tells that a terminator precedes the first piece. *)
Fixpoint parts_wf (after_term : bool) (l : list str) : Prop :=
  match l with
  | p :: l' =>
      match l' with
      | q :: _ =>
          (ends_term p \/ (p = [] /\ after_term = true))
          /\ Py.lstrip q = q /\ parts_wf false l'
      | [] => True
      end
  | [] => True
  end.

(** Two chunks that follow each other: no whitespace at the end of the
    first nor at the beginning of the second, and neither is blank. *)
Definition pair_clean (c1 c2 : str) : Prop :=
  Py.rstrip c1 = c1 /\ nonblank c1 /\ Py.lstrip c2 = c2 /\ nonblank c2.

Fixpoint inner_clean (cs : list str) : Prop :=
  match cs with
  | c1 :: cs' =>
      match cs' with
      | c2 :: _ => pair_clean c1 c2 /\ inner_clean cs'
      | [] => True
      end
  | [] => True
  end.

(** The state of the loop of [split_text] as far as whitespace goes. *)
Definition clean_state (chunks : list str) (buf : str) : Prop :=
  inner_clean chunks
  /\ (forall c, last chunks = Some c ->
        Py.rstrip c = c /\ nonblank c
        /\ Py.lstrip buf = buf /\ (buf <> [] -> nonblank buf)).

(** ** Traces *)

(** What a trace shows: the logical calls, the pauses, and the attempts,
    each of which begins with one request to [/api/generate]. *)
Definition calls (tr : list event) : list str :=
  flat_map (fun e => match e with Call text => [text] | _ => [] end) tr.

Definition sleeps (tr : list event) : list Z :=
  flat_map (fun e => match e with Sleep n => [n] | _ => [] end) tr.

Definition posts (tr : list event) : list request :=
  flat_map (fun e => match e with Post r => [r] | _ => [] end) tr.

Definition is_generate (self : OllamaTranslator) (r : request) : bool :=
  Py.eqb (req_url r) (url self ++ Py.u "/api/generate").

Definition attempts (self : OllamaTranslator) (tr : list event) : nat :=
  length (List.filter (is_generate self) (posts tr)).

(** A sequence of calls of [translate_text], whatever each one returns or
    raises. *)
Fixpoint run (service : list event -> request -> outcome)
    (self : OllamaTranslator) (texts : list str) (st : state)
  : state * list (result str) :=
  match texts with
  | [] => (st, [])
  | text :: texts' =>
      let '(st1, r) := translate_text service self text st in
      let '(st2, rs) := run service self texts' st1 in
      (st2, r :: rs)
  end.

Section Vocabulary.

Variable service : list event -> request -> outcome.
Variable self : OllamaTranslator.

(** The events of one attempt: a request to [/api/generate], and after a
    404 one to [/api/chat]. *)
Definition attempt_events (text : str) (new : list event) : Prop :=
  new = [Post (generate_request self text)]
  \/ new = [Post (generate_request self text); Post (chat_request self text)].

(** [raw_text] is the trimmed text of a response that the service gave. *)
Definition served (raw_text : str) : Prop :=
  exists tr req resp data,
    service tr req = Responds resp /\ body resp = Some data
    /\ raw_text_of data = Return raw_text.

(** What a retry loop of budget [n] appends to the trace and returns. *)
Definition loop_outcome (n : nat) (last_err : option exn) (text : str)
    (new : list event) (r : result str) : Prop :=
  calls new = []
  /\ Forall (fun secs => secs = 1%Z) (sleeps new)
  /\ match r with
     | Raise e =>
         attempts self new = n /\ length (sleeps new) = n
         /\ (exists err, e = RuntimeError err
                         /\ match n with O => err = last_err | _ => err <> None end)
     | Return v =>
         (length (sleeps new) + 1 = attempts self new)%nat
         /\ (attempts self new <= n)%nat
         /\ exists raw_text,
                served raw_text /\ v = cleaned_or_text raw_text text
     end.

(** The texts that [translate_text] hands to [_translate_once]. *)
Definition chunks_of (text : str) : list str :=
  if (len text <=? max_chars self)%Z then [text]
  else split_text text (max_chars self).

(** [self._cache[text] = translated]. *)
Definition store (text translated : str) : M unit :=
  modify (fun st => set_cache (<[text := translated]> (_cache st)) st).

(** ** Tables *)

(** The cell texts of a row that are not empty. *)
Definition cell_texts (row : node) : list str :=
  List.filter Py.truthy
    (map (get_text (Py.u " ")) (find_all [Py.u "td"; Py.u "th"] row)).



(** A row as the specification words it: every cell text of the row is
    translated and joined, unless no cell of the row has text. *)
Definition process_row_as_claimed (row : node) : M unit :=
  let texts := map (get_text (Py.u " ")) (find_all [Py.u "td"; Py.u "th"] row) in
  if existsb Py.truthy texts then
    do cells <- mapM (translate_text service self) texts;
    modify (add_paragraph (Py.join (Py.u "\t") cells))
  else ret tt.

Definition process_table_as_claimed (tag : node) : M unit :=
  foldM (fun _ row => process_row_as_claimed row) tt (find_all [Py.u "tr"] tag).

End Vocabulary.


Definition has_text (row : node) : bool :=
  match cell_texts row with [] => false | _ => true end.

(** ** Segments *)

(** The segments of a subtree in document order, before merging. *)
Fixpoint document_order (n : node) : list segment :=
  match n with
  | NavigableString s => [text_segment s]
  | Comment s => [text_segment s]
  | PageElement => []
  | Tag name attrs children =>
      if Py.eqb name (Py.u "img")
      then [img_segment (attr_get attrs (Py.u "src") [])]
      else if Py.eqb name (Py.u "br")
      then [text_segment (Py.u "\n")]
      else flat_map document_order children
  end.

(** The segments of a subtree as claim C3 has them: only a text node
    gives a text segment; a comment, as any other node, gives none. *)
Fixpoint segments_as_claimed (n : node) : list segment :=
  match n with
  | NavigableString s => [text_segment s]
  | Comment _ => []
  | PageElement => []
  | Tag name attrs children =>
      if Py.eqb name (Py.u "img")
      then [img_segment (attr_get attrs (Py.u "src") [])]
      else if Py.eqb name (Py.u "br")
      then [text_segment (Py.u "\n")]
      else flat_map segments_as_claimed children
  end.

(** A subtree without a comment, a processing instruction, a
    declaration or a doctype. *)
Fixpoint without_comment (n : node) : bool :=
  match n with
  | NavigableString _ => true
  | Comment _ => false
  | PageElement => true
  | Tag _ _ children => forallb without_comment children
  end.

(** Merging from the front: a text segment joins the run that follows
    it. *)
Fixpoint merge_runs (l : list segment) : list segment :=
  match l with
  | [] => []
  | img_segment src :: l' => img_segment src :: merge_runs l'
  | text_segment a :: l' =>
      match merge_runs l' with
      | text_segment b :: m => text_segment (a ++ b) :: m
      | m => text_segment a :: m
      end
  end.

(** No two text segments are next to each other. *)
Fixpoint no_adjacent_text (l : list segment) : Prop :=
  match l with
  | text_segment _ :: ((text_segment _ :: _) as l') => False
  | _ :: l' => no_adjacent_text l'
  | [] => True
  end.

(** What the loop of [merge_text_segments] has built, seen from the
    front: the last segment of [merged] joins the first run of [m]. *)
Definition glue (merged m : list segment) : list segment :=
  match last merged, m with
  | Some (text_segment x), text_segment y :: m' =>
      removelast merged ++ text_segment (x ++ y) :: m'
  | _, _ => merged ++ m
  end.

(** Induction on a node with the property at hand for all children. *)
Fixpoint node_induction (P : node -> Prop)
    (Hstring : forall s, P (NavigableString s))
    (Helement : P PageElement)
    (Htag : forall name attrs children,
        Forall P children -> P (Tag name attrs children))
    (Hcomment : forall s, P (Comment s))
    (n : node) : P n :=
  match n with
  | NavigableString s => Hstring s
  | PageElement => Helement
  | Comment s => Hcomment s
  | Tag name attrs children =>
      Htag name attrs children
        ((fix all (l : list node) : Forall P l :=
            match l with
            | [] => List.Forall_nil P
            | c :: l' =>
                @List.Forall_cons _ P c l'
                  (node_induction P Hstring Helement Htag Hcomment c) (all l')
            end) children)
  end.

(** ** The image map *)

(** The file that [build_image_map] writes for a key. *)
Definition out_path_of (temp_dir name : str) : str :=
  posixpath.join temp_dir (Py.replace posixpath.sep (Py.u "__") name).

(** ** A service for the examples *)

(** A service that answers every request to [/api/generate] with the
    source text behind the character [译], wrapped in the tags. *)
Definition mock_service (_ : list event) (r : request) : outcome :=
  match req_json r with
  | JDict (_ :: (_, JStr prompt) :: _) =>
      Responds
        {| status_code := 200;
           body := Some (JDict [ (Py.u "response",
                     JStr (Py.u "<translation>译"
                           ++ drop (length instruction + 2) prompt
                           ++ Py.u "</translation>")) ]) |}
  | _ => Fails
  end.

(** A service that is down. *)
Definition down_service (_ : list event) (_ : request) : outcome := Fails.

Definition demo_translator (max_chars retry : Z) : OllamaTranslator :=
  (OllamaTranslator_init (Py.u "qwen3:8b") (Py.u "http://localhost:11434")
     max_chars retry).1.

Definition fresh : state :=
  (OllamaTranslator_init (Py.u "qwen3:8b") (Py.u "http://localhost:11434")
     1500 2).2.

Definition td (s : str) : node := Tag (Py.u "td") [] [NavigableString s].
Definition tr (cells : list node) : node := Tag (Py.u "tr") [] cells.
Definition table (rows : list node) : node := Tag (Py.u "table") [] rows.

(** * More of the code and of its vocabulary *)

(** ** The cache and the segments *)

(** No value of the cache is the empty string. *)
Definition cache_values_nonempty (st : state) : Prop :=
  forall k v, _cache st !! k = Some v -> v <> [].

(** The sources of the image segments, in order. *)
Definition srcs_of (segments : list segment) : list str :=
  flat_map (fun seg => match seg with img_segment src => [src] | _ => [] end)
    segments.

(** The text of the text segments, in order. *)
Definition text_of (segments : list segment) : str :=
  flat_map (fun seg => match seg with text_segment v => v | _ => [] end)
    segments.

(** The lines that the line filter of [extract_translation_only] keeps. *)
Definition kept_lines (raw : str) : list str :=
  List.filter (fun l => negb (is_marker_line INFERENCE_PREFIXES l))
    (List.filter Py.truthy (map Py.strip (Py.splitlines raw))).

(** ** Requests *)

(** A request of the client: to one of its two endpoints, with the
    timeout of 120 seconds. *)
Definition client_request (self : OllamaTranslator) (r : request) : Prop :=
  (req_url r = url self ++ Py.u "/api/generate"
   \/ req_url r = url self ++ Py.u "/api/chat")
  /\ req_timeout r = 120%Z.

(** The events [new] hold at most [k] logical calls, each with at most
    [n] attempts: at most two requests for an attempt, and at most one
    pause of one second. *)
Definition within_retries (self : OllamaTranslator) (n k : nat)
    (new : list event) : Prop :=
  (length (calls new) <= k)%nat
  /\ (length (posts new) <= 2 * n * length (calls new))%nat
  /\ (length (sleeps new) <= n * length (calls new))%nat
  /\ Forall (client_request self) (posts new)
  /\ Forall (fun seconds => seconds = 1%Z) (sleeps new).

(** A service that answers every request with the same text. *)
Definition reply_service (reply : str) (_ : list event) (_ : request) : outcome :=
  Responds {| status_code := 200;
              body := Some (JDict [ (Py.u "response", JStr reply) ]) |}.

(** ** Pieces *)

(** The pieces of the sentence split that the loop of [split_text] does
    not skip. *)
Definition pieces (text : str) : list str :=
  List.filter Py.truthy (SENTENCE_SPLIT_RE_split text).

(** The room that pieces take in a buffer: a piece and one separator
    each. *)
Definition room (parts : list str) : Z :=
  fold_right (fun part acc => (len part + 1 + acc)%Z) 0%Z parts.

(** ** Paths *)

(** A component of a path that is a name: not empty, not [.], not [..],
    and without a slash. *)
Definition plain_component (c : str) : Prop :=
  c <> [] /\ c <> Py.u "." /\ c <> Py.u ".." /\ ~ In posixpath.sep c.

(** The components of a path; the empty path has none. *)
Definition components (path : str) : list str :=
  if Py.truthy path then Py.split posixpath.sep path else [].

(** The first component begins with a character other than [.] and [/]. *)
Definition head_kept (cs : list str) : Prop :=
  match cs with
  | [] => True
  | [] :: _ => False
  | (x :: _) :: _ => Py.inb (Py.u "./") x = false
  end.

(** * The document writer *)

(** ** Documents *)

(** A run of a paragraph, as the calls on the paragraph make it:
    [paragraph.add_run(text)], [paragraph.add_run().add_break()] and
    [paragraph.add_run().add_picture(img_path)]. The text of a text run
    is what the run holds as [run.text] reads it: the characters of its
    text elements, a tab for a tab element and a newline for a line
    break. *)
Inductive docx_run :=
| text_run (text : str)
| break_run
| picture_run (img_path : str).

(** A paragraph: its style, when one was set, and its runs in order. *)
Record paragraph := { style : option str; runs : list docx_run }.

(** The state of the translator and the paragraphs of the document that
    is being written. *)
Record docstate := { base : state; document : list paragraph }.

(** What the writer raises: what the translator raises, what
    [add_picture] raises on a file that it does not take, the
    [ValueError] of a run for a text that the XML of a document cannot
    hold, and the [OSError] of a directory that cannot be made or a file
    that cannot be opened for writing. *)
Inductive doc_exn :=
| TranslatorError (e : exn)
| PictureError (img_path : str)
| ValueError (text : str)
| OSError (path : str).

Inductive doc_result (A : Type) :=
| Done (a : A)
| Failed (e : doc_exn).

Arguments Done {A} a.
Arguments Failed {A} e.

Definition D (A : Type) : Type := docstate -> docstate * doc_result A.

Definition dret {A} (a : A) : D A := fun ds => (ds, Done a).
Definition dfail {A} (e : doc_exn) : D A := fun ds => (ds, Failed e).
Definition dbind {A B} (m : D A) (k : A -> D B) : D B :=
  fun ds =>
    match m ds with
    | (ds', Done a) => k a ds'
    | (ds', Failed e) => (ds', Failed e)
    end.

Notation "'dlet' x <- m ; k" := (dbind m (fun x => k))
  (at level 10, x name, m at level 100, k at level 200).
Notation "'dlet_' m ; k" := (dbind m (fun _ => k))
  (at level 10, m at level 100, k at level 200).

(** [for x in l: f(x)]. *)
Fixpoint for_each {A} (f : A -> D unit) (l : list A) : D unit :=
  match l with
  | [] => dret tt
  | x :: l' => dlet_ f x; for_each f l'
  end.

(** [enumerate(l)]. *)
Definition enumerate {A} (l : list A) : list (nat * A) :=
  combine (seq 0 (length l)) l.

(** A call of the translator while a document is written: the state of
    the translator changes, the document does not. *)
Definition in_document {A} (m : M A) : D A :=
  fun ds =>
    let '(st', r) := m (base ds) in
    ({| base := st'; document := document ds |},
     match r with
     | Return a => Done a
     | Raise e => Failed (TranslatorError e)
     end).

(** [doc.add_paragraph()]: the new paragraph is the last one; the handle
    on it is its index. *)
Definition doc_add_paragraph : D nat :=
  fun ds =>
    ({| base := base ds;
        document := document ds ++ [ {| style := None; runs := [] |} ] |},
     Done (length (document ds))).

Definition add_runs (rs : list docx_run) (par : paragraph) : paragraph :=
  {| style := style par; runs := runs par ++ rs |}.

(** A run is added to the end of a paragraph. *)
Definition new_run (p : nat) (r : docx_run) : D unit :=
  fun ds =>
    ({| base := base ds; document := alter (add_runs [r]) p (document ds) |},
     Done tt).

(** The characters at which [run.text = text] ends a piece of text: a
    tab becomes a tab element, a newline or a carriage return a line
    break. *)
Definition run_separator (c : N) : bool :=
  (c =? 0x09)%N || (c =? 0x0A)%N || (c =? 0x0D)%N.

(** What [run.text] reads for a character that was written: a newline
    for a carriage return, which was stored as a line break. *)
Definition as_read (c : N) : N := if (c =? 0x0D)%N then 0x0A%N else c.

(** [paragraph.style = name]. *)
Definition set_style (p : nat) (name : str) : D unit :=
  fun ds =>
    ({| base := base ds;
        document :=
          alter (fun par => {| style := Some name; runs := runs par |}) p
            (document ds) |},
     Done tt).

Section Writer.

Variable service : list event -> request -> outcome.
Variable translator : OllamaTranslator.

(** Whether the XML of a document takes a character. The library
    refuses the text of an element that holds a control character other
    than a tab, a newline and a carriage return, and a few more, with a
    [ValueError]. *)
Variable xml_char_ok : N -> bool.

(** Whether [add_picture] takes the file at a path: the file is there
    and is an image of a format that the library reads. *)
Variable add_picture_ok : str -> bool.

(** [run.text = text], as the library does it: the characters go to a
    buffer, which is written as a text element at every separator and at
    the end; a separator is written as a tab or as a line break. [stored]
    is what the run holds already and [bfr] the buffer. The result is
    what the run holds in the end and whether every piece was taken: a
    piece with a character that the XML does not take raises, and what
    was stored before it stays. *)
Fixpoint append_to_run (stored bfr text : str) : str * bool :=
  match text with
  | [] =>
      if forallb xml_char_ok bfr then (stored ++ bfr, true) else (stored, false)
  | c :: text' =>
      if run_separator c then
        if forallb xml_char_ok bfr
        then append_to_run (stored ++ bfr ++ [as_read c]) [] text'
        else (stored, false)
      else append_to_run stored (bfr ++ [c]) text'
  end.

(** [paragraph.add_run(text)]: the run is added, then the text is put
    into it, or the call raises and leaves in the run what was written
    before the piece that it does not take. *)
Definition add_run (p : nat) (text : str) : D unit :=
  fun ds =>
    let '(stored, ok) := append_to_run [] [] text in
    ({| base := base ds;
        document := alter (add_runs [text_run stored]) p (document ds) |},
     if ok then Done tt else Failed (ValueError text)).

(** [paragraph.add_run().add_break()]. *)
Definition add_break (p : nat) : D unit := new_run p break_run.

(** [paragraph.add_run().add_picture(img_path)]: the run is added, then
    the picture is put into it, or the call raises and leaves the run
    empty. *)
Definition add_picture (p : nat) (img_path : str) : D unit :=
  if add_picture_ok img_path then new_run p (picture_run img_path)
  else dlet_ new_run p (text_run []); dfail (PictureError img_path).

(** [doc.add_paragraph(text)]: the paragraph is added, then a run with
    the text, when there is text. *)
Definition doc_add_paragraph_text (text : str) : D unit :=
  dlet p <- doc_add_paragraph;
  if Py.truthy text then add_run p text else dret tt.

Definition add_translated_text (p : nat) (text : str) : D unit :=
  if negb (Py.truthy text) then dret tt
  else if negb (Py.truthy (Py.strip text)) then add_run p text
  else
    dlet translated <- in_document (translate_text service translator text);
    if Py.inb translated 0x0A then
      for_each
        (fun '(idx, part) =>
           dlet_ add_run p part;
           if (Z.of_nat idx
               <? Z.of_nat (length (Py.split 0x0A translated)) - 1)%Z
           then add_break p
           else dret tt)
        (enumerate (Py.split 0x0A translated))
    else add_run p translated.

(** [process_table] on the document. The cells of a row are translated
    as in [process_cell] above; the line of a row goes into a new
    paragraph by [doc.add_paragraph(text)], which raises when the
    document does not take the line, and the table ends there. *)
Definition doc_process_row (row : node) : D unit :=
  dlet cells <-
    in_document
      (foldM (process_cell service translator) []
         (find_all [Py.u "td"; Py.u "th"] row));
  match cells with
  | [] => dret tt
  | _ => doc_add_paragraph_text (Py.join (Py.u "\t") cells)
  end.

Definition doc_process_table (tag : node) : D unit :=
  for_each doc_process_row (find_all [Py.u "tr"] tag).

(** One turn of the loop over the segments, in [process_block] and in
    [process_document_item]: a text segment is translated into the
    paragraph; an image segment becomes a picture when its source
    resolves to a key of the image map. *)
Definition add_segment (p : nat) (image_map : gmap str str) (doc_path : str)
    (seg : segment) : D unit :=
  match seg with
  | text_segment value => add_translated_text p value
  | img_segment src =>
      match resolve_image_src src doc_path with
      | None => dret tt
      | Some src =>
          if negb (Py.truthy src) then dret tt
          else
            match image_map !! src with
            | None => dret tt
            | Some img_path =>
                if negb (Py.truthy img_path) then dret tt
                else add_picture p img_path
            end
      end
  end.

Definition HEADING_NAMES : list str :=
  [Py.u "h1"; Py.u "h2"; Py.u "h3"; Py.u "h4"; Py.u "h5"; Py.u "h6"].

(** [process_block] on the tag with the name, attributes and children
    given. *)
Definition process_block (name : str) (attrs : list (str * str))
    (children : list node) (image_map : gmap str str) (doc_path : str)
  : D unit :=
  if Py.eqb name (Py.u "table")
  then doc_process_table (Tag name attrs children)
  else
    dlet p <- doc_add_paragraph;
    dlet_ (if existsb (Py.eqb name) HEADING_NAMES
           then set_style p (Py.u "Heading " ++ drop 1 name)
           else if Py.eqb name (Py.u "li")
           then set_style p (Py.u "List Bullet")
           else dret tt);
    for_each (add_segment p image_map doc_path)
      (extract_inline_segments (Tag name attrs children)).

Definition block_tags : list str :=
  [Py.u "p"; Py.u "div"; Py.u "h1"; Py.u "h2"; Py.u "h3"; Py.u "h4";
   Py.u "h5"; Py.u "h6"; Py.u "li"; Py.u "blockquote"; Py.u "table"].

(** A document of the archive: its name and the children of the [body]
    of its parsed content, [None] when the content has no [body]. *)
Record epub_document := { doc_item : epub_item; body_children : option (list node) }.

(** One turn of the loop of [process_document_item] over the children of
    the body. *)
Definition process_child (image_map : gmap str str) (doc_path : str)
    (child : node) : D unit :=
  match child with
  | NavigableString s =>
      if Py.truthy (Py.strip s) then
        dlet p <- doc_add_paragraph;
        add_translated_text p s
      else dret tt
  | Comment s =>
      if Py.truthy (Py.strip s) then
        dlet p <- doc_add_paragraph;
        add_translated_text p s
      else dret tt
  | PageElement => dret tt
  | Tag name attrs children =>
      if existsb (Py.eqb name) block_tags
      then process_block name attrs children image_map doc_path
      else
        dlet p <- doc_add_paragraph;
        for_each (add_segment p image_map doc_path)
          (extract_inline_segments child)
  end.

Definition process_document_item (item : epub_document)
    (image_map : gmap str str) : D unit :=
  match body_children item with
  | None => dret tt
  | Some children =>
      for_each (process_child image_map (get_name (doc_item item))) children
  end.

End Writer.

(** ** The sections of a book *)

Fixpoint digits (d : Decimal.uint) : str :=
  match d with
  | Decimal.Nil => []
  | Decimal.D0 d' => 0x30%N :: digits d'
  | Decimal.D1 d' => 0x31%N :: digits d'
  | Decimal.D2 d' => 0x32%N :: digits d'
  | Decimal.D3 d' => 0x33%N :: digits d'
  | Decimal.D4 d' => 0x34%N :: digits d'
  | Decimal.D5 d' => 0x35%N :: digits d'
  | Decimal.D6 d' => 0x36%N :: digits d'
  | Decimal.D7 d' => 0x37%N :: digits d'
  | Decimal.D8 d' => 0x38%N :: digits d'
  | Decimal.D9 d' => 0x39%N :: digits d'
  end.

(** [f"{n:02d}"] for an integer that is not negative. *)
Definition format_02d (n : nat) : str :=
  let s := digits (Nat.to_uint n) in
  repeat 0x30%N (2 - length s) ++ s.

(** [f"section_{idx:02d}_of_{total:02d}"] and the extension. *)
Definition section_file (idx total : nat) (ext : str) : str :=
  Py.u "section_" ++ format_02d idx ++ Py.u "_of_" ++ format_02d total ++ ext.

(** What is written to a file: a document, by [section_doc.save], or a
    text. *)
Inductive file_content :=
| docx_content (doc : list paragraph)
| text_content (text : str).

(** A book: its image items and its document items, in the order of
    [book.get_items_of_type]. *)
Record epub_book := { images : list epub_item; documents : list epub_document }.

Section Book.

Variable service : list event -> request -> outcome.
Variable xml_char_ok : N -> bool.
Variable add_picture_ok : str -> bool.

(** [paragraph.text], as the library gives it. *)
Variable paragraph_text : paragraph -> str.

(** Whether [os.makedirs(path, exist_ok=True)] returns. *)
Variable makedirs_ok : str -> bool.

(** Whether the file at a path can be opened for writing. *)
Variable open_ok : str -> bool.

Definition document_to_plain_text (doc : list paragraph) : str :=
  let lines :=
    fold_left
      (fun (lines : list str) paragraph =>
         let text := Py.strip (paragraph_text paragraph) in
         if negb (Py.truthy text) then lines else lines ++ [text])
      doc [] in
  Py.join (Py.u "\n") lines.

(** The loop of [translate_epub_to_docx] over the numbered sections. The
    state of the translator goes from one section to the next; [files]
    are the files written so far, in order. A section that raises, or a
    file that cannot be opened, ends the loop. *)
Fixpoint translate_sections (translator : OllamaTranslator)
    (image_map : gmap str str) (output_dir : str) (total : nat)
    (items : list (nat * epub_document)) (st : state)
    (files : list (str * file_content))
  : state * list (str * file_content) * doc_result unit :=
  match items with
  | [] => (st, files, Done tt)
  | (idx, item) :: items' =>
      match process_document_item service translator xml_char_ok
              add_picture_ok item image_map {| base := st; document := [] |} with
      | (ds, Failed e) => (base ds, files, Failed e)
      | (ds, Done _) =>
          let section_path :=
            posixpath.join output_dir (section_file idx total (Py.u ".docx")) in
          if negb (open_ok section_path)
          then (base ds, files, Failed (OSError section_path))
          else
            let files := files ++ [ (section_path, docx_content (document ds)) ] in
            let section_text_path :=
              posixpath.join output_dir (section_file idx total (Py.u ".txt")) in
            if negb (open_ok section_text_path)
            then (base ds, files, Failed (OSError section_text_path))
            else
              translate_sections translator image_map output_dir total items'
                (base ds)
                (files
                 ++ [ (section_text_path,
                       text_content (document_to_plain_text (document ds))) ])
      end
  end.

(** [translate_epub_to_docx] on the book that [epub.read_epub] gives,
    with the temporary directory that the system gives. Of the image
    files written there only whether they can be opened is modelled. The
    result is the state of the translator, the files written into the
    output directory and how the run ends. *)
Definition translate_epub_to_docx (book : epub_book) (output_dir : str)
    (model url : str) (max_chars retry : Z) (temp_dir : str)
  : state * list (str * file_content) * doc_result unit :=
  let '(translator, st) := OllamaTranslator_init model url max_chars retry in
  if negb (makedirs_ok output_dir) then (st, [], Failed (OSError output_dir))
  else
    match List.find (fun path => negb (open_ok path))
            (image_files (images book) temp_dir) with
    | Some path => (st, [], Failed (OSError path))
    | None =>
        let image_map := build_image_map (images book) temp_dir in
        let doc_items := documents book in
        let total := length doc_items in
        translate_sections translator image_map output_dir total
          (combine (seq 1 total) doc_items) st []
    end.

End Book.

(** ** The vocabulary of the writer *)

(** The text that runs spell: the texts of the text runs, and a newline
    for a break. *)
Definition spelled (rs : list docx_run) : str :=
  flat_map (fun r => match r with
                     | text_run text => text
                     | break_run => Py.u "\n"
                     | picture_run _ => []
                     end) rs.

(** The pictures of runs, in order. *)
Definition pictures_of (rs : list docx_run) : list str :=
  flat_map (fun r => match r with picture_run img_path => [img_path] | _ => [] end) rs.

(** The runs for the lines of a text: a text run for each line and a
    break between two lines. *)
Fixpoint line_runs (parts : list str) : list docx_run :=
  match parts with
  | [] => []
  | [part] => [text_run part]
  | part :: parts' => text_run part :: break_run :: line_runs parts'
  end.

(** The file of the image map for a source in a document, if there is
    one. *)
Definition picture_for (image_map : gmap str str) (doc_path src : str)
  : option str :=
  match resolve_image_src src doc_path with
  | Some resolved =>
      if Py.truthy resolved then
        match image_map !! resolved with
        | Some img_path => if Py.truthy img_path then Some img_path else None
        | None => None
        end
      else None
  | None => None
  end.

(** The style that [process_block] gives to the paragraph of a tag. *)
Definition style_of (name : str) : option str :=
  if existsb (Py.eqb name) HEADING_NAMES
  then Some (Py.u "Heading " ++ drop 1 name)
  else if Py.eqb name (Py.u "li") then Some (Py.u "List Bullet")
  else None.

(** An [add_picture] that takes every file. *)
Definition every_picture_ok (_ : str) : bool := true.

(** A run takes a character: it is a separator, or the XML takes it. *)
Definition writable (xml_char_ok : N -> bool) (c : N) : bool :=
  run_separator c || xml_char_ok c.

(** A text as [run.text] reads it after it was written. *)
Definition read_back (text : str) : str := map as_read text.

(** The characters of XML 1.0, for the examples: tab, newline, carriage
    return, and the code points from U+0020 on that are neither
    surrogates nor U+FFFE or U+FFFF. *)
Definition xml_1_0_char (c : N) : bool :=
  (c =? 0x09)%N || (c =? 0x0A)%N || (c =? 0x0D)%N
  || ((0x20 <=? c)%N && (c <=? 0xD7FF)%N)
  || ((0xE000 <=? c)%N && (c <=? 0xFFFD)%N)
  || ((0x10000 <=? c)%N && (c <=? 0x10FFFF)%N).

(** A text for a paragraph, for the examples: what its runs spell. *)
Definition spelled_text (par : paragraph) : str := spelled (runs par).

(** The paragraphs that [process_document_item] adds for a child of the
    body when nothing raises: one for a string that is not blank, one
    for a tag, and for a table one for each row that has text. *)
Definition paragraphs_for (child : node) : nat :=
  match child with
  | NavigableString s => if Py.truthy (Py.strip s) then 1%nat else 0%nat
  | Comment s => if Py.truthy (Py.strip s) then 1%nat else 0%nat
  | PageElement => 0%nat
  | Tag name _ _ =>
      if Py.eqb name (Py.u "table")
      then length (List.filter has_text (find_all [Py.u "tr"] child))
      else 1%nat
  end.

(** The lines of the plain text of a document: the trimmed texts of its
    paragraphs that are not empty. *)
Definition text_lines (paragraph_text : paragraph -> str) (doc : list paragraph)
  : list str :=
  List.filter Py.truthy (map (fun par => Py.strip (paragraph_text par)) doc).

(** The two files of a section. *)
Definition section_files (paragraph_text : paragraph -> str)
    (output_dir : str) (total idx : nat) (doc : list paragraph)
  : list (str * file_content) :=
  [ (posixpath.join output_dir (section_file idx total (Py.u ".docx")),
     docx_content doc);
    (posixpath.join output_dir (section_file idx total (Py.u ".txt")),
     text_content (document_to_plain_text paragraph_text doc)) ].

Section Sections.

Variable service : list event -> request -> outcome.
Variable translator : OllamaTranslator.
Variable xml_char_ok : N -> bool.
Variable add_picture_ok : str -> bool.
Variable image_map : gmap str str.

(** What [process_document_item] makes of the sections of a book, one
    after the other: each section on a new document, with the translator
    in the state in which the section before left it. *)
Fixpoint section_results (items : list epub_document) (st : state)
  : list (docstate * doc_result unit) :=
  match items with
  | [] => []
  | item :: items' =>
      let r :=
        process_document_item service translator xml_char_ok add_picture_ok
          item image_map {| base := st; document := [] |} in
      r :: section_results items' (base r.1)
  end.

End Sections.

(** The section with the number [idx] is written: [r] is what
    [process_document_item] made of it, it returned, and the two files of
    the section can be opened. *)
Definition section_written (open_ok : str -> bool) (output_dir : str)
    (total idx : nat) (r : docstate * doc_result unit) : Prop :=
  r.2 = Done tt
  /\ open_ok (posixpath.join output_dir (section_file idx total (Py.u ".docx")))
     = true
  /\ open_ok (posixpath.join output_dir (section_file idx total (Py.u ".txt")))
     = true.

(** The section with the number [idx] fails with [e] and leaves the
    files [partial]: [process_document_item] raised [e] and no file is
    left; or it returned and the document cannot be saved, and no file is
    left; or the document is saved and the text cannot be opened, and the
    document is left. *)
Definition section_fails (open_ok : str -> bool) (output_dir : str)
    (total idx : nat) (r : docstate * doc_result unit) (e : doc_exn)
    (partial : list (str * file_content)) : Prop :=
  let section_path :=
    posixpath.join output_dir (section_file idx total (Py.u ".docx")) in
  let section_text_path :=
    posixpath.join output_dir (section_file idx total (Py.u ".txt")) in
  (r.2 = Failed e /\ partial = [])
  \/ (r.2 = Done tt /\ open_ok section_path = false
      /\ e = OSError section_path /\ partial = [])
  \/ (r.2 = Done tt /\ open_ok section_path = true
      /\ open_ok section_text_path = false
      /\ e = OSError section_text_path
      /\ partial = [ (section_path, docx_content (document r.1)) ]).

(** A system on which every directory can be made and every file
    opened, for the examples. *)
Definition every_file_ok (_ : str) : bool := true.

(** [a < b] on strings: the order of the dictionary on code points. *)
Fixpoint str_lt (a b : str) : bool :=
  match a, b with
  | _, [] => false
  | [], _ :: _ => true
  | x :: a', y :: b' => (x <? y)%N || ((x =? y)%N && str_lt a' b')
  end.

(** [k] zeros before a number. *)
Fixpoint zeros (k : nat) (d : Decimal.uint) : Decimal.uint :=
  match k with
  | O => d
  | S k' => Decimal.D0 (zeros k' d)
  end.

(** ** Requests, again *)

(** [r] is a request for the text [t]: to [/api/generate] with [t] in
    the prompt, or to [/api/chat] with [t] as the message of the user. *)
Definition request_for (self : OllamaTranslator) (t : str) (r : request) : Prop :=
  r = generate_request self t \/ r = chat_request self t.

(** What [i] attempts leave in the trace when the service cannot be
    reached: a request and a pause each. *)
Definition failed_attempts (self : OllamaTranslator) (text : str) (i : nat)
  : list event :=
  concat (repeat [Post (generate_request self text); Sleep 1] i).

(** A service that cannot be reached for the first [k] requests and
    then answers with the text. *)
Definition flaky_service (k : nat) (reply : str) (tr : list event)
    (r : request) : outcome :=
  if (length (posts tr) <? k)%nat then Fails else reply_service reply tr r.

(** A service that does not know [/api/generate] and answers on
    [/api/chat]. *)
Definition chat_service (content : str) (_ : list event) (r : request) : outcome :=
  match req_json r with
  | JDict (_ :: (_, JList _) :: _) =>
      Responds
        {| status_code := 200;
           body := Some (JDict [ (Py.u "message",
                                  JDict [ (Py.u "role", JStr (Py.u "assistant"));
                                          (Py.u "content", JStr content) ]) ]) |}
  | _ => Responds {| status_code := 404; body := None |}
  end.

(** Every entry of the cache of [st] is in the cache of [st']. *)
Definition cache_kept (st st' : state) : Prop :=
  forall k v, _cache st !! k = Some v -> _cache st' !! k = Some v.

(** A computation of the writer keeps the entries of the cache. *)
Definition keeps_cache {A} (m : D A) : Prop :=
  forall ds, cache_kept (base ds) (base (m ds).1).

(** A service that answers every request with a good status and a body
    that has a text. *)
Definition healthy (service : list event -> request -> outcome) : Prop :=
  forall tr req,
    exists r data raw,
      service tr req = Responds r
      /\ status_code r <> 404%Z /\ ~ (400 <= status_code r < 600)%Z
      /\ body r = Some data /\ raw_text_of data = Return raw.

(** A document takes a text: a run takes each of its characters. *)
Definition takes (xml_char_ok : N -> bool) (text : str) : Prop :=
  Forall (fun c => writable xml_char_ok c = true) text.

(** A document takes every string below a node. *)
Fixpoint takes_node (xml_char_ok : N -> bool) (n : node) : bool :=
  match n with
  | NavigableString s => forallb (writable xml_char_ok) s
  | Comment s => forallb (writable xml_char_ok) s
  | PageElement => true
  | Tag _ _ children => forallb (takes_node xml_char_ok) children
  end.

(** A document takes every string of the body of a section. *)
Definition takes_item (xml_char_ok : N -> bool) (item : epub_document) : bool :=
  match body_children item with
  | Some children => forallb (takes_node xml_char_ok) children
  | None => true
  end.

(** The texts with which a service answers are texts that a document
    takes. *)
Definition replies_taken (xml_char_ok : N -> bool)
    (service : list event -> request -> outcome) : Prop :=
  forall tr req r data raw,
    service tr req = Responds r -> body r = Some data ->
    raw_text_of data = Return raw -> takes xml_char_ok raw.

(** The translations in the cache are texts that a document takes. *)
Definition cache_taken (xml_char_ok : N -> bool) (st : state) : Prop :=
  forall k v, _cache st !! k = Some v -> takes xml_char_ok v.

(** A computation of the writer returns, or raises the [ValueError] of a
    text that the document does not take. *)
Definition returns_or_refuses {A} (m : D A) : Prop :=
  forall ds,
    (exists a, (m ds).2 = Done a) \/ (exists text, (m ds).2 = Failed (ValueError text)).

(** A computation of the writer goes through: with a cache of texts that
    a document takes it returns, and leaves such a cache. *)
Definition goes_through (xml_char_ok : N -> bool) {A} (m : D A) : Prop :=
  forall ds,
    cache_taken xml_char_ok (base ds) ->
    (exists a, (m ds).2 = Done a) /\ cache_taken xml_char_ok (base (m ds).1).

(** * Properties *)

(** ** Strings *)

Section StringFacts.

Lemma dropwhile_length f s : (length (Py.dropwhile f s) <= length s)%nat.
Proof.
  induction s as [|c s IH]; simpl; [lia|].
  destruct (f c); simpl; lia.
Qed.

Lemma strip_length s : (length (Py.strip s) <= length s)%nat.
Proof.
  unfold Py.strip, Py.rstrip, Py.lstrip, Py.rstrip_by, Py.lstrip_by.
  rewrite length_rev.
  etransitivity; [apply dropwhile_length|].
  rewrite length_rev. apply dropwhile_length.
Qed.

Lemma dropwhile_head f s c s' : Py.dropwhile f s = c :: s' -> f c = false.
Proof.
  induction s as [|a s IH]; simpl; [discriminate|].
  destruct (f a) eqn:E; [exact IH|].
  intros [= -> _]. exact E.
Qed.

Lemma truthy_false (s : str) : Py.truthy s = false <-> s = [].
Proof. destruct s; simpl; split; congruence. Qed.

Lemma truthy_true (s : str) : Py.truthy s = true <-> s <> [].
Proof. destruct s; simpl; split; congruence. Qed.

Lemma eqb_true (s t : str) : Py.eqb s t = true <-> s = t.
Proof. unfold Py.eqb. apply bool_decide_eq_true. Qed.

End StringFacts.

(** ** C1: the response cleaner *)

Section Cleaner.

Lemma clean_lines_filter lines acc :
  fold_left clean_line lines acc =
  acc ++ List.filter (fun l => negb (is_marker_line INFERENCE_PREFIXES l))
           (List.filter Py.truthy (map Py.strip lines)).
Proof.
  revert acc. induction lines as [|line lines IH]; intros acc;
    cbn [fold_left map List.filter].
  - by rewrite app_nil_r.
  - rewrite IH. unfold clean_line.
    change (existsb _ INFERENCE_PREFIXES)
      with (is_marker_line INFERENCE_PREFIXES (Py.strip line)).
    destruct (Py.truthy (Py.strip line)); cbn [negb List.filter]; [|done].
    destruct (is_marker_line INFERENCE_PREFIXES (Py.strip line));
      cbn [negb]; [done|].
    by rewrite <- app_assoc.
Qed.

Lemma search_nil : TRANSLATION_TAG_RE_search [] = None.
Proof. reflexivity. Qed.

Lemma extract_translation_only_stages raw :
  extract_translation_only raw =
  match stage1 raw with
  | Some content => content
  | None => stage2 INFERENCE_PREFIXES raw
  end.
Proof.
  unfold extract_translation_only, stage1, stage2.
  destruct raw as [|c raw]; [reflexivity|].
  cbn [Py.truthy negb].
  destruct (TRANSLATION_TAG_RE_search (c :: raw)) as [content|].
  - destruct (Py.truthy (Py.strip content)); [done|].
    by rewrite clean_lines_filter.
  - cbn [Py.truthy]. by rewrite clean_lines_filter.
Qed.

Lemma cleaned_or_text_protocol raw text :
  cleaned_or_text raw text = three_stage_protocol INFERENCE_PREFIXES raw text.
Proof.
  unfold cleaned_or_text, three_stage_protocol.
  rewrite extract_translation_only_stages.
  by destruct (match stage1 raw with Some _ => _ | None => _ end).
Qed.

Lemma cleaned_or_text_nonempty raw text :
  text <> [] -> cleaned_or_text raw text <> [].
Proof.
  unfold cleaned_or_text. intros Ht.
  destruct (extract_translation_only raw); simpl; [done|discriminate].
Qed.

End Cleaner.

(** ** Whitespace and trimming *)

Section Trimming.

Lemma dropwhile_app_all f a b :
  forallb f a = true -> Py.dropwhile f (a ++ b) = Py.dropwhile f b.
Proof.
  induction a as [|c a IH]; simpl; [done|].
  destruct (f c); simpl; [exact IH|discriminate].
Qed.

Lemma dropwhile_app_stop f a b :
  forallb f a = false -> Py.dropwhile f (a ++ b) = Py.dropwhile f a ++ b.
Proof.
  induction a as [|c a IH]; simpl; [discriminate|].
  destruct (f c); simpl; [exact IH|done].
Qed.

Lemma dropwhile_nil f a : Py.dropwhile f a = [] <-> forallb f a = true.
Proof.
  induction a as [|c a IH]; simpl; [done|].
  destruct (f c); simpl; [exact IH|]. split; discriminate.
Qed.

Lemma dropwhile_fix f a :
  match a with [] => True | c :: _ => f c = false end -> Py.dropwhile f a = a.
Proof. destruct a as [|c a]; simpl; [done|]. by intros ->. Qed.

Lemma dropwhile_stops f a : forallb f (Py.dropwhile f a) = forallb f a.
Proof.
  induction a as [|c a IH]; simpl; [done|].
  destruct (f c) eqn:E; simpl; [exact IH|]. by rewrite E.
Qed.

Lemma forallb_rev {A} (f : A -> bool) (l : list A) : forallb f (rev l) = forallb f l.
Proof.
  induction l as [|x l IH]; simpl; [done|].
  rewrite forallb_app, IH. simpl. rewrite andb_true_r. apply andb_comm.
Qed.

Lemma blank_app a b : blank (a ++ b) = blank a && blank b.
Proof. apply forallb_app. Qed.

Lemma lstrip_blank a b : blank a = true -> Py.lstrip (a ++ b) = Py.lstrip b.
Proof. apply dropwhile_app_all. Qed.

Lemma lstrip_nonblank a b : blank a = false -> Py.lstrip (a ++ b) = Py.lstrip a ++ b.
Proof. apply dropwhile_app_stop. Qed.

Lemma rstrip_blank a b : blank b = true -> Py.rstrip (a ++ b) = Py.rstrip a.
Proof.
  intros Hb. unfold Py.rstrip, Py.rstrip_by. rewrite rev_app_distr.
  rewrite dropwhile_app_all; [done|]. by rewrite forallb_rev.
Qed.

Lemma rstrip_nonblank a b : blank b = false -> Py.rstrip (a ++ b) = a ++ Py.rstrip b.
Proof.
  intros Hb. unfold Py.rstrip, Py.rstrip_by. rewrite rev_app_distr.
  rewrite dropwhile_app_stop by (by rewrite forallb_rev).
  by rewrite rev_app_distr, rev_involutive.
Qed.

Lemma blank_lstrip a : blank (Py.lstrip a) = blank a.
Proof. apply dropwhile_stops. Qed.

Lemma blank_rstrip a : blank (Py.rstrip a) = blank a.
Proof.
  unfold Py.rstrip, Py.rstrip_by, blank.
  by rewrite forallb_rev, dropwhile_stops, forallb_rev.
Qed.

Lemma blank_strip a : blank (Py.strip a) = blank a.
Proof. unfold Py.strip. by rewrite blank_rstrip, blank_lstrip. Qed.

Lemma lstrip_nil a : Py.lstrip a = [] <-> blank a = true.
Proof. apply dropwhile_nil. Qed.

Lemma rstrip_nil a : Py.rstrip a = [] <-> blank a = true.
Proof.
  unfold Py.rstrip, Py.rstrip_by. split.
  - intros H. apply (f_equal (@rev N)) in H. rewrite rev_involutive in H.
    apply dropwhile_nil in H. rewrite forallb_rev in H. exact H.
  - intros H. unfold blank in H. rewrite <- forallb_rev in H.
    apply dropwhile_nil in H. by rewrite H.
Qed.

Lemma strip_nil a : Py.strip a = [] <-> blank a = true.
Proof. unfold Py.strip. by rewrite rstrip_nil, blank_lstrip. Qed.

Lemma strip_blank a : blank a = true -> Py.strip a = [].
Proof. apply strip_nil. Qed.

Lemma blank_nonempty a : blank a = false -> a <> [].
Proof. by intros H ->. Qed.

Lemma lstrip_lstrip a : Py.lstrip (Py.lstrip a) = Py.lstrip a.
Proof.
  unfold Py.lstrip, Py.lstrip_by. apply dropwhile_fix.
  destruct (Py.dropwhile Py.isspace a) eqn:E; [done|].
  by apply dropwhile_head in E.
Qed.

Lemma rstrip_rstrip a : Py.rstrip (Py.rstrip a) = Py.rstrip a.
Proof.
  unfold Py.rstrip, Py.rstrip_by. rewrite rev_involutive.
  f_equal. apply (lstrip_lstrip (rev a)).
Qed.

Lemma rstrip_strip a : Py.rstrip (Py.strip a) = Py.strip a.
Proof. apply rstrip_rstrip. Qed.

(** Trimming on the right keeps a string that is trimmed on the left so. *)
Lemma lstrip_rstrip_fix a : Py.lstrip a = a -> Py.lstrip (Py.rstrip a) = Py.rstrip a.
Proof.
  intros Ha. destruct (blank a) eqn:Hb.
  - apply rstrip_nil in Hb. by rewrite Hb.
  - destruct a as [|c a]; [done|].
    assert (Hc : Py.isspace c = false).
    { unfold Py.lstrip, Py.lstrip_by in Ha. by apply dropwhile_head in Ha. }
    destruct (blank a) eqn:Hba.
    + change (c :: a) with ([c] ++ a). rewrite rstrip_blank by done.
      assert (Py.rstrip [c] = [c]) as ->.
      { unfold Py.rstrip, Py.rstrip_by. simpl. by rewrite Hc. }
      unfold Py.lstrip, Py.lstrip_by. simpl. by rewrite Hc.
    + change (c :: a) with ([c] ++ a). rewrite rstrip_nonblank by done.
      unfold Py.lstrip, Py.lstrip_by. simpl. by rewrite Hc.
Qed.

Lemma lstrip_strip a : Py.lstrip (Py.strip a) = Py.strip a.
Proof. unfold Py.strip. apply lstrip_rstrip_fix, lstrip_lstrip. Qed.

Lemma strip_strip a : Py.strip (Py.strip a) = Py.strip a.
Proof.
  unfold Py.strip at 1. by rewrite lstrip_strip, rstrip_strip.
Qed.

Lemma strip_app_blank_r a b : blank b = true -> Py.strip (a ++ b) = Py.strip a.
Proof.
  intros Hb. unfold Py.strip. destruct (blank a) eqn:Ha.
  - rewrite lstrip_blank by done.
    assert (Py.lstrip b = []) as -> by by apply lstrip_nil.
    assert (Py.lstrip a = []) as -> by by apply lstrip_nil.
    done.
  - rewrite lstrip_nonblank by done. by apply rstrip_blank.
Qed.

Lemma strip_app_blank_l a b : blank a = true -> Py.strip (a ++ b) = Py.strip b.
Proof. intros Ha. unfold Py.strip. by rewrite lstrip_blank. Qed.

Lemma strip_app_nonblank a m b :
  blank a = false -> blank b = false ->
  Py.strip (a ++ m ++ b) = Py.lstrip a ++ m ++ Py.rstrip b.
Proof.
  intros Ha Hb. unfold Py.strip. rewrite lstrip_nonblank by done.
  rewrite (app_assoc (Py.lstrip a)), rstrip_nonblank by done.
  by rewrite <- app_assoc.
Qed.

Lemma squash_app a b : squash (a ++ b) = squash a ++ squash b.
Proof. apply List.filter_app. Qed.

Lemma squash_blank a : blank a = true -> squash a = [].
Proof.
  induction a as [|c a IH]; simpl; [done|].
  destruct (Py.isspace c); simpl; [exact IH|discriminate].
Qed.

Lemma squash_dropwhile a : squash (Py.dropwhile Py.isspace a) = squash a.
Proof.
  induction a as [|c a IH]; simpl; [done|].
  destruct (Py.isspace c) eqn:E; simpl; [exact IH|]. by rewrite E.
Qed.

Lemma squash_rev a : squash (rev a) = rev (squash a).
Proof.
  unfold squash. induction a as [|c a IH]; simpl; [done|].
  rewrite List.filter_app, IH. simpl. destruct (Py.isspace c); simpl; [apply app_nil_r|done].
Qed.

Lemma squash_strip a : squash (Py.strip a) = squash a.
Proof.
  unfold Py.strip, Py.rstrip, Py.lstrip, Py.rstrip_by, Py.lstrip_by.
  by rewrite squash_rev, squash_dropwhile, squash_rev, rev_involutive,
    squash_dropwhile.
Qed.

Lemma squash_nil_blank a : squash a = [] -> blank a = true.
Proof.
  induction a as [|c a IH]; simpl; [done|].
  destruct (Py.isspace c); simpl; [exact IH|discriminate].
Qed.

End Trimming.

(** ** C4, C5: the chunk splitter *)

Section Splitter.

Lemma split_text_fold text max_chars :
  split_text text max_chars =
  flush (fold_left (split_text_step max_chars) (SENTENCE_SPLIT_RE_split text) ([], [])).
Proof.
  unfold split_text, flush.
  by destruct (fold_left _ _ _).
Qed.

Lemma len_app a b : len (a ++ b) = (len a + len b)%Z.
Proof. unfold len. rewrite length_app. lia. Qed.

Lemma len_strip a : (len (Py.strip a) <= len a)%Z.
Proof. unfold len. pose proof (strip_length a). lia. Qed.

(** *** The budget *)

Lemma split_text_step_budget max_chars parts chunks buf part :
  In part parts ->
  Forall (within_budget max_chars parts) chunks ->
  (buf = [] \/ within_budget max_chars parts buf) ->
  Forall (within_budget max_chars parts)
    (fst (split_text_step max_chars (chunks, buf) part))
  /\ (snd (split_text_step max_chars (chunks, buf) part) = []
      \/ within_budget max_chars parts
           (snd (split_text_step max_chars (chunks, buf) part))).
Proof.
  intros Hin Hch Hbuf. unfold split_text_step.
  destruct (Py.truthy part) eqn:Hp; cbn [negb]; [|done].
  destruct (len buf + len part + 1 <=? max_chars)%Z eqn:Hfit; cbn [fst snd].
  - split; [done|]. right. left.
    apply Z.leb_le in Hfit.
    pose proof (len_strip (buf ++ Py.u " " ++ part)) as Hs.
    rewrite !len_app in Hs. change (len (Py.u " ")) with 1%Z in Hs. lia.
  - split.
    + destruct (Py.truthy buf) eqn:Hb; [|done].
      apply Forall_app. split; [done|].
      constructor; [|done].
      destruct Hbuf as [->|Hbuf]; [discriminate|done].
    + right. unfold within_budget.
      destruct (Z_le_gt_dec (len part) max_chars); [by left|right].
      split; [lia|done].
Qed.

Lemma split_text_fold_budget max_chars parts l chunks buf :
  incl l parts ->
  Forall (within_budget max_chars parts) chunks ->
  (buf = [] \/ within_budget max_chars parts buf) ->
  Forall (within_budget max_chars parts)
    (flush (fold_left (split_text_step max_chars) l (chunks, buf))).
Proof.
  revert chunks buf. induction l as [|part l IH]; intros chunks buf Hl Hch Hbuf.
  - cbn [fold_left flush].
    destruct (Py.truthy buf) eqn:Hb; [|done].
    apply Forall_app. split; [done|]. constructor; [|done].
    destruct Hbuf as [->|Hbuf]; [discriminate|done].
  - cbn [fold_left].
    destruct (split_text_step_budget max_chars parts chunks buf part)
      as [H1 H2]; [apply Hl; by left|done|done|].
    destruct (split_text_step max_chars (chunks, buf) part) as [chunks' buf'].
    apply IH; [|done|done].
    intros x Hx. apply Hl. by right.
Qed.

Lemma split_text_budget text max_chars :
  Forall (within_budget max_chars (SENTENCE_SPLIT_RE_split text))
    (split_text text max_chars).
Proof.
  rewrite split_text_fold.
  apply split_text_fold_budget; [by intros x|done|by left].
Qed.

(** *** Nothing but whitespace is dropped *)

Lemma SENTENCE_SPLIT_RE_split_squash in_sep after_term s :
  squash (concat (SENTENCE_SPLIT_RE_split_from in_sep after_term s)) = squash s.
Proof.
  revert in_sep after_term.
  induction s as [|c s IH]; intros in_sep after_term; [done|].
  cbn [SENTENCE_SPLIT_RE_split_from].
  destruct (Py.isspace c && (in_sep || after_term)) eqn:E.
  - apply andb_true_iff in E as [Hc _].
    assert (squash (c :: s) = squash s) as ->.
    { unfold squash. cbn [List.filter]. by rewrite Hc. }
    destruct in_sep; [apply IH|]. cbn [concat app]. apply IH.
  - specialize (IH false (SENTENCE_TERMINATOR c)).
    destruct (SENTENCE_SPLIT_RE_split_from false (SENTENCE_TERMINATOR c) s)
      as [|p ps]; unfold squash in *; cbn [concat app List.filter] in *;
      rewrite <- IH; done.
Qed.

Lemma split_text_step_squash max_chars chunks buf part :
  squash (concat (fst (split_text_step max_chars (chunks, buf) part))
          ++ snd (split_text_step max_chars (chunks, buf) part))
  = squash (concat chunks ++ buf) ++ squash part.
Proof.
  unfold split_text_step.
  destruct (Py.truthy part) eqn:Hp; cbn [negb fst snd].
  2:{ apply truthy_false in Hp as ->. by rewrite app_nil_r. }
  destruct (len buf + len part + 1 <=? max_chars)%Z; cbn [fst snd].
  - rewrite !squash_app, squash_strip, !squash_app.
    change (squash (Py.u " ")) with (@nil N). by rewrite <- app_assoc.
  - destruct (Py.truthy buf) eqn:Hb.
    + by rewrite concat_app, !squash_app; cbn [concat]; rewrite app_nil_r.
    + apply truthy_false in Hb as ->. by rewrite app_nil_r, squash_app.
Qed.

Lemma split_text_fold_squash max_chars l chunks buf :
  squash (concat (flush (fold_left (split_text_step max_chars) l (chunks, buf))))
  = squash (concat chunks ++ buf) ++ squash (concat l).
Proof.
  revert chunks buf. induction l as [|part l IH]; intros chunks buf.
  - cbn [fold_left flush concat]. rewrite app_nil_r.
    destruct (Py.truthy buf) eqn:Hb.
    + by rewrite concat_app; cbn [concat]; rewrite app_nil_r.
    + apply truthy_false in Hb as ->. by rewrite app_nil_r.
  - cbn [fold_left concat].
    pose proof (split_text_step_squash max_chars chunks buf part) as Hs.
    destruct (split_text_step max_chars (chunks, buf) part) as [chunks' buf'].
    cbn [fst snd] in Hs. by rewrite IH, Hs, (squash_app part), <- app_assoc.
Qed.

Lemma split_text_squash text max_chars :
  squash (concat (split_text text max_chars)) = squash text.
Proof.
  rewrite split_text_fold, split_text_fold_squash.
  apply SENTENCE_SPLIT_RE_split_squash.
Qed.

End Splitter.

(** *** The sentences and their groups *)

Section Grouping.

Lemma terminator_not_space t : SENTENCE_TERMINATOR t = true -> Py.isspace t = false.
Proof.
  unfold SENTENCE_TERMINATOR. rewrite !orb_true_iff, !N.eqb_eq.
  intuition subst; reflexivity.
Qed.

Lemma ends_term_cons c p : ends_term p -> ends_term (c :: p).
Proof. intros (p' & t & -> & Ht). by exists (c :: p'), t. Qed.

Lemma ends_term_clean p : ends_term p -> Py.rstrip p = p /\ blank p = false.
Proof.
  intros (p' & t & -> & Ht). apply terminator_not_space in Ht.
  assert (Hb : blank [t] = false) by (cbn; by rewrite Ht).
  split.
  - rewrite rstrip_nonblank by done. f_equal.
    unfold Py.rstrip, Py.rstrip_by. cbn. by rewrite Ht.
  - by rewrite blank_app, Hb, andb_false_r.
Qed.

Lemma parts_wf_weaken b l : parts_wf false l -> parts_wf b l.
Proof.
  destruct l as [|p [|q l]]; cbn; [done..|].
  intros ([H|[_ [=]]] & ? & ?). by split; [left|].
Qed.

Lemma parts_wf_tail b p l : parts_wf b (p :: l) -> parts_wf false l.
Proof. destruct l as [|q l]; cbn; [done|]. by intros (_ & _ & ?). Qed.

Lemma SENTENCE_SPLIT_RE_split_wf s : forall in_sep after_term,
  SENTENCE_SPLIT_RE_split_from in_sep after_term s <> []
  /\ parts_wf after_term (SENTENCE_SPLIT_RE_split_from in_sep after_term s)
  /\ (in_sep = true ->
      match SENTENCE_SPLIT_RE_split_from in_sep after_term s with
      | p :: _ => Py.lstrip p = p
      | [] => True
      end).
Proof.
  induction s as [|c s IH]; intros in_sep after_term; [done|].
  cbn [SENTENCE_SPLIT_RE_split_from].
  destruct (Py.isspace c && (in_sep || after_term)) eqn:E.
  - destruct in_sep.
    + destruct (IH true false) as (Hne & Hwf & Hl).
      split; [done|]. split; [by apply parts_wf_weaken|done].
    + destruct (IH true false) as (Hne & Hwf & Hl).
      apply andb_true_iff in E as [_ E]. cbn in E.
      destruct (SENTENCE_SPLIT_RE_split_from true false s) as [|q l]; [done|].
      split; [done|]. split; [|done].
      cbn [parts_wf]. split; [by right|]. split; [by apply Hl|done].
  - destruct (IH false (SENTENCE_TERMINATOR c)) as (Hne & Hwf & _).
    destruct (SENTENCE_SPLIT_RE_split_from false (SENTENCE_TERMINATOR c) s)
      as [|p ps]; [done|].
    split; [done|]. split.
    + destruct ps as [|q ps]; [done|].
      cbn [parts_wf] in *. destruct Hwf as (Hp & Hq & Hps).
      split; [|done]. left. destruct Hp as [Hp|[-> Hc]].
      * by apply ends_term_cons.
      * by exists [], c.
    + intros ->. cbn in E. rewrite andb_true_r in E.
      unfold Py.lstrip, Py.lstrip_by. cbn. by rewrite E.
Qed.

Lemma join_snoc sep g x :
  g <> [] -> Py.join sep (g ++ [x]) = Py.join sep g ++ sep ++ x.
Proof.
  induction g as [|a g IH]; [done|]. intros _.
  destruct g as [|b g]; [done|].
  change (Py.join sep ((a :: b :: g) ++ [x]))
    with (a ++ sep ++ Py.join sep ((b :: g) ++ [x])).
  rewrite IH by done.
  change (Py.join sep (a :: b :: g)) with (a ++ sep ++ Py.join sep (b :: g)).
  by rewrite <- !app_assoc.
Qed.

Lemma join_nonblank sep g :
  Forall (fun s => blank s = false) g -> g <> [] -> blank (Py.join sep g) = false.
Proof.
  intros Hg Hne. destruct g as [|a g]; [done|].
  apply Forall_cons in Hg as [Ha _].
  destruct g as [|b g]; [done|].
  change (Py.join sep (a :: b :: g)) with (a ++ sep ++ Py.join sep (b :: g)).
  by rewrite blank_app, Ha.
Qed.

Lemma chunk_of_nil g :
  Forall (fun s => blank s = false) g -> chunk_of [] g -> g = [].
Proof.
  intros Hg Hc. destruct g as [|a g]; [done|].
  pose proof (join_nonblank (Py.u " ") (a :: g) Hg) as Hb.
  unfold chunk_of in Hc. rewrite <- Hc in Hb. by specialize (Hb ltac:(done)).
Qed.

Lemma rstrip_lstrip_fix a : Py.rstrip a = a -> Py.rstrip (Py.lstrip a) = Py.lstrip a.
Proof.
  intros Ha. destruct (blank a) eqn:Hb.
  - apply lstrip_nil in Hb. by rewrite Hb.
  - assert (exists ws, a = ws ++ Py.lstrip a) as [ws Hws].
    { clear. unfold Py.lstrip, Py.lstrip_by.
      induction a as [|c a [ws IH]]; [by exists []|].
      cbn. destruct (Py.isspace c); [|by exists []].
      exists (c :: ws). cbn. by f_equal. }
    rewrite Hws in Ha at 1.
    rewrite rstrip_nonblank in Ha by by rewrite blank_lstrip.
    rewrite Hws in Ha at 2. by apply app_inv_head in Ha.
Qed.

End Grouping.

Section Packing.

Variable max_chars : Z.

Lemma sentences_of_cons_blank p l :
  blank p = true -> sentences_of (p :: l) = sentences_of l.
Proof.
  intros Hb. unfold sentences_of. cbn [map List.filter].
  by rewrite (strip_blank p Hb).
Qed.

Lemma sentences_of_cons_nonblank p l :
  blank p = false -> sentences_of (p :: l) = Py.strip p :: sentences_of l.
Proof.
  intros Hb. unfold sentences_of. cbn [map List.filter].
  assert (Py.truthy (Py.strip p) = true) as ->; [|done].
  apply truthy_true. intros H. apply strip_nil in H. congruence.
Qed.

(** The buffer after a sentence has been added to it. *)
Lemma chunk_of_add buf g p :
  chunk_of buf g -> Forall nonblank g -> blank p = false ->
  (g <> [] -> Py.lstrip p = p) -> Py.rstrip buf = buf ->
  chunk_of (Py.strip (buf ++ Py.u " " ++ p)) (g ++ [Py.strip p]).
Proof.
  intros Hc Hg Hp Hlp Hrb. unfold chunk_of in *. rewrite strip_strip.
  destruct g as [|a g].
  - cbn [app Py.join] in *. apply strip_nil in Hc.
    rewrite strip_app_blank_l by done. by rewrite strip_app_blank_l.
  - assert (Hbuf : blank buf = false).
    { rewrite <- blank_strip, Hc. by apply join_nonblank. }
    rewrite strip_app_nonblank by done.
    rewrite join_snoc by done. rewrite <- Hc.
    unfold Py.strip. rewrite (rstrip_lstrip_fix buf Hrb).
    by rewrite (Hlp ltac:(done)).
Qed.

Lemma chunk_of_add_blank buf g p :
  chunk_of buf g -> blank p = true ->
  chunk_of (Py.strip (buf ++ Py.u " " ++ p)) g.
Proof.
  intros Hc Hp. unfold chunk_of in *. rewrite strip_strip.
  rewrite strip_app_blank_r; [done|]. by rewrite blank_app, Hp.
Qed.

Lemma pack_groups l : forall chunks buf groups g,
  parts_wf false l ->
  Forall2 chunk_of chunks groups ->
  chunk_of buf g ->
  Forall nonblank g ->
  (g <> [] -> match l with q :: _ => Py.lstrip q = q | [] => True end) ->
  (l <> [] -> Py.rstrip buf = buf) ->
  exists groups',
    Forall2 chunk_of
      (flush (fold_left (split_text_step max_chars) l (chunks, buf))) groups'
    /\ concat groups' = concat groups ++ g ++ sentences_of l.
Proof.
  induction l as [|p l IH]; intros chunks buf groups g Hwf Hch Hbuf Hg Hhd Hrb.
  - cbn [fold_left flush]. destruct (Py.truthy buf) eqn:Hb.
    + exists (groups ++ [g]). split.
      * apply Forall2_app; [done|]. by constructor.
      * rewrite concat_app. cbn. by rewrite !app_nil_r.
    + apply truthy_false in Hb as ->.
      apply chunk_of_nil in Hbuf as ->; [|done].
      exists groups. split; [done|]. cbn. by rewrite app_nil_r.
  - assert (Hwf' : parts_wf false l) by by eapply parts_wf_tail.
    assert (Hl : l <> [] -> ends_term p /\
                   match l with q :: _ => Py.lstrip q = q | [] => True end).
    { destruct l as [|q l]; [done|]. intros _.
      cbn [parts_wf] in Hwf. destruct Hwf as ([H|[_ [=]]] & ? & _). done. }
    cbn [fold_left]. unfold split_text_step at 2.
    destruct (Py.truthy p) eqn:Hp; cbn [negb].
    2:{ apply truthy_false in Hp as ->.
        rewrite sentences_of_cons_blank by done.
        apply IH; [done..| |].
        - intros _. destruct l as [|q l]; [done|].
          by destruct (Hl ltac:(done)) as [_ ?].
        - intros Hne. destruct (Hl Hne) as [Ht _].
          apply ends_term_clean in Ht as [_ Ht]. discriminate. }
    destruct (len buf + len p + 1 <=? max_chars)%Z.
    + destruct (blank p) eqn:Hbp.
      * rewrite sentences_of_cons_blank by done.
        apply IH; [done|done|by apply chunk_of_add_blank|done| |].
        -- intros _. destruct l as [|q l]; [done|].
           by destruct (Hl ltac:(done)) as [_ ?].
        -- intros _. apply rstrip_strip.
      * rewrite sentences_of_cons_nonblank by done.
        destruct (IH chunks (Py.strip (buf ++ Py.u " " ++ p)) groups
                    (g ++ [Py.strip p])) as (groups' & H1 & H2);
          [done|done| | | | |].
        -- apply chunk_of_add; [done..| |]; [exact Hhd|by apply Hrb].
        -- apply Forall_app. split; [done|]. constructor; [|done].
           unfold nonblank. by rewrite blank_strip.
        -- intros _. destruct l as [|q l]; [done|].
           by destruct (Hl ltac:(done)) as [_ ?].
        -- intros _. apply rstrip_strip.
        -- exists groups'. split; [done|]. rewrite H2.
           by rewrite <- !app_assoc.
    + set (g' := if blank p then [] else [Py.strip p]).
      assert (Hg' : chunk_of p g' /\ Forall nonblank g'
                    /\ sentences_of (p :: l) = g' ++ sentences_of l).
      { unfold g'. destruct (blank p) eqn:Hbp.
        - split; [by apply strip_blank|]. split; [done|].
          by apply sentences_of_cons_blank.
        - split; [done|]. split.
          + constructor; [|done]. unfold nonblank. by rewrite blank_strip.
          + by apply sentences_of_cons_nonblank. }
      destruct Hg' as (Hc' & Hn' & ->).
      assert (Hnext : g' <> [] ->
                match l with q :: _ => Py.lstrip q = q | [] => True end).
      { intros _. destruct l as [|q l]; [done|].
        by destruct (Hl ltac:(done)) as [_ ?]. }
      assert (Hrp : l <> [] -> Py.rstrip p = p).
      { intros Hne. destruct (Hl Hne) as [Ht _].
        by apply ends_term_clean in Ht as [? _]. }
      destruct (Py.truthy buf) eqn:Hb.
      * destruct (IH (chunks ++ [buf]) p (groups ++ [g]) g')
          as (groups' & H1 & H2); [done| |done..|].
        { apply Forall2_app; [done|]. by constructor. }
        exists groups'. split; [done|]. rewrite H2, concat_app. cbn.
        by rewrite app_nil_r, <- !app_assoc.
      * apply truthy_false in Hb as ->.
        apply chunk_of_nil in Hbuf as ->; [|done].
        destruct (IH chunks p groups g') as (groups' & H1 & H2); [done..|].
        exists groups'. by split.
Qed.

Lemma split_text_groups text :
  exists groups,
    Forall2 chunk_of (split_text text max_chars) groups
    /\ concat groups = sentences text.
Proof.
  rewrite split_text_fold.
  destruct (pack_groups (SENTENCE_SPLIT_RE_split text) [] [] [] [])
    as (groups & H1 & H2); [|done..|by exists groups].
  apply (SENTENCE_SPLIT_RE_split_wf text false false).
Qed.

End Packing.

(** *** The chunks joined by single spaces *)

Section Spacing.

Variable max_chars : Z.

Lemma lstrip_fix_nonblank p : Py.lstrip p = p -> p <> [] -> nonblank p.
Proof.
  intros Hl Hne. destruct p as [|c p]; [done|].
  unfold Py.lstrip, Py.lstrip_by in Hl. apply dropwhile_head in Hl.
  unfold nonblank, blank. cbn. by rewrite Hl.
Qed.

Lemma strip_nonempty_nonblank s : Py.strip s <> [] -> nonblank (Py.strip s).
Proof.
  intros Hne. unfold nonblank. destruct (blank (Py.strip s)) eqn:E; [|done].
  rewrite blank_strip in E. by apply strip_nil in E.
Qed.

Lemma inner_clean_snoc cs b :
  inner_clean (cs ++ [b])
  <-> inner_clean cs
      /\ match last cs with Some c => pair_clean c b | None => True end.
Proof.
  induction cs as [|c1 cs IH]; [done|].
  destruct cs as [|c2 cs].
  - cbn. tauto.
  - change (inner_clean ((c1 :: c2 :: cs) ++ [b]))
      with (pair_clean c1 c2 /\ inner_clean ((c2 :: cs) ++ [b])).
    change (inner_clean (c1 :: c2 :: cs))
      with (pair_clean c1 c2 /\ inner_clean (c2 :: cs)).
    change (last (c1 :: c2 :: cs)) with (last (c2 :: cs)).
    rewrite IH. tauto.
Qed.

Lemma clean_state_flush chunks buf :
  clean_state chunks buf -> buf <> [] ->
  Py.rstrip buf = buf -> nonblank buf ->
  inner_clean (chunks ++ [buf])
  /\ forall p, Py.lstrip p = p -> clean_state (chunks ++ [buf]) p.
Proof.
  intros [Hin Hlast] Hne Hr Hb.
  assert (Hsnoc : inner_clean (chunks ++ [buf])).
  { apply inner_clean_snoc. split; [done|].
    destruct (last chunks) as [c|] eqn:Hl; [|done].
    destruct (Hlast c eq_refl) as (? & ? & ? & ?). by repeat split. }
  split; [done|]. intros p Hp. split; [done|].
  intros c Hc. rewrite last_snoc in Hc. injection Hc as <-.
  repeat split; [done..|]. by apply lstrip_fix_nonblank.
Qed.

Lemma pack_clean l : forall chunks buf,
  parts_wf false l ->
  clean_state chunks buf ->
  (buf <> [] \/ chunks <> [] ->
   match l with q :: _ => Py.lstrip q = q | [] => True end) ->
  (l <> [] -> Py.rstrip buf = buf /\ (buf <> [] -> nonblank buf)) ->
  inner_clean (flush (fold_left (split_text_step max_chars) l (chunks, buf))).
Proof.
  induction l as [|p l IH]; intros chunks buf Hwf Hst Hhd Hrb.
  - cbn [fold_left flush]. destruct (Py.truthy buf) eqn:Hb; [|by destruct Hst].
    apply truthy_true in Hb. destruct Hst as [Hin Hlast].
    apply inner_clean_snoc. split; [done|].
    destruct (last chunks) as [c|] eqn:Hl; [|done].
    destruct (Hlast c eq_refl) as (? & ? & ? & Hn). repeat split; [done..|].
    by apply Hn.
  - assert (Hwf' : parts_wf false l) by by eapply parts_wf_tail.
    assert (Hl : l <> [] -> ends_term p /\
                   match l with q :: _ => Py.lstrip q = q | [] => True end).
    { destruct l as [|q l]; [done|]. intros _.
      cbn [parts_wf] in Hwf. destruct Hwf as ([H|[_ [=]]] & ? & _). done. }
    assert (Hnext : forall (any : Prop), any ->
               match l with q :: _ => Py.lstrip q = q | [] => True end).
    { intros _ _. destruct l as [|q l]; [done|].
      by destruct (Hl ltac:(done)) as [_ ?]. }
    cbn [fold_left]. unfold split_text_step at 2.
    destruct (Py.truthy p) eqn:Hp; cbn [negb].
    2:{ apply truthy_false in Hp as ->. apply IH; [done|done|by apply Hnext|].
        intros Hne. destruct (Hl Hne) as [Ht _].
        apply ends_term_clean in Ht as [_ Ht]. discriminate. }
    apply truthy_true in Hp.
    destruct (len buf + len p + 1 <=? max_chars)%Z.
    + apply IH; [done| |by apply Hnext|].
      * destruct Hst as [Hin Hlast]. split; [done|].
        intros c Hc. destruct (Hlast c Hc) as (? & ? & _ & _).
        repeat split; [done|done|apply lstrip_strip|apply strip_nonempty_nonblank].
      * intros _. split; [apply rstrip_strip|apply strip_nonempty_nonblank].
    + assert (Hrp : l <> [] -> Py.rstrip p = p /\ (p <> [] -> nonblank p)).
      { intros Hne. destruct (Hl Hne) as [Ht _].
        by apply ends_term_clean in Ht as [? ?]. }
      destruct (Py.truthy buf) eqn:Hb.
      * apply truthy_true in Hb.
        destruct (Hrb ltac:(done)) as [Hr Hn].
        destruct (clean_state_flush chunks buf Hst Hb Hr (Hn Hb)) as [_ Hcs].
        apply IH; [done| |by apply Hnext|done].
        apply Hcs. apply Hhd. by left.
      * apply truthy_false in Hb as ->.
        apply IH; [done| |by apply Hnext|done].
        destruct Hst as [Hin Hlast]. split; [done|].
        intros c Hc. destruct (Hlast c Hc) as (? & ? & _ & _).
        assert (Hlp : Py.lstrip p = p).
        { apply Hhd. right. intros ->. discriminate. }
        repeat split; [done..|]. intros _. by apply lstrip_fix_nonblank.
Qed.

Lemma split_text_inner_clean text :
  inner_clean (split_text text max_chars).
Proof.
  rewrite split_text_fold. apply pack_clean.
  - apply (SENTENCE_SPLIT_RE_split_wf text false false).
  - split; [done|]. by intros c [=].
  - by intros [?|?].
  - by intros _.
Qed.

Lemma join_cons sep x y l :
  Py.join sep (x :: y :: l) = x ++ sep ++ Py.join sep (y :: l).
Proof. reflexivity. Qed.

Lemma join_app sep a b :
  a <> [] -> b <> [] ->
  Py.join sep (a ++ b) = Py.join sep a ++ sep ++ Py.join sep b.
Proof.
  intros Ha Hb. induction a as [|x a IH]; [done|].
  destruct a as [|y a].
  - destruct b as [|z b]; [done|]. reflexivity.
  - change ((x :: y :: a) ++ b) with (x :: y :: (a ++ b)).
    rewrite !join_cons. change (y :: a ++ b) with ((y :: a) ++ b).
    rewrite IH by done. by rewrite <- !app_assoc.
Qed.

Lemma join_head sep c l : exists rest, Py.join sep (c :: l) = c ++ rest.
Proof.
  destruct l as [|y l]; [exists []; by rewrite app_nil_r|].
  by exists (sep ++ Py.join sep (y :: l)).
Qed.

Lemma inner_clean_strip_join cs :
  inner_clean cs ->
  Py.strip (Py.join (Py.u " ") cs) = Py.join (Py.u " ") (map Py.strip cs).
Proof.
  induction cs as [|c1 cs IH]; [done|].
  destruct cs as [|c2 cs]; [done|].
  intros [(Hr1 & Hn1 & Hl2 & Hn2) Hin].
  rewrite join_cons.
  destruct (join_head (Py.u " ") c2 cs) as [rest HJ].
  assert (HnJ : blank (Py.join (Py.u " ") (c2 :: cs)) = false).
  { rewrite HJ, blank_app. unfold nonblank in Hn2. by rewrite Hn2. }
  assert (HlJ : Py.lstrip (Py.join (Py.u " ") (c2 :: cs))
                = Py.join (Py.u " ") (c2 :: cs)).
  { rewrite HJ, lstrip_nonblank by done. by rewrite Hl2. }
  rewrite strip_app_nonblank by done.
  change (map Py.strip (c1 :: c2 :: cs))
    with (Py.strip c1 :: Py.strip c2 :: map Py.strip cs).
  rewrite join_cons.
  change (Py.strip c2 :: map Py.strip cs) with (map Py.strip (c2 :: cs)).
  rewrite <- (IH Hin). unfold Py.strip.
  by rewrite (rstrip_lstrip_fix c1 Hr1), HlJ.
Qed.

Lemma inner_clean_nonblank c1 c2 cs :
  inner_clean (c1 :: c2 :: cs) -> Forall nonblank (c1 :: c2 :: cs).
Proof.
  revert c1 c2. induction cs as [|c3 cs IH]; intros c1 c2.
  - intros [(_ & H1 & _ & H2) _]. by repeat constructor.
  - intros [(_ & H1 & _ & _) Hin]. constructor; [done|]. by apply IH.
Qed.

Lemma chunk_of_map cs groups :
  Forall2 chunk_of cs groups ->
  map Py.strip cs = map (Py.join (Py.u " ")) groups.
Proof.
  induction 1 as [|c g cs groups Hc _ IH]; [done|].
  cbn [map]. by rewrite Hc, IH.
Qed.

Lemma chunk_of_groups_nonempty cs groups :
  Forall2 chunk_of cs groups -> Forall nonblank cs ->
  Forall (fun g => g <> []) groups.
Proof.
  induction 1 as [|c g cs groups Hc _ IH]; [done|].
  intros Hn. apply Forall_cons in Hn as [Hn1 Hn].
  constructor; [|by apply IH].
  intros ->. unfold chunk_of in Hc. cbn in Hc.
  apply strip_nil in Hc. unfold nonblank in Hn1. congruence.
Qed.

Lemma join_concat sep groups :
  Forall (fun g : list str => g <> []) groups ->
  Py.join sep (map (Py.join sep) groups) = Py.join sep (concat groups).
Proof.
  induction groups as [|g groups IH]; [done|].
  intros Hg. apply Forall_cons in Hg as [Hg1 Hg].
  destruct groups as [|g2 groups].
  - cbn. by rewrite app_nil_r.
  - change (map (Py.join sep) (g :: g2 :: groups))
      with (Py.join sep g :: Py.join sep g2 :: map (Py.join sep) groups).
    rewrite join_cons.
    change (Py.join sep g2 :: map (Py.join sep) groups)
      with (map (Py.join sep) (g2 :: groups)).
    rewrite (IH Hg). change (concat (g :: g2 :: groups))
      with (g ++ concat (g2 :: groups)).
    rewrite join_app; [done|done|].
    apply Forall_cons in Hg as [Hg2 _]. cbn [concat].
    destruct g2; [done|discriminate].
Qed.

(** The chunks joined by single spaces are the sentences joined by single
    spaces, up to whitespace around the whole. *)
Lemma split_text_join_spaces text :
  Py.strip (Py.join (Py.u " ") (split_text text max_chars))
  = Py.join (Py.u " ") (sentences text).
Proof.
  destruct (split_text_groups max_chars text) as (groups & HF & Hc).
  pose proof (split_text_inner_clean text) as Hin.
  rewrite inner_clean_strip_join by done.
  rewrite (chunk_of_map _ _ HF), <- Hc.
  destruct (split_text text max_chars) as [|c1 [|c2 cs]].
  - by inversion HF.
  - inversion HF as [|? g ? ? _ Hnil]; subst. inversion Hnil; subst.
    cbn. by rewrite app_nil_r.
  - apply join_concat. eapply chunk_of_groups_nonempty; [done|].
    by apply inner_clean_nonblank.
Qed.

End Spacing.

(** ** C2, C6, C7, C9: the translation client *)

Section ClientFacts.

Variable service : list event -> request -> outcome.
Variable self : OllamaTranslator.

Lemma calls_app a b : calls (a ++ b) = calls a ++ calls b.
Proof. apply flat_map_app. Qed.

Lemma sleeps_app a b : sleeps (a ++ b) = sleeps a ++ sleeps b.
Proof. apply flat_map_app. Qed.

Lemma posts_app a b : posts (a ++ b) = posts a ++ posts b.
Proof. apply flat_map_app. Qed.

Lemma attempts_app a b : attempts self (a ++ b) = (attempts self a + attempts self b)%nat.
Proof. unfold attempts. by rewrite posts_app, List.filter_app, length_app. Qed.

Lemma is_generate_generate text : is_generate self (generate_request self text) = true.
Proof. by apply eqb_true. Qed.

Lemma is_generate_chat text : is_generate self (chat_request self text) = false.
Proof.
  unfold is_generate. destruct (Py.eqb _ _) eqn:E; [|done].
  apply eqb_true in E. cbn [req_url chat_request] in E.
  by apply app_inv_head in E.
Qed.

Lemma attempt_events_count text new :
  attempt_events self text new ->
  calls new = [] /\ sleeps new = [] /\ attempts self new = 1%nat.
Proof.
  intros [-> | ->]; unfold attempts; cbn [posts calls sleeps flat_map app List.filter];
    rewrite ?is_generate_generate, ?is_generate_chat; done.
Qed.

Lemma attempt_effect text st :
  _cache (attempt service self text st).1 = _cache st
  /\ paragraphs (attempt service self text st).1 = paragraphs st
  /\ (exists new, trace (attempt service self text st).1 = trace st ++ new
                  /\ attempt_events self text new)
  /\ (forall v, (attempt service self text st).2 = Return v ->
        exists raw_text,
          served service raw_text /\ v = cleaned_or_text raw_text text).
Proof.
  unfold attempt, bind, requests_post, lift, ret, response_json.
  destruct (service (trace st) (generate_request self text)) as [|r1] eqn:Hs1;
    cbn [fst snd].
  { repeat split; [|done]. exists [Post (generate_request self text)].
    split; [done|by left]. }
  destruct (status_code r1 =? 404)%Z.
  - cbn [log trace _cache paragraphs].
    destruct (service (trace st ++ [Post (generate_request self text)])
                (chat_request self text)) as [|r2] eqn:Hs2;
      cbn [fst snd log trace].
    { repeat split; [|done]. eexists. rewrite <- app_assoc.
      split; [done|by right]. }
    destruct (raise_for_status r2), (body r2) as [data|] eqn:Hb;
      try destruct (raw_text_of data) eqn:Hraw;
      cbn [fst snd log trace _cache paragraphs];
      (repeat split;
       [eexists; rewrite <- app_assoc; split; [done|by right]
       |intros v [= <-]; try done]).
    eexists. split; [|done]. by eexists _, _, r2, data.
  - destruct (raise_for_status r1), (body r1) as [data|] eqn:Hb;
      try destruct (raw_text_of data) eqn:Hraw;
      cbn [fst snd log trace _cache paragraphs];
      (repeat split;
       [eexists; split; [done|by left]
       |intros v [= <-]; try done]).
    eexists. split; [|done]. by eexists _, _, r1, data.
Qed.

Lemma retry_loop_effect n : forall last_err text st,
  _cache (retry_loop service self n last_err text st).1 = _cache st
  /\ paragraphs (retry_loop service self n last_err text st).1 = paragraphs st
  /\ exists new,
       trace (retry_loop service self n last_err text st).1 = trace st ++ new
       /\ loop_outcome service self n last_err text new
            (retry_loop service self n last_err text st).2.
Proof.
  induction n as [|n IH]; intros last_err text st.
  - cbn. repeat split. exists []. rewrite app_nil_r. split; [done|].
    repeat split; [constructor..|]. by exists last_err.
  - cbn [retry_loop]. unfold try_except.
    destruct (attempt_effect text st) as (Hc & Hp & (new & Ht & Hev) & Hv).
    destruct (attempt service self text st) as [st1 [v|e]]; cbn [fst snd] in *.
    + repeat split; [done..|]. exists new. split; [done|].
      destruct (attempt_events_count text new Hev) as (H1 & H2 & H3).
      unfold loop_outcome. rewrite H1, H2, H3. repeat split; [constructor|lia|].
      by apply Hv.
    + unfold bind, sleep, modify.
      specialize (IH (Some e) text (log (Sleep 1) st1)).
      destruct IH as (Hc' & Hp' & new' & Ht' & Ho).
      destruct (retry_loop service self n (Some e) text (log (Sleep 1) st1))
        as [st2 r]; cbn [fst snd log trace _cache paragraphs] in *.
      split; [congruence|]. split; [congruence|].
      exists (new ++ [Sleep 1] ++ new'). split.
      { rewrite Ht', Ht. by rewrite <- !app_assoc. }
      destruct (attempt_events_count text new Hev) as (H1 & H2 & H3).
      destruct Ho as (Hcalls & Hsl & Hr).
      unfold loop_outcome.
      rewrite !calls_app, !sleeps_app, !attempts_app, H1, H2, H3, Hcalls.
      cbn [calls sleeps flat_map app attempts posts List.filter length].
      split; [done|]. split; [by constructor|].
      destruct r as [v|e'].
      * destruct Hr as (Ha & Hb & Hraw). repeat split; [lia|lia|done].
      * destruct Hr as (Ha & Hb & err & -> & Herr).
        repeat split; [lia|lia|]. exists err. split; [done|].
        destruct n; [by subst|done].
Qed.

Lemma _translate_once_effect text st :
  _cache (_translate_once service self text st).1 = _cache st
  /\ paragraphs (_translate_once service self text st).1 = paragraphs st
  /\ exists new,
       trace (_translate_once service self text st).1
       = trace st ++ Call text :: new
       /\ loop_outcome service self (Z.to_nat (retry self + 1)) None text new
            (_translate_once service self text st).2.
Proof.
  unfold _translate_once, bind, modify.
  destruct (retry_loop_effect (Z.to_nat (retry self + 1)) None text
              (log (Call text) st)) as (Hc & Hp & new & Ht & Ho).
  destruct (retry_loop service self _ None text (log (Call text) st))
    as [st' r]; cbn [fst snd log trace _cache paragraphs] in *.
  repeat split; [done..|]. exists new. split; [|done].
  by rewrite Ht, <- app_assoc.
Qed.

(** A logical call does not look at the cache. *)
Lemma attempt_cache c text st :
  attempt service self text (set_cache c st)
  = (set_cache c (attempt service self text st).1,
     (attempt service self text st).2).
Proof.
  unfold attempt, bind, requests_post, lift, ret. cbn [set_cache trace].
  destruct (service (trace st) (generate_request self text)) as [|r1]; [done|].
  destruct (status_code r1 =? 404)%Z.
  - cbn [log trace set_cache].
    destruct (service (trace st ++ [Post (generate_request self text)])
                (chat_request self text)) as [|r2]; [done|].
    by destruct (raise_for_status r2), (response_json r2) as [data|];
      try destruct (raw_text_of data).
  - by destruct (raise_for_status r1), (response_json r1) as [data|];
      try destruct (raw_text_of data).
Qed.

Lemma retry_loop_cache c n : forall last_err text st,
  retry_loop service self n last_err text (set_cache c st)
  = (set_cache c (retry_loop service self n last_err text st).1,
     (retry_loop service self n last_err text st).2).
Proof.
  induction n as [|n IH]; intros last_err text st; [done|].
  cbn [retry_loop]. unfold try_except. rewrite attempt_cache.
  destruct (attempt service self text st) as [st1 [v|e]]; cbn [fst snd]; [done|].
  unfold bind, sleep, modify.
  change (log (Sleep 1) (set_cache c st1)) with (set_cache c (log (Sleep 1) st1)).
  apply IH.
Qed.

Lemma _translate_once_cache c text st :
  _translate_once service self text (set_cache c st)
  = (set_cache c (_translate_once service self text st).1,
     (_translate_once service self text st).2).
Proof.
  unfold _translate_once, bind, modify.
  change (log (Call text) (set_cache c st)) with (set_cache c (log (Call text) st)).
  apply retry_loop_cache.
Qed.

Lemma mapM_cons {A B} (f : A -> M B) x l st :
  mapM f (x :: l) st =
  match f x st with
  | (st1, Return y) =>
      match mapM f l st1 with
      | (st2, Return ys) => (st2, Return (y :: ys))
      | (st2, Raise e) => (st2, Raise e)
      end
  | (st1, Raise e) => (st1, Raise e)
  end.
Proof.
  cbn [mapM]. unfold bind, ret. destruct (f x st) as [st1 [y|e]]; [|done].
  by destruct (mapM f l st1) as [st2 [ys|e]].
Qed.

(** The logical calls of a comprehension over chunks: one for each chunk,
    up to the first that raises. *)
Lemma mapM_translate_once_effect chunks : forall st,
  _cache (mapM (_translate_once service self) chunks st).1 = _cache st
  /\ paragraphs (mapM (_translate_once service self) chunks st).1 = paragraphs st
  /\ match (mapM (_translate_once service self) chunks st).2 with
     | Return results =>
         calls (trace (mapM (_translate_once service self) chunks st).1)
         = calls (trace st) ++ chunks
         /\ length results = length chunks
     | Raise _ =>
         exists k, (k < length chunks)%nat
           /\ calls (trace (mapM (_translate_once service self) chunks st).1)
              = calls (trace st) ++ take (S k) chunks
     end.
Proof.
  induction chunks as [|chunk chunks IH]; intros st.
  - cbn. by rewrite app_nil_r.
  - rewrite mapM_cons.
    destruct (_translate_once_effect chunk st)
      as (Hc & Hp & new & Ht & Hcalls & _ & _).
    destruct (_translate_once service self chunk st) as [st1 [v|e]];
      cbn [fst snd] in *.
    + specialize (IH st1).
      destruct (mapM (_translate_once service self) chunks st1) as [st2 [vs|e]];
        cbn [fst snd length] in *.
      * destruct IH as (Hc2 & Hp2 & Hcs & Hlen).
        split; [congruence|]. split; [congruence|]. split; [|by rewrite Hlen].
        rewrite Hcs, Ht, calls_app. cbn [calls flat_map app].
        fold (calls new). by rewrite Hcalls, <- app_assoc.
      * destruct IH as (Hc2 & Hp2 & k & Hk & Hcs).
        split; [congruence|]. split; [congruence|].
        exists (S k). split; [cbn [length]; lia|].
        rewrite Hcs, Ht, calls_app. cbn [calls flat_map app].
        fold (calls new). by rewrite Hcalls, <- app_assoc.
    + split; [done|]. split; [done|]. exists 0%nat. split; [cbn [length]; lia|].
      rewrite Ht, calls_app. cbn [calls flat_map app take].
      fold (calls new). by rewrite Hcalls.
Qed.

Lemma translate_text_blank text st :
  Py.strip text = [] -> translate_text service self text st = (st, Return text).
Proof. intros H. unfold translate_text. by rewrite H. Qed.

Lemma translate_text_hit text st cached :
  Py.strip text <> [] -> _cache st !! text = Some cached ->
  translate_text service self text st = (st, Return cached).
Proof.
  intros H Hc. unfold translate_text.
  apply truthy_true in H. rewrite H. cbn [negb]. by rewrite Hc.
Qed.

Lemma translate_text_miss text st :
  Py.strip text <> [] -> _cache st !! text = None ->
  translate_text service self text st =
  (do results <- mapM (_translate_once service self) (chunks_of self text);
   do_ store text (concat results);
   ret (concat results)) st.
Proof.
  intros H Hc. unfold translate_text, chunks_of, store.
  apply truthy_true in H. rewrite H. cbn [negb]. rewrite Hc.
  destruct (len text <=? max_chars self)%Z.
  - cbn [mapM]. unfold bind, ret.
    destruct (_translate_once service self text st) as [st1 [v|e]]; [|done].
    cbn [concat]. by rewrite app_nil_r.
  - unfold bind, ret.
    by destruct (mapM (_translate_once service self) _ st) as [st1 [rs|e]].
Qed.

(** What one call of [translate_text] does to the cache. *)
Lemma translate_text_cache text st :
  paragraphs (translate_text service self text st).1 = paragraphs st
  /\ match (translate_text service self text st).2 with
     | Return v =>
         (translate_text service self text st).1 = st
         /\ (Py.strip text = [] /\ v = text
             \/ Py.strip text <> [] /\ _cache st !! text = Some v)
         \/ Py.strip text <> [] /\ _cache st !! text = None
            /\ _cache (translate_text service self text st).1
               = <[text := v]> (_cache st)
     | Raise _ => _cache (translate_text service self text st).1 = _cache st
     end.
Proof.
  destruct (Py.strip text) as [|c s] eqn:Hs.
  { rewrite translate_text_blank by done. cbn. split; [done|]. left. eauto. }
  assert (Hne : Py.strip text <> []) by by rewrite Hs.
  destruct (_cache st !! text) as [cached|] eqn:Hc.
  { rewrite (translate_text_hit text st cached) by done. cbn.
    split; [done|]. left. eauto. }
  rewrite translate_text_miss by done.
  destruct (mapM_translate_once_effect (chunks_of self text) st) as (H1 & H2 & _).
  unfold bind, store, modify, ret.
  destruct (mapM (_translate_once service self) (chunks_of self text) st)
    as [st1 [results|e]]; cbn [fst snd set_cache _cache paragraphs] in *;
    [|done].
  split; [done|]. right. by rewrite H1.
Qed.

Lemma translate_text_again text st st' v :
  translate_text service self text st = (st', Return v) ->
  translate_text service self text st' = (st', Return v).
Proof.
  intros Heq. destruct (translate_text_cache text st) as [_ H].
  rewrite Heq in H. cbn [fst snd] in H.
  destruct H as [[-> [[Hb ->]|[Hne Hc]]]|(Hne & _ & Hc)].
  - by apply translate_text_blank.
  - by apply translate_text_hit.
  - apply translate_text_hit; [done|]. rewrite Hc. apply lookup_insert_eq.
Qed.

(** The keys of the cache are texts that [translate_text] was called
    with, and their values what it returned. *)
Lemma run_cache texts : forall st k v,
  _cache (run service self texts st).1 !! k = Some v ->
  _cache st !! k = Some v
  \/ exists i, texts !! i = Some k
               /\ (run service self texts st).2 !! i = Some (Return v).
Proof.
  induction texts as [|text texts IH]; intros st k v; [by left|].
  cbn [run].
  destruct (translate_text_cache text st) as [_ H].
  destruct (translate_text service self text st) as [st1 r]; cbn [fst snd] in H.
  specialize (IH st1 k v).
  destruct (run service self texts st1) as [st2 rs]; cbn [fst snd] in *.
  intros Hk. destruct (IH Hk) as [Hk1|(i & Hi & Hr)].
  2:{ right. by exists (S i). }
  destruct r as [v'|e].
  - destruct H as [[-> _]|(_ & _ & Hins)]; [by left|].
    rewrite Hins in Hk1. destruct (decide (text = k)) as [->|Hne].
    + rewrite lookup_insert_eq in Hk1. injection Hk1 as ->.
      right. by exists 0%nat.
    + rewrite lookup_insert_ne in Hk1 by done. by left.
  - rewrite H in Hk1. by left.
Qed.

End ClientFacts.

(** ** C3: the segment extractor *)

Section Segments.

Lemma walk_document_order n : forall segments,
  walk n segments = segments ++ document_order n.
Proof.
  induction n as [s| |name attrs children IH|s] using node_induction;
    intros segments; cbn [walk document_order].
  - done.
  - by rewrite app_nil_r.
  - destruct (Py.eqb name (Py.u "img")); [done|].
    destruct (Py.eqb name (Py.u "br")); [done|].
    revert segments. induction IH as [|c children Hc _ IHl]; intros segments.
    + cbn. by rewrite app_nil_r.
    + cbn [fold_left flat_map]. by rewrite Hc, IHl, <- app_assoc.
  - done.
Qed.

Lemma without_comment_order n :
  without_comment n = true -> document_order n = segments_as_claimed n.
Proof.
  induction n as [s| |name attrs children IH|s] using node_induction;
    cbn [without_comment document_order segments_as_claimed]; try done.
  intros H. destruct (Py.eqb name (Py.u "img")); [done|].
  destruct (Py.eqb name (Py.u "br")); [done|].
  induction IH as [|c children Hc _ IHc]; [done|].
  cbn [forallb flat_map] in *. apply andb_true_iff in H as [H1 H2].
  by rewrite Hc, IHc.
Qed.

Lemma last_removelast {A} (l : list A) x : last l = Some x -> l = removelast l ++ [x].
Proof.
  intros H. destruct (last_Some l x) as [[l' ->] _]; [done|].
  by rewrite removelast_last.
Qed.

Lemma merge_step_glue seg : forall merged l,
  glue (merge_step merged seg) (merge_runs l) = glue merged (merge_runs (seg :: l)).
Proof.
  intros merged l. destruct seg as [v|src]; cbn [merge_step merge_runs].
  - destruct (last merged) as [[x|s]|] eqn:Hl.
    + apply last_removelast in Hl.
      set (A := removelast merged) in *.
      unfold glue. rewrite last_snoc, removelast_last.
      destruct (merge_runs l) as [|[y|s] m'].
      * rewrite Hl, last_snoc, removelast_last. by rewrite <- app_assoc.
      * rewrite Hl, last_snoc, removelast_last. by rewrite <- app_assoc.
      * rewrite Hl, last_snoc, removelast_last. by rewrite <- app_assoc.
    + unfold glue. rewrite last_snoc, removelast_last, Hl.
      destruct (merge_runs l) as [|[y|s'] m']; by rewrite <- ?app_assoc.
    + unfold glue. rewrite last_snoc, removelast_last, Hl.
      destruct (merge_runs l) as [|[y|s'] m']; by rewrite <- ?app_assoc.
  - unfold glue. rewrite last_snoc.
    rewrite <- app_assoc. by destruct (last merged) as [[x|s]|].
Qed.

Lemma merge_fold_glue l : forall merged,
  fold_left merge_step l merged = glue merged (merge_runs l).
Proof.
  induction l as [|seg l IH]; intros merged.
  - cbn. unfold glue. rewrite app_nil_r. by destruct (last merged) as [[x|s]|].
  - cbn [fold_left]. rewrite IH. apply merge_step_glue.
Qed.

Lemma merge_text_segments_runs l : merge_text_segments l = merge_runs l.
Proof. unfold merge_text_segments. by rewrite merge_fold_glue. Qed.

Lemma merge_runs_barrier a src b :
  merge_runs (a ++ img_segment src :: b)
  = merge_runs a ++ img_segment src :: merge_runs b.
Proof.
  induction a as [|[v|s] a IH]; cbn [app merge_runs]; [done| |by rewrite IH].
  rewrite IH. by destruct (merge_runs a) as [|[y|s'] m'].
Qed.

Lemma merge_runs_texts s ss :
  merge_runs (map text_segment (s :: ss)) = [text_segment (concat (s :: ss))].
Proof.
  revert s. induction ss as [|s' ss IH]; intros s.
  - cbn. by rewrite app_nil_r.
  - change (map text_segment (s :: s' :: ss))
      with (text_segment s :: map text_segment (s' :: ss)).
    cbn [merge_runs]. by rewrite IH.
Qed.

Lemma merge_runs_no_adjacent l : no_adjacent_text (merge_runs l).
Proof.
  induction l as [|[v|s] l IH]; cbn [merge_runs]; [done| |].
  - destruct (merge_runs l) as [|[y|s'] m']; [done| |done].
    destruct m' as [|[z|s''] m'']; done.
  - by destruct (merge_runs l) as [|[y|s'] m'].
Qed.

End Segments.

(** ** C8: the table renderer *)

Section TableSpec.

Variable service : list event -> request -> outcome.
Variable translator : OllamaTranslator.

Lemma process_cells_filter cells : forall acc st,
  foldM (process_cell service translator) acc cells st =
  (do ts <- mapM (translate_text service translator)
              (List.filter Py.truthy (map (get_text (Py.u " ")) cells));
   ret (acc ++ ts)) st.
Proof.
  induction cells as [|cell cells IH]; intros acc st.
  - cbn. unfold bind, ret. by rewrite app_nil_r.
  - cbn [foldM map List.filter]. unfold process_cell at 1.
    destruct (Py.truthy (get_text (Py.u " ") cell)) eqn:Ht.
    + unfold bind at 1 2 3. rewrite mapM_cons.
      destruct (translate_text service translator _ st) as [st1 [t|e]]; [|done].
      unfold ret at 1. rewrite IH. unfold bind, ret.
      destruct (mapM _ _ st1) as [st2 [ts|e]]; [|done].
      by rewrite <- app_assoc.
    + unfold bind at 1, ret at 1. apply IH.
Qed.

Lemma mapM_translate_text_effect texts : forall st,
  paragraphs (mapM (translate_text service translator) texts st).1 = paragraphs st
  /\ match (mapM (translate_text service translator) texts st).2 with
     | Return cells => length cells = length texts
     | Raise _ => True
     end.
Proof.
  induction texts as [|text texts IH]; intros st; [done|].
  rewrite mapM_cons.
  destruct (translate_text_cache service translator text st) as [Hp _].
  destruct (translate_text service translator text st) as [st1 [t|e]];
    cbn [fst snd] in *; [|done].
  specialize (IH st1).
  destruct (mapM (translate_text service translator) texts st1)
    as [st2 [ts|e]]; cbn [fst snd length] in *.
  - destruct IH as [IH1 IH2]. split; [congruence|by rewrite IH2].
  - destruct IH as [IH1 _]. split; [congruence|done].
Qed.





End TableSpec.

(** ** C10: archive paths *)

Section Paths.

Lemma normalize_epub_path_head path c rest :
  normalize_epub_path path = c :: rest -> c <> 0x2E%N /\ c <> 0x2F%N.
Proof.
  unfold normalize_epub_path, Py.lstrip_chars, Py.lstrip_by.
  intros H. apply dropwhile_head in H.
  unfold Py.inb in H. cbn in H.
  apply orb_false_iff in H as [H1 H2].
  apply orb_false_iff in H2 as [H2 _].
  apply N.eqb_neq in H1, H2. done.
Qed.

Lemma image_map_fold items temp_dir : forall (m : gmap str str) k,
  fold_left
    (fun (mapping : gmap str str) item =>
       <[normalize_epub_path (get_name item)
         := out_path_of temp_dir (normalize_epub_path (get_name item))]> mapping)
    items m !! k
  = if existsb (fun item => Py.eqb (normalize_epub_path (get_name item)) k) items
    then Some (out_path_of temp_dir k)
    else m !! k.
Proof.
  induction items as [|item items IH]; intros m k; [done|].
  cbn [fold_left existsb]. rewrite IH.
  destruct (existsb _ items); [by rewrite orb_true_r|].
  rewrite orb_false_r.
  destruct (Py.eqb (normalize_epub_path (get_name item)) k) eqn:E.
  - apply eqb_true in E as <-. apply lookup_insert_eq.
  - apply lookup_insert_ne. intros Heq. apply eqb_true in Heq. congruence.
Qed.

Lemma build_image_map_lookup items temp_dir k :
  build_image_map items temp_dir !! k
  = if existsb (fun item => Py.eqb (normalize_epub_path (get_name item)) k) items
    then Some (out_path_of temp_dir k)
    else None.
Proof.
  unfold build_image_map.
  rewrite (image_map_fold items temp_dir ∅ k). by rewrite lookup_empty.
Qed.

Lemma build_image_map_found items temp_dir k :
  is_Some (build_image_map items temp_dir !! k)
  <-> exists item, In item items /\ normalize_epub_path (get_name item) = k.
Proof.
  rewrite build_image_map_lookup.
  destruct (existsb _ items) eqn:E.
  - apply existsb_exists in E as (item & Hin & Heq). apply eqb_true in Heq.
    split; [by exists item|by eexists].
  - split; [by intros [? [=]]|].
    intros (item & Hin & Heq).
    assert (existsb (fun item => Py.eqb (normalize_epub_path (get_name item)) k)
              items = true); [|congruence].
    apply existsb_exists. exists item. split; [done|by apply eqb_true].
Qed.

End Paths.

(** ** Examples *)

Example mock_short :
  (translate_text mock_service (demo_translator 1500 2) (Py.u "Hello world.") fresh).2
  = Return (Py.u "译Hello world.").
Proof. vm_compute. reflexivity. Qed.

Example mock_long :
  let r1 := translate_text mock_service (demo_translator 5 2) (Py.u "Hi. Yo.") fresh in
  let r2 := translate_text mock_service (demo_translator 5 2) (Py.u "Hi. Yo.") r1.1 in
  r1.2 = Return (Py.u "译Hi.译Yo.") /\ r2.2 = Return (Py.u "译Hi.译Yo.")
  /\ calls (trace r2.1) = [Py.u "Hi."; Py.u "Yo."]
  /\ length (posts (trace r2.1)) = 2%nat.
Proof. vm_compute. done. Qed.

Example mock_table :
  paragraphs (process_table mock_service (demo_translator 1500 2)
                (table [tr [td (Py.u "a"); td (Py.u "b")]; tr [td []; td (Py.u "  ")]])
                fresh).1
  = [Py.u "译a\t译b"].
Proof. vm_compute. reflexivity. Qed.

Example mock_table_gap :
  paragraphs (process_table mock_service (demo_translator 1500 2)
                (table [tr [td (Py.u "a"); td []; td (Py.u "b")]]) fresh).1
  = [Py.u "译a\t译b"]
  /\ paragraphs (process_table_as_claimed mock_service (demo_translator 1500 2)
                (table [tr [td (Py.u "a"); td []; td (Py.u "b")]]) fresh).1
  = [Py.u "译a\t\t译b"].
Proof. vm_compute. done. Qed.

(** The key is the text as it is: with a space more it is another key. *)
Example cache_key_is_exact :
  let self := demo_translator 1500 2 in
  let r1 := translate_text mock_service self (Py.u "Hello.") fresh in
  let r2 := translate_text mock_service self (Py.u "Hello. ") r1.1 in
  calls (trace r2.1) = [Py.u "Hello."; Py.u "Hello. "].
Proof. vm_compute. reflexivity. Qed.

(** The content of the tag pair is trimmed; the tags match in any case. *)
Example tag_content_is_trimmed :
  extract_translation_only (Py.u "<Translation>\n 你好 \n</TRANSLATION>") = Py.u "你好".
Proof. vm_compute. reflexivity. Qed.

Example down_retry :
  let r := _translate_once down_service (demo_translator 1500 2) (Py.u "Hello.") fresh in
  r.2 = Raise (RuntimeError (Some ConnectionError))
  /\ attempts (demo_translator 1500 2) (trace r.1) = 3%nat
  /\ sleeps (trace r.1) = [1; 1; 1]%Z.
Proof. vm_compute. done. Qed.

Section MoreFacts.

(** *** The tag pair *)

Lemma match_literal_sound p : forall s rest,
  Re.match_literal p s = Some rest ->
  exists m, s = m ++ rest /\ matches_literal p m.
Proof.
  induction p as [|a p IH]; intros s rest.
  - destruct s; cbn; intros [= <-]; exists []; (split; [done|constructor]).
  - destruct s as [|c s]; [done|]. cbn [Re.match_literal].
    destruct (Re.ignorecase_eq a c) eqn:E; [|done].
    intros H. destruct (IH _ _ H) as (m & -> & Hm).
    exists (c :: m). split; [done|by constructor].
Qed.

Lemma find_literal_sound p s : forall before after,
  Re.find_literal p s = Some (before, after) ->
  exists m, s = before ++ m ++ after /\ matches_literal p m.
Proof.
  induction s as [|c s IH]; intros before after.
  - cbn [Re.find_literal].
    destruct (Re.match_literal p []) as [rest|] eqn:E; [|done].
    intros [= <- <-]. by apply match_literal_sound in E.
  - cbn [Re.find_literal].
    destruct (Re.match_literal p (c :: s)) as [rest|] eqn:E.
    { intros [= <- <-]. by apply match_literal_sound in E. }
    destruct (Re.find_literal p s) as [[b a]|]; [|done].
    intros [= <- <-]. destruct (IH b a eq_refl) as (m & -> & Hm).
    by exists m.
Qed.

(** A match of [TRANSLATION_TAG_RE]: the group lies between an opening
    and a closing tag. *)
Lemma TRANSLATION_TAG_RE_search_sound raw content :
  TRANSLATION_TAG_RE_search raw = Some content ->
  exists before opening closing after,
    raw = before ++ opening ++ content ++ closing ++ after
    /\ matches_literal (Py.u "<translation>") opening
    /\ matches_literal (Py.u "</translation>") closing.
Proof.
  unfold TRANSLATION_TAG_RE_search.
  destruct (Re.find_literal (Py.u "<translation>") raw) as [[before rest]|] eqn:E1;
    [|done].
  destruct (Re.find_literal (Py.u "</translation>") rest) as [[c after]|] eqn:E2;
    [|done].
  intros [= <-].
  apply find_literal_sound in E1 as (opening & -> & Ho).
  apply find_literal_sound in E2 as (closing & -> & Hc).
  by exists before, opening, closing, after.
Qed.

Lemma match_literal_complete p m rest :
  matches_literal p m -> Re.match_literal p (m ++ rest) = Some rest.
Proof.
  induction 1 as [|a c p m Hac Hpm IH]; [by destruct rest|].
  cbn [app Re.match_literal]. by rewrite Hac.
Qed.

(** The search finds the first occurrence. *)
Lemma find_literal_first p s : forall before after,
  Re.find_literal p s = Some (before, after) ->
  forall before' m' after',
    s = before' ++ m' ++ after' -> matches_literal p m' ->
    (length before <= length before')%nat.
Proof.
  induction s as [|c s IH]; intros before after.
  - cbn [Re.find_literal].
    destruct (Re.match_literal p []) as [rest|]; [|done].
    intros [= <- <-] ? ? ? _ _. cbn [length]. lia.
  - cbn [Re.find_literal].
    destruct (Re.match_literal p (c :: s)) as [rest|] eqn:E.
    { intros [= <- <-] ? ? ? _ _. cbn [length]. lia. }
    destruct (Re.find_literal p s) as [[b a]|]; [|done].
    intros [= <- <-] before' m' after' Hs Hm.
    destruct before' as [|c' before'].
    + cbn [app] in Hs. rewrite Hs, (match_literal_complete p m' after' Hm) in E.
      done.
    + injection Hs as -> Hs. cbn [length].
      pose proof (IH b a eq_refl before' m' after' Hs Hm). lia.
Qed.

Lemma find_literal_complete p before' : forall s m' after',
  s = before' ++ m' ++ after' -> matches_literal p m' ->
  exists before after, Re.find_literal p s = Some (before, after).
Proof.
  induction before' as [|c before' IH]; intros s m' after' -> Hm.
  - cbn [app]. pose proof (match_literal_complete p m' after' Hm) as E.
    destruct (m' ++ after') as [|c s]; cbn [Re.find_literal]; rewrite E;
      by eexists _, _.
  - cbn [app Re.find_literal].
    destruct (Re.match_literal p _) as [rest|]; [by eexists _, _|].
    destruct (IH _ m' after' eq_refl Hm) as (b & a & ->). by eexists _, _.
Qed.

Lemma first_occurrence_unique p s b1 m1 a1 b2 m2 a2 :
  first_occurrence p s b1 m1 a1 -> first_occurrence p s b2 m2 a2 ->
  b1 = b2 /\ m1 = m2 /\ a1 = a2.
Proof.
  intros (Hs1 & Hm1 & Hf1) (Hs2 & Hm2 & Hf2).
  pose proof (Hf1 b2 m2 a2 Hs2 Hm2). pose proof (Hf2 b1 m1 a1 Hs1 Hm1).
  rewrite Hs1 in Hs2.
  apply app_inj_1 in Hs2 as [-> Hs2]; [|lia]. split; [done|].
  apply app_inj_1 in Hs2 as [-> ->]; [done|].
  apply Forall2_length in Hm1, Hm2. congruence.
Qed.

Lemma find_literal_spec p s before after :
  Re.find_literal p s = Some (before, after)
  <-> exists m, first_occurrence p s before m after.
Proof.
  split.
  - intros H. destruct (find_literal_sound p s before after H) as (m & Hs & Hm).
    exists m. split; [done|]. split; [done|]. by apply (find_literal_first p s before after).
  - intros (m & Hfirst). pose proof Hfirst as (Hs & Hm & _).
    destruct (find_literal_complete p before s m after Hs Hm) as (b0 & a0 & H0).
    destruct (find_literal_sound p s b0 a0 H0) as (m0 & Hs0 & Hm0).
    assert (H1 : first_occurrence p s b0 m0 a0).
    { split; [done|]. split; [done|]. by apply (find_literal_first p s b0 a0). }
    destruct (first_occurrence_unique _ _ _ _ _ _ _ _ Hfirst H1) as (-> & _ & ->).
    done.
Qed.

(** A match of [TRANSLATION_TAG_RE] is the first opening tag and the
    first closing tag after it, and the group what lies between them. *)
Lemma TRANSLATION_TAG_RE_search_spec raw content :
  TRANSLATION_TAG_RE_search raw = Some content <-> tag_pair raw content.
Proof.
  unfold TRANSLATION_TAG_RE_search, tag_pair. split.
  - destruct (Re.find_literal (Py.u "<translation>") raw) as [[before rest]|] eqn:E1;
      [|done].
    destruct (Re.find_literal (Py.u "</translation>") rest) as [[c after]|] eqn:E2;
      [|done].
    intros [= ->].
    apply find_literal_spec in E1 as (opening & Ho).
    apply find_literal_spec in E2 as (closing & Hc).
    pose proof Hc as (-> & _). by exists before, opening, closing, after.
  - intros (before & opening & closing & after & Ho & Hc).
    rewrite (proj2 (find_literal_spec _ _ _ _) (ex_intro _ opening Ho)).
    by rewrite (proj2 (find_literal_spec _ _ _ _) (ex_intro _ closing Hc)).
Qed.

Lemma stage1_spec raw c :
  stage1 raw = Some c
  <-> exists content, tag_pair raw content /\ c = Py.strip content /\ c <> [].
Proof.
  unfold stage1. split.
  - destruct (TRANSLATION_TAG_RE_search raw) as [content|] eqn:E; [|done].
    destruct (Py.truthy (Py.strip content)) eqn:Ht; [|done].
    intros [= <-]. exists content. split; [by apply TRANSLATION_TAG_RE_search_spec|].
    split; [done|by apply truthy_true].
  - intros (content & Hp & -> & Hne).
    apply TRANSLATION_TAG_RE_search_spec in Hp. rewrite Hp.
    apply truthy_true in Hne. by rewrite Hne.
Qed.

(** *** A sentence over the budget is a chunk of its own *)

Lemma split_text_keeps_long max_chars l : forall chunks buf x,
  x <> [] ->
  In x chunks \/ (x = buf /\ (max_chars < len x)%Z)
  \/ (In x l /\ (max_chars < len x)%Z) ->
  In x (flush (fold_left (split_text_step max_chars) l (chunks, buf))).
Proof.
  induction l as [|part l IH]; intros chunks buf x Hne Hx.
  - cbn [fold_left flush]. destruct Hx as [Hx|[[-> Hx]|[[] _]]].
    + destruct (Py.truthy buf); [apply in_or_app; by left|done].
    + destruct buf as [|c buf]; [done|].
      cbn [Py.truthy]. apply in_or_app. right. by left.
  - cbn [fold_left]. unfold split_text_step at 2.
    assert (0 <= len buf /\ 0 <= len part)%Z by (unfold len; lia).
    destruct (Py.truthy part) eqn:Hp; cbn [negb].
    { destruct (len buf + len part + 1 <=? max_chars)%Z eqn:Hfit.
      - apply Z.leb_le in Hfit. apply IH; [done|].
        destruct Hx as [Hx|[[-> Hx]|[[<-|Hx] Hlong]]]; [by left|lia|lia|].
        right. by right.
      - apply IH; [done|]. destruct Hx as [Hx|[[-> Hx]|[[<-|Hx] Hlong]]].
        + left. destruct (Py.truthy buf); [apply in_or_app; by left|done].
        + left. destruct buf as [|c buf]; [done|].
          cbn [Py.truthy]. apply in_or_app. right. by left.
        + right. by left.
        + right. by right. }
    apply IH; [done|].
    destruct Hx as [Hx|[Hx|[[<-|Hx] Hlong]]]; [by left|by right; left| |].
    + by apply truthy_false in Hp.
    + right. by right.
Qed.

Lemma split_text_long_kept text max_chars part :
  In part (SENTENCE_SPLIT_RE_split text) -> part <> [] ->
  (max_chars < len part)%Z -> In part (split_text text max_chars).
Proof.
  intros Hin Hne Hlong. rewrite split_text_fold.
  apply split_text_keeps_long; [done|]. right. by right.
Qed.

End MoreFacts.

Section AttemptFailures.

Variable service : list event -> request -> outcome.
Variable self : OllamaTranslator.





Lemma translate_text_miss_calls text st :
  Py.strip text <> [] -> _cache st !! text = None ->
  match (translate_text service self text st).2 with
  | Return v =>
      calls (trace (translate_text service self text st).1)
      = calls (trace st) ++ chunks_of self text
      /\ _cache (translate_text service self text st).1 = <[text := v]> (_cache st)
  | Raise _ =>
      _cache (translate_text service self text st).1 = _cache st
      /\ exists k, (k < length (chunks_of self text))%nat
           /\ calls (trace (translate_text service self text st).1)
              = calls (trace st) ++ take (S k) (chunks_of self text)
  end.
Proof.
  intros Hne Hc. rewrite translate_text_miss by done.
  destruct (mapM_translate_once_effect service self (chunks_of self text) st)
    as (H1 & _ & H3).
  unfold bind, store, modify, ret.
  destruct (mapM (_translate_once service self) (chunks_of self text) st)
    as [st1 [results|e]]; cbn [fst snd set_cache _cache trace] in *.
  - destruct H3 as [H3 _]. by rewrite H1.
  - done.
Qed.

End AttemptFailures.

(** * The claims *)

(** C1, as stated, fails: a line that begins with "Thinking" is not a
    marker line of the code, whose English markers are reasoning,
    analysis, thought, original, source and translation. The response
    "Thinking: blah\n你好世界" is returned whole, where the protocol with
    the markers that the claim names returns "你好世界". *)
Lemma C1_thinking_line_is_kept :
  cleaned_or_text (Py.u "Thinking: blah\n你好世界") (Py.u "Hello world")
  = Py.u "Thinking: blah\n你好世界"
  /\ three_stage_protocol markers_named_by_spec
       (Py.u "Thinking: blah\n你好世界") (Py.u "Hello world")
     = Py.u "你好世界"
  /\ cleaned_or_text (Py.u "Thinking: blah\n你好世界") (Py.u "Hello world")
     <> three_stage_protocol markers_named_by_spec
          (Py.u "Thinking: blah\n你好世界") (Py.u "Hello world").
Proof. vm_compute. repeat split; discriminate. Qed.

(** C1, amended: every value that an attempt returns is the cleaned raw
    response, and cleaning is the three-stage protocol with the markers of
    [INFERENCE_PREFIXES]: (1) the trimmed content between the first
    opening tag and the first closing tag after it, the tags matched
    without regard to case, when that content is not blank; (2) otherwise
    the trimmed lines of the response that are neither blank nor begin,
    lowercased, with a marker, joined by newlines and trimmed; (3) the
    input text when the result is empty, so that a non-empty text never
    gets an empty translation. The search of the code finds a content
    exactly when it lies between the first opening tag and the first
    closing tag after it, and stage 1 applies exactly when that content
    is not blank; of two tag pairs the first is taken, and of two closing
    tags the first. The two examples of the claim hold. *)
Theorem C1_response_cleaning :
  (forall raw text,
      cleaned_or_text raw text = three_stage_protocol INFERENCE_PREFIXES raw text)
  /\ (forall raw content,
        TRANSLATION_TAG_RE_search raw = Some content <-> tag_pair raw content)
  /\ (forall raw c,
        stage1 raw = Some c
        <-> exists content,
              tag_pair raw content /\ c = Py.strip content /\ c <> [])
  /\ (forall service self text st v,
        (attempt service self text st).2 = Return v ->
        exists raw_text,
          served service raw_text /\ v = cleaned_or_text raw_text text)
  /\ (forall raw text, text <> [] -> cleaned_or_text raw text <> [])
  /\ (forall text,
        cleaned_or_text (Py.u "思考: foo\n<translation>你好</translation>") text
        = Py.u "你好")
  /\ (forall text,
        cleaned_or_text (Py.u "Reasoning: blah\n你好世界") text = Py.u "你好世界")
  /\ (forall text,
        cleaned_or_text
          (Py.u "<translation>甲</translation> and <translation>乙</translation>")
          text = Py.u "甲")
  /\ (forall text,
        cleaned_or_text
          (Py.u "<translation>甲<translation>乙</translation>丙</translation>")
          text = Py.u "甲<translation>乙")
  /\ (forall text,
        cleaned_or_text (Py.u "</translation><TRANSLATION> 甲 </Translation>") text
        = Py.u "甲").
Proof.
  split; [exact cleaned_or_text_protocol|].
  split; [exact TRANSLATION_TAG_RE_search_spec|].
  split; [exact stage1_spec|].
  split.
  { intros service self text st v. apply attempt_effect. }
  split; [exact cleaned_or_text_nonempty|].
  repeat split; intros text; vm_compute; reflexivity.
Qed.

Lemma C1_response_cleaning_witness :
  Py.u "Hello" <> []
  /\ cleaned_or_text (Py.u "Translation: ") (Py.u "Hello") <> [].
Proof.
  split; [discriminate|].
  apply (proj1 (proj2 (proj2 (proj2 (proj2 C1_response_cleaning))))). discriminate.
Defined.

(** C2, as stated, fails: a text longer than [max_chars] costs one
    service call for each chunk. With [max_chars = 5] the text
    "Hi. Yo." has two chunks; two calls of [translate_text] with it make
    two logical calls and two requests, not one. *)
Lemma C2_two_chunks_two_calls :
  let self := demo_translator 5 2 in
  let r1 := translate_text mock_service self (Py.u "Hi. Yo.") fresh in
  let r2 := translate_text mock_service self (Py.u "Hi. Yo.") r1.1 in
  r1.2 = Return (Py.u "译Hi.译Yo.") /\ r2.2 = Return (Py.u "译Hi.译Yo.")
  /\ calls (trace r2.1) = [Py.u "Hi."; Py.u "Yo."]
  /\ length (posts (trace r2.1)) = 2%nat
  /\ length (posts (trace r2.1)) <> 1%nat.
Proof. vm_compute. repeat split; discriminate. Qed.

(** C2, amended: the cache is keyed by the exact source string. A
    non-blank text that is a key is answered from the cache with nothing
    else done; starting from an empty cache, every key is the text of an
    earlier call that returned the stored value; a call that raises
    leaves the cache as it was, one that returns leaves it as it was or
    adds the text with the returned value; a second call with the same
    text after a successful one changes nothing, so makes no service
    call, and returns the same value; the first call on a miss makes one
    logical call for each chunk, exactly one when the text is within
    [max_chars]. *)
Theorem C2_cache_exact_key service self :
  (forall text st cached,
      Py.strip text <> [] -> _cache st !! text = Some cached ->
      translate_text service self text st = (st, Return cached))
  /\ (forall texts st k v,
        _cache st = ∅ ->
        _cache (run service self texts st).1 !! k = Some v ->
        exists i, texts !! i = Some k
                  /\ (run service self texts st).2 !! i = Some (Return v))
  /\ (forall text st,
        match (translate_text service self text st).2 with
        | Raise _ => _cache (translate_text service self text st).1 = _cache st
        | Return v =>
            _cache (translate_text service self text st).1 = _cache st
            \/ _cache (translate_text service self text st).1
               = <[text := v]> (_cache st)
        end)
  /\ (forall text st st' v,
        translate_text service self text st = (st', Return v) ->
        translate_text service self text st' = (st', Return v))
  /\ (forall text st v,
        Py.strip text <> [] -> _cache st !! text = None ->
        (translate_text service self text st).2 = Return v ->
        calls (trace (translate_text service self text st).1)
        = calls (trace st)
          ++ (if (len text <=? max_chars self)%Z then [text]
              else split_text text (max_chars self))).
Proof.
  split; [apply translate_text_hit|].
  split.
  { intros texts st k v He Hk.
    destruct (run_cache service self texts st k v Hk) as [H|H]; [|done].
    by rewrite He, lookup_empty in H. }
  split.
  { intros text st. destruct (translate_text_cache service self text st) as [_ H].
    destruct (translate_text service self text st) as [st' [v|e]];
      cbn [fst snd] in *; [|done].
    destruct H as [[-> _]|(_ & _ & H)]; [by left|by right]. }
  split; [apply translate_text_again|].
  intros text st v Hne Hc Hr.
  pose proof (translate_text_miss_calls service self text st Hne Hc) as H.
  rewrite Hr in H. by destruct H.
Qed.

Lemma C2_cache_exact_key_witness :
  let self := demo_translator 5 2 in
  let r1 := translate_text mock_service self (Py.u "Hi. Yo.") fresh in
  translate_text mock_service self (Py.u "Hi. Yo.") r1.1
  = (r1.1, Return (Py.u "译Hi.译Yo.")).
Proof.
  cbv zeta.
  apply (proj1 (proj2 (proj2 (proj2
           (C2_cache_exact_key mock_service (demo_translator 5 2)))))
           (Py.u "Hi. Yo.") fresh).
  vm_compute. reflexivity.
Defined.

(** Segment extraction is the merge of the segments in document order.
    A string gives a text segment with its content, an [img] tag an image
    segment with its [src] (empty when absent), a [br] tag a text segment
    with a newline, any other tag the segments of its children in order
    and none of its own. Merging replaces every run of text segments by
    their concatenation in order and never joins text across an image
    segment. A block with text "A", an image inside a wrapper and text
    "B" yields the three segments. *)
Lemma segments_in_order_merged :
  (forall n segments, walk n segments = segments ++ document_order n)
  /\ (forall n, extract_inline_segments n = merge_runs (document_order n))
  /\ (forall segments, merge_text_segments segments = merge_runs segments)
  /\ (forall s ss,
        merge_text_segments (map text_segment (s :: ss))
        = [text_segment (concat (s :: ss))])
  /\ (forall a src b,
        merge_text_segments (a ++ img_segment src :: b)
        = merge_text_segments a ++ img_segment src :: merge_text_segments b)
  /\ (forall segments, no_adjacent_text (merge_text_segments segments))
  /\ extract_inline_segments
       (Tag (Py.u "p") []
          [ NavigableString (Py.u "A");
            Tag (Py.u "span") []
              [Tag (Py.u "img") [(Py.u "src", Py.u "images/pic.png")] []];
            NavigableString (Py.u "B") ])
     = [ text_segment (Py.u "A"); img_segment (Py.u "images/pic.png");
         text_segment (Py.u "B") ]
  /\ extract_inline_segments
       (Tag (Py.u "p") []
          [ NavigableString (Py.u "A");
            Tag (Py.u "em") [] [NavigableString (Py.u "B")];
            Tag (Py.u "br") [] [];
            Tag (Py.u "img") [] [] ])
     = [ text_segment (Py.u "AB\n"); img_segment [] ].
Proof.
  split; [exact walk_document_order|].
  split.
  { intros n. unfold extract_inline_segments.
    by rewrite walk_document_order, merge_text_segments_runs. }
  split; [exact merge_text_segments_runs|].
  split.
  { intros s ss. rewrite merge_text_segments_runs. apply merge_runs_texts. }
  split.
  { intros a src b. rewrite !merge_text_segments_runs. apply merge_runs_barrier. }
  split.
  { intros segments. rewrite merge_text_segments_runs.
    apply merge_runs_no_adjacent. }
  split; vm_compute; reflexivity.
Qed.

(** C3: a comment is taken for a text node. The test of [walk] for a
    text node, [isinstance(child, NavigableString)], also holds of a
    comment, a processing instruction, a declaration and a doctype, so
    each of them gives a text segment with its content, where the claim
    has a segment for a text node only and none for any other node. The
    paragraph "A", a comment " note ", "B" gives the one segment
    "A note B", not "AB". The table renderer, which takes its text with
    [get_text], leaves the comment out: the same children in a cell give
    "A B". For a subtree without such a node the extraction is as the
    claim has it. *)
Theorem C3_comment_becomes_text :
  (forall s segments, walk (Comment s) segments = segments ++ [text_segment s])
  /\ extract_inline_segments
       (Tag (Py.u "p") []
          [ NavigableString (Py.u "A"); Comment (Py.u " note ");
            NavigableString (Py.u "B") ])
     = [ text_segment (Py.u "A note B") ]
  /\ merge_text_segments
       (segments_as_claimed
          (Tag (Py.u "p") []
             [ NavigableString (Py.u "A"); Comment (Py.u " note ");
               NavigableString (Py.u "B") ]))
     = [ text_segment (Py.u "AB") ]
  /\ get_text (Py.u " ")
       (Tag (Py.u "td") []
          [ NavigableString (Py.u "A"); Comment (Py.u " note ");
            NavigableString (Py.u "B") ])
     = Py.u "A B"
  /\ (forall n,
        without_comment n = true ->
        extract_inline_segments n = merge_text_segments (segments_as_claimed n)).
Proof.
  split; [done|]. split; [vm_compute; reflexivity|].
  split; [vm_compute; reflexivity|]. split; [vm_compute; reflexivity|].
  intros n Hn. unfold extract_inline_segments.
  by rewrite walk_document_order, without_comment_order.
Qed.

Lemma C3_comment_becomes_text_witness :
  let n := Tag (Py.u "p") []
             [ NavigableString (Py.u "A");
               Tag (Py.u "em") [] [NavigableString (Py.u "B")];
               Tag (Py.u "br") [] [] ] in
  without_comment n = true
  /\ extract_inline_segments n = [ text_segment (Py.u "AB\n") ].
Proof.
  cbv zeta.
  assert (H : without_comment
                (Tag (Py.u "p") []
                   [ NavigableString (Py.u "A");
                     Tag (Py.u "em") [] [NavigableString (Py.u "B")];
                     Tag (Py.u "br") [] [] ]) = true) by reflexivity.
  split; [exact H|].
  rewrite (proj2 (proj2 (proj2 (proj2 C3_comment_becomes_text))) _ H).
  vm_compute. reflexivity.
Defined.

(** C4: every chunk of [split_text] is at most [max_chars] long, or it is
    a single sentence (a piece of the sentence split) that alone is
    longer than [max_chars]; and every such sentence is a chunk, whole. *)
Theorem C4_chunk_budget text max_chars :
  (forall chunk,
      In chunk (split_text text max_chars) ->
      (len chunk <= max_chars)%Z
      \/ ((max_chars < len chunk)%Z /\ In chunk (SENTENCE_SPLIT_RE_split text)))
  /\ (forall part,
        In part (SENTENCE_SPLIT_RE_split text) -> part <> [] ->
        (max_chars < len part)%Z -> In part (split_text text max_chars)).
Proof.
  split.
  - intros chunk Hin.
    pose proof (split_text_budget text max_chars) as H.
    rewrite List.Forall_forall in H. exact (H chunk Hin).
  - apply split_text_long_kept.
Qed.

Lemma C4_chunk_budget_witness :
  In (Py.u "Go! a") (split_text (Py.u "Hi. Yo.  Go! a") 5)
  /\ ((len (Py.u "Go! a") <= 5)%Z
      \/ ((5 < len (Py.u "Go! a"))%Z
          /\ In (Py.u "Go! a") (SENTENCE_SPLIT_RE_split (Py.u "Hi. Yo.  Go! a"))))
  /\ In (Py.u "Absolutely.")
       (split_text (Py.u "No. Absolutely. Yes.") 5).
Proof.
  split; [vm_compute; tauto|]. split.
  - apply (proj1 (C4_chunk_budget (Py.u "Hi. Yo.  Go! a") 5)). vm_compute. tauto.
  - apply (proj2 (C4_chunk_budget (Py.u "No. Absolutely. Yes.") 5));
      [vm_compute; tauto|discriminate|vm_compute; reflexivity].
Defined.

(** C5: when no sentence of the text is longer than [max_chars], the
    chunks of [split_text] are the sentences of the text in their order:
    the sentences fall into consecutive groups, one for each chunk, and a
    chunk is the sentences of its group joined by single spaces, up to
    whitespace around it. The chunks joined by single spaces are the
    sentences joined by single spaces; the chunks concatenated have the
    characters of the text that are not whitespace, in order; and every
    chunk is within the budget. *)
Theorem C5_sentences_in_order text max_chars :
  (forall part, In part (SENTENCE_SPLIT_RE_split text) -> (len part <= max_chars)%Z) ->
  (exists groups,
      Forall2 chunk_of (split_text text max_chars) groups
      /\ concat groups = sentences text)
  /\ Py.strip (Py.join (Py.u " ") (split_text text max_chars))
     = Py.join (Py.u " ") (sentences text)
  /\ squash (concat (split_text text max_chars)) = squash text
  /\ Forall (fun chunk => (len chunk <= max_chars)%Z) (split_text text max_chars).
Proof.
  intros Hshort. split; [apply split_text_groups|].
  split; [apply split_text_join_spaces|].
  split; [apply split_text_squash|].
  pose proof (split_text_budget text max_chars) as H.
  eapply List.Forall_impl; [|exact H].
  intros chunk [Hc|[Hlong Hin]]; [done|].
  specialize (Hshort chunk Hin). lia.
Qed.

Lemma C5_sentences_in_order_witness :
  (exists groups,
      Forall2 chunk_of (split_text (Py.u " One.  Two!\nThree? Four") 11) groups
      /\ concat groups = [Py.u "One."; Py.u "Two!"; Py.u "Three?"; Py.u "Four"])
  /\ split_text (Py.u " One.  Two!\nThree? Four") 11 = [Py.u "One. Two!"; Py.u "Three? Four"].
Proof.
  split; [|vm_compute; reflexivity].
  apply (C5_sentences_in_order (Py.u " One.  Two!\nThree? Four") 11).
  intros part Hin. vm_compute in Hin.
  repeat (destruct Hin as [<-|Hin]; [vm_compute; discriminate|]).
  destruct Hin.
Defined.

(** A text within [max_chars] that is already in the cache costs no
    logical call: the second of two calls with "Hello world." makes
    none. *)
Example cached_text_makes_no_call :
  let self := demo_translator 1500 2 in
  let r1 := translate_text mock_service self (Py.u "Hello world.") fresh in
  let r2 := translate_text mock_service self (Py.u "Hello world.") r1.1 in
  Py.strip (Py.u "Hello world.") <> []
  /\ (len (Py.u "Hello world.") <= max_chars self)%Z
  /\ r2.2 = Return (Py.u "译Hello world.")
  /\ calls (trace r1.1) = [Py.u "Hello world."]
  /\ calls (trace r2.1) = calls (trace r1.1)
  /\ length (calls (trace r2.1)) <> (length (calls (trace r1.1)) + 1)%nat.
Proof. vm_compute. repeat split; discriminate. Qed.

(** C6: for a text that is not blank and not a key of the cache, which
    is where the claim stands in the flow of [translate_text], [translate_text] is one logical call when the text is within
    [max_chars], and otherwise one logical call for each chunk of
    [split_text], in order, each independent of the cache, the results
    concatenated without a separator; when all calls return, the result
    is stored in the cache under the unsplit text and returned; when one
    raises, the later chunks are not tried and the cache is left as it
    was. *)
Theorem C6_translate_text_on_miss service self text st :
  Py.strip text <> [] -> _cache st !! text = None ->
  let chunks :=
    if (len text <=? max_chars self)%Z then [text]
    else split_text text (max_chars self) in
  translate_text service self text st
  = (do results <- mapM (_translate_once service self) chunks;
     do_ store text (concat results);
     ret (concat results)) st
  /\ match (translate_text service self text st).2 with
     | Return v =>
         calls (trace (translate_text service self text st).1)
         = calls (trace st) ++ chunks
         /\ _cache (translate_text service self text st).1
            = <[text := v]> (_cache st)
     | Raise _ =>
         _cache (translate_text service self text st).1 = _cache st
         /\ exists k, (k < length chunks)%nat
              /\ calls (trace (translate_text service self text st).1)
                 = calls (trace st) ++ take (S k) chunks
     end
  /\ (forall c chunk st0,
        _translate_once service self chunk (set_cache c st0)
        = (set_cache c (_translate_once service self chunk st0).1,
           (_translate_once service self chunk st0).2)).
Proof.
  intros Hne Hc chunks. split; [by apply translate_text_miss|].
  split; [by apply translate_text_miss_calls|].
  intros c chunk st0. apply _translate_once_cache.
Qed.

Lemma C6_translate_text_on_miss_witness :
  let self := demo_translator 1500 2 in
  let r := translate_text mock_service self (Py.u "Hello world.") fresh in
  calls (trace r.1) = calls (trace fresh) ++ [Py.u "Hello world."]
  /\ _cache r.1 = <[Py.u "Hello world." := Py.u "译Hello world."]> (_cache fresh).
Proof.
  cbv zeta.
  pose proof (proj1 (proj2 (C6_translate_text_on_miss mock_service
                (demo_translator 1500 2) (Py.u "Hello world.") fresh
                ltac:(vm_compute; discriminate) ltac:(reflexivity)))) as H.
  exact H.
Defined.





(** C9: a text that is empty or all whitespace is returned as it is, and
    the state is left as it was: no service call, no change of the
    cache. *)
Theorem C9_blank_text_unchanged service self text st :
  blank text = true ->
  translate_text service self text st = (st, Return text).
Proof. intros Hb. apply translate_text_blank. by apply strip_nil. Qed.

Lemma C9_blank_text_unchanged_witness :
  blank (Py.u "   ") = true
  /\ translate_text mock_service (demo_translator 1500 2) (Py.u "   ") fresh
     = (fresh, Return (Py.u "   "))
  /\ translate_text mock_service (demo_translator 1500 2) [] fresh
     = (fresh, Return []).
Proof.
  split; [reflexivity|].
  split; apply C9_blank_text_unchanged; reflexivity.
Defined.

(** C10: [normalize_epub_path] is [posixpath.normpath] with the leading
    [.] and [/] characters removed, so its result begins with neither;
    ".images/pic.png" becomes "images/pic.png". The keys of the image map
    are the normalised names of the image resources, a resolved reference
    is the normalised join of the document's directory and the source,
    and a key is found exactly when it is the normalised name of a
    resource. *)
Theorem C10_normalized_paths :
  (forall path,
      normalize_epub_path path
      = Py.lstrip_chars (Py.u "./") (posixpath.normpath path))
  /\ (forall path c rest,
        normalize_epub_path path = c :: rest -> c <> 0x2E%N /\ c <> 0x2F%N)
  /\ normalize_epub_path (Py.u ".images/pic.png") = Py.u "images/pic.png"
  /\ (forall src doc_path resolved,
        resolve_image_src src doc_path = Some resolved ->
        resolved
        = normalize_epub_path (posixpath.join (posixpath.dirname doc_path) src))
  /\ (forall items temp_dir key,
        is_Some (build_image_map items temp_dir !! key)
        <-> exists item, In item items /\ normalize_epub_path (get_name item) = key)
  /\ (forall items temp_dir src doc_path resolved,
        resolve_image_src src doc_path = Some resolved ->
        is_Some (build_image_map items temp_dir !! resolved)
        <-> exists item,
              In item items
              /\ normalize_epub_path (get_name item)
                 = normalize_epub_path
                     (posixpath.join (posixpath.dirname doc_path) src)).
Proof.
  assert (Hres : forall src doc_path resolved,
             resolve_image_src src doc_path = Some resolved ->
             resolved
             = normalize_epub_path
                 (posixpath.join (posixpath.dirname doc_path) src)).
  { intros src doc_path resolved. unfold resolve_image_src.
    destruct (negb (Py.truthy src) || Py.startswith src (Py.u "data:")); [done|].
    by intros [= <-]. }
  split; [done|].
  split; [exact normalize_epub_path_head|].
  split; [vm_compute; reflexivity|].
  split; [exact Hres|].
  split; [exact build_image_map_found|].
  intros items temp_dir src doc_path resolved Hr.
  rewrite <- (Hres _ _ _ Hr). apply build_image_map_found.
Qed.

Lemma C10_normalized_paths_witness :
  resolve_image_src (Py.u ".images/pic.png") (Py.u "ch1.xhtml")
  = Some (Py.u "images/pic.png")
  /\ is_Some (build_image_map [ {| get_name := Py.u ".images/pic.png" |} ]
                (Py.u "/tmp/x") !! Py.u "images/pic.png").
Proof.
  assert (Hr : resolve_image_src (Py.u ".images/pic.png") (Py.u "ch1.xhtml")
               = Some (Py.u "images/pic.png")) by (vm_compute; reflexivity).
  split; [exact Hr|].
  apply (proj2 (proj2 (proj2 (proj2 (proj2 C10_normalized_paths))))
           _ _ _ _ _ Hr).
  eexists. split; [by left|]. vm_compute. reflexivity.
Defined.

(** * Further properties of the code *)

(** ** The splitter and the client *)

Section NeverEmpty.

Variable service : list event -> request -> outcome.
Variable self : OllamaTranslator.

Lemma split_text_fold_nonempty max_chars l : forall chunks buf,
  Forall (fun c : str => c <> []) chunks ->
  Forall (fun c : str => c <> [])
    (flush (fold_left (split_text_step max_chars) l (chunks, buf))).
Proof.
  induction l as [|part l IH]; intros chunks buf Hch.
  - cbn [fold_left flush]. destruct (Py.truthy buf) eqn:Hb; [|done].
    apply Forall_app. split; [done|]. constructor; [|done].
    by apply truthy_true.
  - cbn [fold_left]. unfold split_text_step at 2.
    destruct (Py.truthy part); cbn [negb]; [|by apply IH].
    destruct (len buf + len part + 1 <=? max_chars)%Z; [by apply IH|].
    apply IH. destruct (Py.truthy buf) eqn:Hb; [|done].
    apply Forall_app. split; [done|]. constructor; [|done].
    by apply truthy_true.
Qed.

Lemma split_text_chunks_nonempty text max_chars :
  Forall (fun c : str => c <> []) (split_text text max_chars).
Proof. rewrite split_text_fold. by apply split_text_fold_nonempty. Qed.

Lemma split_text_nonblank text max_chars :
  blank text = false -> split_text text max_chars <> [].
Proof.
  intros Hb Hnil. pose proof (split_text_squash text max_chars) as Hs.
  rewrite Hnil in Hs. symmetry in Hs. apply squash_nil_blank in Hs. congruence.
Qed.

Lemma _translate_once_nonempty text st v :
  text <> [] ->
  (_translate_once service self text st).2 = Return v -> v <> [].
Proof.
  intros Hne Hr.
  destruct (_translate_once_effect service self text st)
    as (_ & _ & new & _ & _ & _ & Ho).
  rewrite Hr in Ho. destruct Ho as (_ & _ & raw & _ & ->).
  by apply cleaned_or_text_nonempty.
Qed.

Lemma mapM_translate_once_nonempty chunks : forall st results,
  Forall (fun c : str => c <> []) chunks ->
  (mapM (_translate_once service self) chunks st).2 = Return results ->
  Forall (fun c : str => c <> []) results.
Proof.
  induction chunks as [|chunk chunks IH]; intros st results Hch.
  - intros [= <-]. done.
  - apply Forall_cons in Hch as [Hc Hch]. rewrite mapM_cons.
    pose proof (_translate_once_nonempty chunk st) as Hv.
    destruct (_translate_once service self chunk st) as [st1 [v|e]];
      cbn [snd] in *; [|done].
    specialize (IH st1).
    destruct (mapM (_translate_once service self) chunks st1) as [st2 [vs|e]];
      cbn [snd] in *; [|done].
    intros [= <-]. constructor; [by apply Hv|by apply IH].
Qed.

Lemma concat_nonempty (l : list str) :
  l <> [] -> Forall (fun c : str => c <> []) l -> concat l <> [].
Proof.
  destruct l as [|c l]; [done|]. intros _ Hl.
  apply Forall_cons in Hl as [Hc _]. cbn. by destruct c.
Qed.

Lemma chunks_of_nonempty text :
  blank text = false ->
  chunks_of self text <> [] /\ Forall (fun c : str => c <> []) (chunks_of self text).
Proof.
  intros Hb. unfold chunks_of.
  destruct (len text <=? max_chars self)%Z.
  - split; [done|]. constructor; [|done]. by intros ->.
  - split; [by apply split_text_nonblank|apply split_text_chunks_nonempty].
Qed.

End NeverEmpty.

(** X1: a successful translation of a text that is not blank is never the
    empty string, and the cache never comes to hold an empty value: when
    no value of the cache is empty before a call of [translate_text],
    none is after it, whatever the call does. *)
Theorem X1_translation_never_empty service self text st :
  cache_values_nonempty st ->
  cache_values_nonempty (translate_text service self text st).1
  /\ (forall v, blank text = false ->
        (translate_text service self text st).2 = Return v -> v <> []).
Proof.
  intros Hcache.
  destruct (blank text) eqn:Hb.
  { rewrite translate_text_blank by by apply strip_nil. by split. }
  assert (Hne : Py.strip text <> []).
  { intros H. apply strip_nil in H. congruence. }
  destruct (_cache st !! text) as [cached|] eqn:Hc.
  { rewrite (translate_text_hit service self text st cached) by done.
    split; [done|]. intros v _ [= <-]. by eapply Hcache. }
  rewrite translate_text_miss by done.
  destruct (chunks_of_nonempty self text Hb) as [Hch1 Hch2].
  pose proof (mapM_translate_once_effect service self (chunks_of self text) st)
    as (H1 & _ & H3).
  pose proof (mapM_translate_once_nonempty service self (chunks_of self text) st)
    as Hres.
  unfold bind, store, modify, ret.
  destruct (mapM (_translate_once service self) (chunks_of self text) st)
    as [st1 [results|e]]; cbn [fst snd set_cache _cache] in *.
  - destruct H3 as [_ Hlen].
    assert (Hv : concat results <> []).
    { apply concat_nonempty; [|by apply Hres].
      intros ->. by destruct (chunks_of self text). }
    split; [|by intros v _ [= <-]].
    intros k v. cbn [set_cache _cache]. rewrite H1.
    destruct (decide (text = k)) as [->|Hk].
    + rewrite lookup_insert_eq. by intros [= <-].
    + rewrite lookup_insert_ne by done. apply Hcache.
  - split; [|done]. intros k v. rewrite H1. apply Hcache.
Qed.

Lemma X1_translation_never_empty_witness :
  cache_values_nonempty fresh
  /\ (translate_text mock_service (demo_translator 5 2) (Py.u "Hi. Yo.") fresh).2
     = Return (Py.u "译Hi.译Yo.")
  /\ Py.u "译Hi.译Yo." <> [].
Proof.
  assert (Hf : cache_values_nonempty fresh).
  { intros k v. change (_cache fresh) with (∅ : gmap str str).
    by rewrite lookup_empty. }
  assert (Hr : (translate_text mock_service (demo_translator 5 2)
                  (Py.u "Hi. Yo.") fresh).2 = Return (Py.u "译Hi.译Yo."))
    by (vm_compute; reflexivity).
  split; [exact Hf|]. split; [exact Hr|].
  exact (proj2 (X1_translation_never_empty mock_service (demo_translator 5 2)
                  (Py.u "Hi. Yo.") fresh Hf) _ eq_refl Hr).
Defined.

Section CacheKept.

Variable service : list event -> request -> outcome.
Variable self : OllamaTranslator.

Lemma translate_text_cache_kept text st k v :
  _cache st !! k = Some v ->
  _cache (translate_text service self text st).1 !! k = Some v.
Proof.
  intros Hk. destruct (translate_text_cache service self text st) as [_ H].
  destruct (translate_text service self text st) as [st' [w|e]];
    cbn [fst snd] in *; [|by rewrite H].
  destruct H as [[-> _]|(_ & Hmiss & ->)]; [done|].
  rewrite lookup_insert_ne; [done|]. intros ->. congruence.
Qed.

Lemma run_cache_kept texts : forall st k v,
  _cache st !! k = Some v ->
  _cache (run service self texts st).1 !! k = Some v.
Proof.
  induction texts as [|text texts IH]; intros st k v Hk; [done|].
  cbn [run].
  pose proof (translate_text_cache_kept text st k v Hk) as H1.
  destruct (translate_text service self text st) as [st1 r]; cbn [fst] in H1.
  specialize (IH st1 k v H1).
  by destruct (run service self texts st1) as [st2 rs].
Qed.

End CacheKept.

(** X2: the cache only grows: an entry, once there, is never removed and
    never gets another value, whatever calls of [translate_text] follow
    and whether they return or raise. *)
Theorem X2_cache_entries_are_kept service self texts st k v :
  _cache st !! k = Some v ->
  _cache (run service self texts st).1 !! k = Some v.
Proof. apply run_cache_kept. Qed.

Lemma X2_cache_entries_are_kept_witness :
  let self := demo_translator 1500 2 in
  let st1 := (translate_text mock_service self (Py.u "Hello.") fresh).1 in
  _cache st1 !! Py.u "Hello." = Some (Py.u "译Hello.")
  /\ _cache (run down_service self [Py.u "Bye."; Py.u "Hello."] st1).1
       !! Py.u "Hello." = Some (Py.u "译Hello.").
Proof.
  cbv zeta.
  assert (H : _cache (translate_text mock_service (demo_translator 1500 2)
                        (Py.u "Hello.") fresh).1 !! Py.u "Hello."
              = Some (Py.u "译Hello.")) by (vm_compute; reflexivity).
  split; [exact H|].
  exact (X2_cache_entries_are_kept down_service (demo_translator 1500 2)
           [Py.u "Bye."; Py.u "Hello."] _ _ _ H).
Defined.

(** ** The cleaner, line by line *)

Section CleanedLines.

Let nobreak (l : str) : Prop := Forall (fun c => Py.islinebreak c = false) l.

Lemma splitlines_no_break s : forall after_cr,
  Forall nobreak (Py.splitlines_from after_cr s).
Proof.
  induction s as [|c s IH]; intros after_cr; [constructor|].
  cbn [Py.splitlines_from].
  destruct (after_cr && (c =? 10)%N); [apply IH|].
  destruct (Py.islinebreak c) eqn:Hc.
  - constructor; [constructor|apply IH].
  - specialize (IH false).
    destruct (Py.splitlines_from false s) as [|l ls].
    + constructor; [|done]. by constructor.
    + apply Forall_cons in IH as [Hl Hls]. constructor; [|done].
      by constructor.
Qed.

Lemma dropwhile_Forall (P : N -> Prop) f s :
  Forall P s -> Forall P (Py.dropwhile f s).
Proof.
  induction 1 as [|c s Hc Hs IH]; [done|]. cbn.
  destruct (f c); [done|by constructor].
Qed.

Lemma strip_Forall (P : N -> Prop) s : Forall P s -> Forall P (Py.strip s).
Proof.
  intros H. unfold Py.strip, Py.rstrip, Py.lstrip, Py.rstrip_by, Py.lstrip_by.
  apply Forall_rev, dropwhile_Forall, Forall_rev. by apply dropwhile_Forall.
Qed.

Lemma splitlines_line l : forall rest,
  nobreak l ->
  Py.splitlines_from false (l ++ 10%N :: rest) = l :: Py.splitlines_from false rest.
Proof.
  induction l as [|c l IH]; intros rest Hl; [done|].
  apply Forall_cons in Hl as [Hc Hl].
  cbn [app Py.splitlines_from andb]. rewrite Hc, IH by done. done.
Qed.

Lemma splitlines_single l :
  nobreak l -> l <> [] -> Py.splitlines_from false l = [l].
Proof.
  induction l as [|c l IH]; intros Hl Hne; [done|].
  apply Forall_cons in Hl as [Hc Hl].
  cbn [Py.splitlines_from andb]. rewrite Hc.
  destruct l as [|c' l]; [done|]. by rewrite IH.
Qed.

Lemma splitlines_join ls :
  Forall (fun l => l <> [] /\ nobreak l) ls ->
  Py.splitlines (Py.join (Py.u "\n") ls) = ls.
Proof.
  unfold Py.splitlines. induction 1 as [|l ls [Hne Hl] Hls IH]; [done|].
  destruct ls as [|l2 ls]; [by apply splitlines_single|].
  rewrite join_cons. change (Py.u "\n" ++ ?x) with (10%N :: x).
  by rewrite splitlines_line, IH.
Qed.

Lemma strip_fix_nonblank l : Py.strip l = l -> l <> [] -> blank l = false.
Proof.
  intros Hs Hne. destruct (blank l) eqn:Hb; [|done].
  apply strip_nil in Hb. congruence.
Qed.

Lemma strip_join_lines sep ls :
  Forall (fun l => Py.strip l = l /\ l <> []) ls ->
  Py.strip (Py.join sep ls) = Py.join sep ls.
Proof.
  induction 1 as [|l ls [Hs Hne] Hls IH]; [done|].
  destruct ls as [|l2 ls]; [done|].
  rewrite join_cons.
  apply Forall_cons in Hls as [[Hs2 Hne2] _].
  destruct (join_head sep l2 ls) as [rest HJ].
  assert (HbJ : blank (Py.join sep (l2 :: ls)) = false).
  { rewrite HJ, blank_app. by rewrite (strip_fix_nonblank l2). }
  rewrite (strip_app_nonblank l sep _ (strip_fix_nonblank l Hs Hne) HbJ).
  assert (Hr : Py.rstrip (Py.join sep (l2 :: ls)) = Py.join sep (l2 :: ls)).
  { rewrite <- IH. apply rstrip_strip. }
  assert (Hl : Py.lstrip l = l) by (rewrite <- Hs; apply lstrip_strip).
  by rewrite Hr, Hl.
Qed.

Lemma kept_lines_shape raw :
  Forall (fun l => (Py.strip l = l /\ l <> [])
                   /\ nobreak l
                   /\ is_marker_line INFERENCE_PREFIXES l = false)
    (kept_lines raw).
Proof.
  unfold kept_lines, Py.splitlines.
  pose proof (splitlines_no_break raw false) as Hnb.
  induction Hnb as [|line lines Hline _ IH]; [constructor|].
  cbn [map List.filter].
  destruct (Py.truthy (Py.strip line)) eqn:Ht; [|done].
  cbn [List.filter].
  destruct (is_marker_line INFERENCE_PREFIXES (Py.strip line)) eqn:Hm;
    cbn [negb]; [done|].
  constructor; [|done].
  split; [split; [apply strip_strip|by apply truthy_true]|].
  split; [by apply strip_Forall|done].
Qed.

Lemma extract_translation_only_lines raw :
  stage1 raw = None ->
  extract_translation_only raw = Py.join (Py.u "\n") (kept_lines raw).
Proof.
  intros H1. rewrite extract_translation_only_stages, H1.
  unfold stage2. fold (kept_lines raw).
  apply strip_join_lines.
  eapply List.Forall_impl; [|apply kept_lines_shape]. by intros l [? _].
Qed.

End CleanedLines.

(** X3: what [extract_translation_only] returns has no whitespace around
    it. When no tag content is used, its lines are exactly the trimmed
    lines of the response that are neither blank nor begin with a
    marker, in order: splitting the result into lines gives them back,
    and none of them is empty, untrimmed or a marker line. *)
Theorem X3_cleaned_text_lines raw :
  Py.strip (extract_translation_only raw) = extract_translation_only raw
  /\ (stage1 raw = None ->
      Py.splitlines (extract_translation_only raw) = kept_lines raw
      /\ Forall (fun l => l <> [] /\ Py.strip l = l
                          /\ is_marker_line INFERENCE_PREFIXES l = false)
           (Py.splitlines (extract_translation_only raw))).
Proof.
  split.
  - rewrite extract_translation_only_stages. unfold stage1, stage2.
    destruct (TRANSLATION_TAG_RE_search raw) as [content|];
      [destruct (Py.truthy (Py.strip content))|]; apply strip_strip.
  - intros H1. rewrite extract_translation_only_lines by done.
    assert (Hsplit : Py.splitlines (Py.join (Py.u "\n") (kept_lines raw))
                     = kept_lines raw).
    { apply splitlines_join.
      eapply List.Forall_impl; [|apply kept_lines_shape].
      by intros l ([_ ?] & ? & _). }
    rewrite Hsplit. split; [done|].
    eapply List.Forall_impl; [|apply kept_lines_shape].
    by intros l ([? ?] & _ & ?).
Qed.

Lemma X3_cleaned_text_lines_witness :
  stage1 (Py.u "Reasoning: first\n  你好  \n\nSource: x\n世界") = None
  /\ Py.splitlines
       (extract_translation_only (Py.u "Reasoning: first\n  你好  \n\nSource: x\n世界"))
     = kept_lines (Py.u "Reasoning: first\n  你好  \n\nSource: x\n世界")
  /\ kept_lines (Py.u "Reasoning: first\n  你好  \n\nSource: x\n世界")
     = [Py.u "你好"; Py.u "世界"].
Proof.
  assert (H : stage1 (Py.u "Reasoning: first\n  你好  \n\nSource: x\n世界") = None)
    by (vm_compute; reflexivity).
  split; [exact H|]. split; [|vm_compute; reflexivity].
  exact (proj1 (proj2 (X3_cleaned_text_lines _) H)).
Defined.

(** ** Replies without a translation, and the cost of a call *)

Section Replies.

Variable service : list event -> request -> outcome.
Variable self : OllamaTranslator.

Lemma attempt_reply text st r data raw :
  service (trace st) (generate_request self text) = Responds r ->
  status_code r <> 404%Z -> ~ (400 <= status_code r < 600)%Z ->
  body r = Some data -> raw_text_of data = Return raw ->
  attempt service self text st
  = (log (Post (generate_request self text)) st,
     Return (cleaned_or_text raw text)).
Proof.
  intros H H404 Hs Hb Hraw.
  unfold attempt, bind, requests_post, lift, ret. rewrite H.
  apply Z.eqb_neq in H404. rewrite H404. unfold raise_for_status, response_json.
  assert ((400 <=? status_code r)%Z && (status_code r <? 600)%Z = false) as ->.
  { apply andb_false_iff.
    destruct (Z.leb_spec 400 (status_code r)); [right|by left].
    apply Z.ltb_ge. lia. }
  by rewrite Hb, Hraw.
Qed.

Lemma _translate_once_reply text st r data raw :
  (0 <= retry self)%Z ->
  service (trace st ++ [Call text]) (generate_request self text) = Responds r ->
  status_code r <> 404%Z -> ~ (400 <= status_code r < 600)%Z ->
  body r = Some data -> raw_text_of data = Return raw ->
  _translate_once service self text st
  = (log (Post (generate_request self text)) (log (Call text) st),
     Return (cleaned_or_text raw text)).
Proof.
  intros Hretry H H404 Hs Hb Hraw. unfold _translate_once, bind, modify.
  destruct (Z.to_nat (retry self + 1)) as [|n] eqn:Hn; [lia|].
  cbn [retry_loop]. unfold try_except.
  by rewrite (attempt_reply text (log (Call text) st) r data raw).
Qed.

Lemma Forall_client_request_attempt text new :
  attempt_events self text new ->
  calls new = [] /\ sleeps new = [] /\ (length (posts new) <= 2)%nat
  /\ Forall (client_request self) (posts new).
Proof.
  assert (Hg : client_request self (generate_request self text))
    by (split; [by left|done]).
  assert (Hc : client_request self (chat_request self text))
    by (split; [by right|done]).
  intros [-> | ->]; cbn [posts calls sleeps flat_map app length];
    (repeat split; [lia|]); by repeat apply List.Forall_cons.
Qed.

Lemma retry_loop_within n : forall last_err text st,
  exists new,
    trace (retry_loop service self n last_err text st).1 = trace st ++ new
    /\ calls new = []
    /\ (length (posts new) <= 2 * n)%nat
    /\ (length (sleeps new) <= n)%nat
    /\ Forall (client_request self) (posts new)
    /\ Forall (fun seconds => seconds = 1%Z) (sleeps new).
Proof.
  induction n as [|n IH]; intros last_err text st.
  - exists []. cbn. rewrite app_nil_r. by repeat split; try constructor.
  - cbn [retry_loop]. unfold try_except.
    destruct (attempt_effect service self text st) as (_ & _ & (new & Ht & Hev) & _).
    destruct (Forall_client_request_attempt text new Hev) as (H1 & H2 & H3 & H4).
    destruct (attempt service self text st) as [st1 [v|e]]; cbn [fst snd] in *.
    + exists new. rewrite H2. cbn [length].
      repeat split; [done..|lia|lia|done|constructor].
    + unfold bind, sleep, modify.
      destruct (IH (Some e) text (log (Sleep 1) st1))
        as (new' & Ht' & H1' & H2' & H3' & H4' & H5').
      exists (new ++ [Sleep 1] ++ new'). split.
      { rewrite Ht'. cbn [log trace]. by rewrite Ht, <- !app_assoc. }
      rewrite !calls_app, !posts_app, !sleeps_app, H1, H2, H1', !length_app.
      cbn [calls posts sleeps flat_map app length].
      repeat split; [lia|lia|by apply Forall_app|by constructor].
Qed.

Lemma _translate_once_within text st :
  exists new,
    trace (_translate_once service self text st).1 = trace st ++ new
    /\ within_retries self (Z.to_nat (retry self + 1)) 1 new.
Proof.
  unfold _translate_once, bind, modify.
  destruct (retry_loop_within (Z.to_nat (retry self + 1)) None text
              (log (Call text) st)) as (new & Ht & H1 & H2 & H3 & H4 & H5).
  destruct (retry_loop service self _ None text (log (Call text) st))
    as [st' r]; cbn [fst snd log trace] in *.
  exists (Call text :: new). split; [by rewrite Ht, <- app_assoc|].
  unfold within_retries. cbn [calls posts sleeps flat_map app].
  fold (calls new) (posts new) (sleeps new). rewrite H1. cbn [length].
  repeat split; [lia|lia|lia|done..].
Qed.

Lemma within_retries_app n k1 k2 a b :
  within_retries self n k1 a -> within_retries self n k2 b ->
  within_retries self n (k1 + k2) (a ++ b).
Proof.
  intros (A1 & A2 & A3 & A4 & A5) (B1 & B2 & B3 & B4 & B5).
  unfold within_retries.
  rewrite !calls_app, !posts_app, !sleeps_app, !length_app.
  repeat split; [lia|nia|nia|by apply Forall_app..].
Qed.

Lemma within_retries_nil n k : within_retries self n k [].
Proof. unfold within_retries. cbn. repeat split; try constructor; lia. Qed.

Lemma mapM_translate_once_within chunks : forall st,
  exists new,
    trace (mapM (_translate_once service self) chunks st).1 = trace st ++ new
    /\ within_retries self (Z.to_nat (retry self + 1)) (length chunks) new.
Proof.
  induction chunks as [|chunk chunks IH]; intros st.
  - exists []. cbn [mapM ret fst]. rewrite app_nil_r.
    split; [done|apply within_retries_nil].
  - rewrite mapM_cons.
    destruct (_translate_once_within chunk st) as (new & Ht & Hw).
    destruct (_translate_once service self chunk st) as [st1 [v|e]];
      cbn [fst snd] in *.
    + destruct (IH st1) as (new' & Ht' & Hw').
      destruct (mapM (_translate_once service self) chunks st1) as [st2 [vs|e]];
        cbn [fst snd] in *;
        (exists (new ++ new'); split; [by rewrite Ht', Ht, <- app_assoc|];
         by apply (within_retries_app _ 1 (length chunks))).
    + exists new. split; [done|].
      rewrite <- (app_nil_r new).
      apply (within_retries_app _ 1 (length chunks)); [done|].
      apply within_retries_nil.
Qed.

Lemma translate_text_within text st :
  exists new,
    trace (translate_text service self text st).1 = trace st ++ new
    /\ within_retries self (Z.to_nat (retry self + 1))
         (length (chunks_of self text)) new.
Proof.
  destruct (decide (Py.strip text = [])) as [Hb|Hb].
  { rewrite translate_text_blank by done. exists []. cbn [fst].
    rewrite app_nil_r. split; [done|apply within_retries_nil]. }
  destruct (_cache st !! text) as [cached|] eqn:Hc.
  { rewrite (translate_text_hit service self text st cached) by done.
    exists []. cbn [fst]. rewrite app_nil_r.
    split; [done|apply within_retries_nil]. }
  rewrite translate_text_miss by done. unfold bind, store, modify, ret.
  destruct (mapM_translate_once_within (chunks_of self text) st) as (new & Ht & Hw).
  destruct (mapM (_translate_once service self) (chunks_of self text) st)
    as [st1 [vs|e]]; cbn [fst snd set_cache trace] in *; by exists new.
Qed.

End Replies.

(** X4: a reply that leaves nothing after cleaning makes the source text
    its own translation. When the service answers the first request for
    a text with a good status and a body whose text has only marker lines
    or is empty, [translate_text] makes no other request, returns the
    source text as it is and stores it in the cache as the translation of
    itself. *)
Theorem X4_reply_without_translation service self text st r data raw :
  Py.strip text <> [] -> _cache st !! text = None ->
  (len text <= max_chars self)%Z -> (0 <= retry self)%Z ->
  service (trace st ++ [Call text]) (generate_request self text) = Responds r ->
  status_code r <> 404%Z -> ~ (400 <= status_code r < 600)%Z ->
  body r = Some data -> raw_text_of data = Return raw ->
  extract_translation_only raw = [] ->
  translate_text service self text st
  = (set_cache (<[text := text]> (_cache st))
       (log (Post (generate_request self text)) (log (Call text) st)),
     Return text).
Proof.
  intros Hb Hc Hlen Hretry Hs H404 Hst Hbody Hraw Hclean.
  rewrite translate_text_miss by done. unfold chunks_of.
  apply Z.leb_le in Hlen. rewrite Hlen. unfold bind, store, modify.
  rewrite mapM_cons.
  rewrite (_translate_once_reply service self text st r data raw) by done.
  unfold cleaned_or_text. rewrite Hclean. cbn [Py.truthy mapM].
  unfold ret. cbn [concat]. by rewrite app_nil_r.
Qed.

Lemma X4_reply_without_translation_witness :
  translate_text (reply_service (Py.u "Translation: 你好"))
    (demo_translator 1500 2) (Py.u "Hello.") fresh
  = (set_cache (<[Py.u "Hello." := Py.u "Hello."]> (_cache fresh))
       (log (Post (generate_request (demo_translator 1500 2) (Py.u "Hello.")))
          (log (Call (Py.u "Hello.")) fresh)),
     Return (Py.u "Hello.")).
Proof.
  apply (X4_reply_without_translation _ _ _ _
           {| status_code := 200;
              body := Some (JDict [ (Py.u "response", JStr (Py.u "Translation: 你好")) ]) |}
           (JDict [ (Py.u "response", JStr (Py.u "Translation: 你好")) ])
           (Py.u "Translation: 你好")).
  - vm_compute. discriminate.
  - reflexivity.
  - vm_compute. discriminate.
  - vm_compute. discriminate.
  - reflexivity.
  - cbn. lia.
  - cbn. lia.
  - reflexivity.
  - vm_compute. reflexivity.
  - vm_compute. reflexivity.
Defined.

(** X5: what a call of [translate_text] can cost. It makes at most one
    logical call for each chunk of the text, at most [retry + 1] attempts
    for a logical call, at most two requests for an attempt and at most
    one pause, of one second, for an attempt; every request goes to
    [/api/generate] or [/api/chat] under the configured address, with a
    timeout of 120 seconds. This holds whether the call returns or
    raises. *)
Theorem X5_requests_are_bounded service self text st :
  exists new,
    trace (translate_text service self text st).1 = trace st ++ new
    /\ (length (calls new) <= length (chunks_of self text))%nat
    /\ (length (posts new)
        <= 2 * Z.to_nat (retry self + 1) * length (calls new))%nat
    /\ (length (sleeps new) <= Z.to_nat (retry self + 1) * length (calls new))%nat
    /\ Forall (client_request self) (posts new)
    /\ Forall (fun seconds => seconds = 1%Z) (sleeps new).
Proof. apply translate_text_within. Qed.

(** ** Merging, again *)

Lemma merge_runs_fix l : no_adjacent_text l -> merge_runs l = l.
Proof.
  induction l as [|seg l IH]; [done|]. intros H.
  destruct seg as [a|src].
  - cbn [merge_runs]. destruct l as [|[b|src] l']; [done|done|].
    cbn [no_adjacent_text] in H. by rewrite IH.
  - cbn [merge_runs]. rewrite IH; [done|]. by destruct l.
Qed.

Lemma merge_runs_srcs l : srcs_of (merge_runs l) = srcs_of l.
Proof.
  induction l as [|[a|src] l IH]; [done| |].
  - cbn [merge_runs]. cbn [srcs_of flat_map app]. fold (srcs_of l).
    rewrite <- IH. by destruct (merge_runs l) as [|[b|src'] m].
  - cbn [merge_runs srcs_of flat_map app]. fold (srcs_of l) (srcs_of (merge_runs l)).
    by rewrite IH.
Qed.

Lemma merge_runs_text l : text_of (merge_runs l) = text_of l.
Proof.
  induction l as [|[a|src] l IH]; [done| |].
  - cbn [merge_runs]. cbn [text_of flat_map]. fold (text_of l).
    rewrite <- IH. destruct (merge_runs l) as [|[b|src'] m]; [done| |done].
    cbn [text_of flat_map]. by rewrite app_assoc.
  - cbn [merge_runs text_of flat_map app]. fold (text_of l) (text_of (merge_runs l)).
    by rewrite IH.
Qed.

Lemma merge_runs_length l : (length (merge_runs l) <= length l)%nat.
Proof.
  induction l as [|[a|src] l IH]; [done| |]; cbn [merge_runs length].
  - destruct (merge_runs l) as [|[b|src'] m]; cbn [length] in *; lia.
  - lia.
Qed.

(** X6: merging twice is merging once, and [merge_text_segments] leaves a
    list as it is when no two text segments of it are next to each
    other; so it does to what [extract_inline_segments] returns. *)
Theorem X6_merge_is_idempotent :
  (forall segments,
      merge_text_segments (merge_text_segments segments)
      = merge_text_segments segments)
  /\ (forall segments,
        no_adjacent_text segments -> merge_text_segments segments = segments)
  /\ (forall n,
        merge_text_segments (extract_inline_segments n) = extract_inline_segments n).
Proof.
  assert (H : forall segments,
             merge_text_segments (merge_text_segments segments)
             = merge_text_segments segments).
  { intros segments. rewrite !merge_text_segments_runs.
    apply merge_runs_fix, merge_runs_no_adjacent. }
  split; [exact H|]. split; [|intros n; apply H].
  intros segments Hna. rewrite merge_text_segments_runs. by apply merge_runs_fix.
Qed.

Lemma X6_merge_is_idempotent_witness :
  no_adjacent_text [text_segment (Py.u "A"); img_segment (Py.u "a.png");
                    text_segment (Py.u "B")]
  /\ merge_text_segments [text_segment (Py.u "A"); img_segment (Py.u "a.png");
                          text_segment (Py.u "B")]
     = [text_segment (Py.u "A"); img_segment (Py.u "a.png");
        text_segment (Py.u "B")].
Proof.
  assert (H : no_adjacent_text [text_segment (Py.u "A"); img_segment (Py.u "a.png");
                                text_segment (Py.u "B")]) by (cbn; exact I).
  split; [exact H|].
  exact (proj1 (proj2 X6_merge_is_idempotent) _ H).
Defined.

(** X7: merging loses nothing and invents nothing. The image sources of
    the merged list are those of the list, in order; the text of the
    merged list is the text of the list; and the merged list is not
    longer. For a subtree this gives the image sources and the text of
    [extract_inline_segments] from the nodes in document order. *)
Theorem X7_merge_keeps_content :
  (forall segments,
      srcs_of (merge_text_segments segments) = srcs_of segments
      /\ text_of (merge_text_segments segments) = text_of segments
      /\ (length (merge_text_segments segments) <= length segments)%nat)
  /\ (forall n,
        srcs_of (extract_inline_segments n) = srcs_of (document_order n)
        /\ text_of (extract_inline_segments n) = text_of (document_order n)).
Proof.
  assert (H : forall segments,
             srcs_of (merge_text_segments segments) = srcs_of segments
             /\ text_of (merge_text_segments segments) = text_of segments
             /\ (length (merge_text_segments segments) <= length segments)%nat).
  { intros segments. rewrite merge_text_segments_runs.
    split; [apply merge_runs_srcs|]. split; [apply merge_runs_text|].
    apply merge_runs_length. }
  split; [exact H|]. intros n. unfold extract_inline_segments.
  rewrite walk_document_order. cbn [app].
  destruct (H (document_order n)) as (H1 & H2 & _). done.
Qed.

(** ** The splitter at its edges *)

Lemma split_text_fold_count max_chars l : forall chunks buf,
  (length (flush (fold_left (split_text_step max_chars) l (chunks, buf)))
   <= length chunks + (if Py.truthy buf then 1 else 0)
      + length (List.filter Py.truthy l))%nat.
Proof.
  induction l as [|part l IH]; intros chunks buf.
  - cbn [fold_left flush List.filter length].
    destruct (Py.truthy buf); rewrite ?length_app; cbn [length]; lia.
  - cbn [fold_left List.filter]. unfold split_text_step at 2.
    destruct (Py.truthy part) eqn:Hp; cbn [negb]; [|apply IH].
    cbn [length].
    destruct (len buf + len part + 1 <=? max_chars)%Z.
    + etrans; [apply IH|].
      destruct (Py.truthy (Py.strip _)), (Py.truthy buf); lia.
    + etrans; [apply IH|]. rewrite Hp.
      destruct (Py.truthy buf); rewrite ?length_app; cbn [length]; lia.
Qed.

Lemma split_text_fold_small max_chars l : forall chunks buf,
  (max_chars < 2)%Z ->
  flush (fold_left (split_text_step max_chars) l (chunks, buf))
  = chunks ++ (if Py.truthy buf then [buf] else []) ++ List.filter Py.truthy l.
Proof.
  induction l as [|part l IH]; intros chunks buf Hm.
  - cbn [fold_left flush List.filter].
    destruct (Py.truthy buf); by rewrite ?app_nil_r.
  - cbn [fold_left List.filter]. unfold split_text_step at 2.
    destruct (Py.truthy part) eqn:Hp; cbn [negb]; [|by apply IH].
    assert (Hlen : (1 <= len part)%Z).
    { apply truthy_true in Hp. destruct part; [done|]. unfold len. cbn [length]. lia. }
    assert (Hbuf : (0 <= len buf)%Z) by (unfold len; lia).
    destruct (Z.leb_spec (len buf + len part + 1) max_chars); [lia|].
    rewrite IH by done. rewrite Hp.
    destruct (Py.truthy buf); by rewrite <- ?app_assoc.
Qed.

Lemma len_cons c (s : str) : len (c :: s) = (len s + 1)%Z.
Proof. unfold len. cbn [length]. lia. Qed.

Lemma room_cons part l : room (part :: l) = (len part + 1 + room l)%Z.
Proof. reflexivity. Qed.

Lemma room_split s : forall in_sep after_term,
  (room (SENTENCE_SPLIT_RE_split_from in_sep after_term s) <= len s + 1)%Z.
Proof.
  induction s as [|c s IH]; intros in_sep after_term; [by vm_compute|].
  cbn [SENTENCE_SPLIT_RE_split_from]. rewrite len_cons.
  assert (Hs : (0 <= len s)%Z) by (unfold len; lia).
  destruct (Py.isspace c && (in_sep || after_term)).
  - specialize (IH true false). destruct in_sep; cbv iota; [lia|].
    rewrite room_cons. change (len []) with 0%Z. lia.
  - specialize (IH false (SENTENCE_TERMINATOR c)).
    destruct (SENTENCE_SPLIT_RE_split_from false (SENTENCE_TERMINATOR c) s)
      as [|p ps].
    + rewrite room_cons, len_cons. change (len []) with 0%Z.
      change (room []) with 0%Z in *. lia.
    + rewrite room_cons in *. rewrite len_cons. lia.
Qed.

Lemma split_text_fold_room max_chars l : forall buf,
  (len buf + room l <= max_chars)%Z -> Py.strip buf = buf ->
  exists buf',
    fold_left (split_text_step max_chars) l ([], buf) = ([], buf')
    /\ Py.strip buf' = buf'.
Proof.
  induction l as [|part l IH]; intros buf Hroom Hbuf; [by exists buf|].
  cbn [fold_left]. rewrite room_cons in Hroom.
  assert (Hr : (0 <= room l)%Z).
  { clear. induction l as [|p l IH]; [done|].
    rewrite room_cons. unfold len. lia. }
  unfold split_text_step at 2.
  destruct (Py.truthy part); cbn [negb].
  - destruct (Z.leb_spec (len buf + len part + 1) max_chars); [|lia].
    apply IH; [|apply strip_strip].
    pose proof (len_strip (buf ++ Py.u " " ++ part)) as Hs.
    rewrite !len_app in Hs. change (len (Py.u " ")) with 1%Z in Hs. lia.
  - apply IH; [|done]. unfold len in *. lia.
Qed.

(** X8: the chunks of [split_text], for every text and every budget, a
    budget of zero or less too. No chunk is the empty string; there are
    no more chunks than pieces of the sentence split that are not empty;
    a text that is not blank has a chunk; and with a budget below two
    characters every such piece is a chunk of its own. *)
Theorem X8_chunks_at_the_edges text max_chars :
  Forall (fun chunk : str => chunk <> []) (split_text text max_chars)
  /\ (length (split_text text max_chars) <= length (pieces text))%nat
  /\ (blank text = false -> split_text text max_chars <> [])
  /\ ((max_chars < 2)%Z -> split_text text max_chars = pieces text).
Proof.
  split; [apply split_text_chunks_nonempty|].
  split; [|split; [apply split_text_nonblank|]].
  - rewrite split_text_fold. etrans; [apply split_text_fold_count|]. done.
  - intros Hm. rewrite split_text_fold. by rewrite split_text_fold_small.
Qed.

Lemma X8_chunks_at_the_edges_witness :
  blank (Py.u "Hi there. Yo!") = false
  /\ (0 < 2)%Z
  /\ split_text (Py.u "Hi there. Yo!") 0 <> []
  /\ split_text (Py.u "Hi there. Yo!") 0 = [Py.u "Hi there."; Py.u "Yo!"].
Proof.
  assert (Hb : blank (Py.u "Hi there. Yo!") = false) by (vm_compute; reflexivity).
  assert (Hm : (0 < 2)%Z) by lia.
  pose proof (X8_chunks_at_the_edges (Py.u "Hi there. Yo!") 0) as (_ & _ & H3 & H4).
  split; [exact Hb|]. split; [exact Hm|]. split; [exact (H3 Hb)|].
  rewrite (H4 Hm). vm_compute. reflexivity.
Defined.

(** X9: a text shorter than the budget is never split: [split_text]
    returns its sentences joined by single spaces as the one chunk, and
    no chunk when the text has no sentence. *)
Theorem X9_short_text_is_one_chunk text max_chars :
  (len text < max_chars)%Z ->
  split_text text max_chars
  = match sentences text with
    | [] => []
    | ss => [Py.join (Py.u " ") ss]
    end.
Proof.
  intros Hlen.
  destruct (split_text_groups max_chars text) as (groups & Hg & Hc).
  revert Hg. rewrite split_text_fold.
  destruct (split_text_fold_room max_chars (SENTENCE_SPLIT_RE_split text) [])
    as (buf & -> & Hbuf); [|done|].
  { pose proof (room_split text false false) as Hr.
    unfold SENTENCE_SPLIT_RE_split. change (len []) with 0%Z. lia. }
  cbn [flush]. destruct (Py.truthy buf) eqn:Ht; cbn [app]; intros Hg.
  - inversion Hg as [|c g cs gs Hcg Hrest]; subst.
    inversion Hrest; subst. cbn [concat] in Hc. rewrite app_nil_r in Hc.
    subst g. unfold chunk_of in Hcg. rewrite Hbuf in Hcg.
    destruct (sentences text) as [|s ss]; [|by rewrite Hcg].
    cbn in Hcg. subst buf. done.
  - inversion Hg; subst. cbn [concat] in Hc. by rewrite <- Hc.
Qed.

Lemma X9_short_text_is_one_chunk_witness :
  (len (Py.u "Hi  there.   Yo!") < 20)%Z
  /\ split_text (Py.u "Hi  there.   Yo!") 20 = [Py.u "Hi  there. Yo!"].
Proof.
  assert (H : (len (Py.u "Hi  there.   Yo!") < 20)%Z) by (vm_compute; reflexivity).
  split; [exact H|].
  rewrite (X9_short_text_is_one_chunk _ _ H). vm_compute. reflexivity.
Defined.

(** ** Paths, by their components *)

Section PathShape.

Local Abbreviation sep := posixpath.sep.
Local Abbreviation nosep := (fun c : str => ~ In posixpath.sep c).
Local Abbreviation dots := (Py.inb (Py.u "./")).

Lemma split_no_sep s : Forall nosep (Py.split sep s).
Proof.
  induction s as [|c s IH]; [constructor; [intros []|done]|].
  cbn [Py.split]. destruct (N.eqb_spec c sep) as [->|Hc].
  - constructor; [intros []|done].
  - destruct (Py.split sep s) as [|p ps].
    + constructor; [|done]. intros [?|[]]. congruence.
    + apply Forall_cons in IH as [Hp Hps]. constructor; [|done].
      intros [?|?]; [congruence|done].
Qed.

Lemma split_piece c : nosep c -> Py.split sep c = [c].
Proof.
  induction c as [|x c IH]; intros H; [done|]. cbn [Py.split].
  destruct (N.eqb_spec x sep) as [->|Hx]; [exfalso; apply H; by left|].
  rewrite IH; [done|]. intros Hin. apply H. by right.
Qed.

Lemma split_piece_sep c r :
  nosep c -> Py.split sep (c ++ sep :: r) = c :: Py.split sep r.
Proof.
  induction c as [|x c IH]; intros H; cbn [app Py.split].
  - by rewrite N.eqb_refl.
  - destruct (N.eqb_spec x sep) as [->|Hx]; [exfalso; apply H; by left|].
    rewrite IH; [done|]. intros Hin. apply H. by right.
Qed.

Lemma split_join cs :
  cs <> [] -> Forall nosep cs -> Py.split sep (Py.join (Py.u "/") cs) = cs.
Proof.
  intros Hne H. induction H as [|c cs Hc Hcs IH]; [done|].
  destruct cs as [|c2 cs]; [by apply split_piece|].
  rewrite join_cons. change (Py.u "/" ++ ?x) with (sep :: x).
  rewrite split_piece_sep by done. by rewrite IH.
Qed.

Lemma normpath_step_plain k acc c :
  plain_component c -> posixpath.normpath_step k acc c = acc ++ [c].
Proof.
  intros (H1 & H2 & H3 & _). unfold posixpath.normpath_step, Py.eqb.
  by rewrite !bool_decide_eq_false_2 by done.
Qed.

Lemma normpath_fold_plain k cs : forall acc,
  Forall plain_component cs ->
  fold_left (posixpath.normpath_step k) cs acc = acc ++ cs.
Proof.
  induction cs as [|c cs IH]; intros acc H; [by rewrite app_nil_r|].
  apply Forall_cons in H as [Hc Hcs]. cbn [fold_left].
  rewrite normpath_step_plain, IH by done. by rewrite <- app_assoc.
Qed.

Lemma normpath_step_pop k acc x :
  x <> Py.u ".." ->
  posixpath.normpath_step k (acc ++ [x]) (Py.u "..") = acc.
Proof.
  intros Hx. unfold posixpath.normpath_step.
  rewrite last_snoc. unfold Py.eqb at 4. rewrite (bool_decide_eq_false_2 _ Hx).
  assert (match acc ++ [x] with [] => true | _ => false end = false) as ->
    by (by destruct acc).
  rewrite andb_false_r. cbn. apply removelast_last.
Qed.

Lemma normpath_step_push k acc :
  last acc = Some (Py.u "..") ->
  posixpath.normpath_step k acc (Py.u "..") = acc ++ [Py.u ".."].
Proof.
  intros H. unfold posixpath.normpath_step. rewrite H.
  by rewrite (proj2 (eqb_true (Py.u "..") (Py.u "..")) eq_refl), orb_true_r.
Qed.

Lemma normpath_step_shape k j ns c :
  nosep c -> Forall plain_component ns ->
  exists j' ns',
    posixpath.normpath_step k (repeat (Py.u "..") j ++ ns) c
    = repeat (Py.u "..") j' ++ ns'
    /\ Forall plain_component ns'.
Proof.
  intros Hc Hns.
  destruct (decide (c = [])) as [->|H1]; [by exists j, ns|].
  destruct (decide (c = Py.u ".")) as [->|H2]; [by exists j, ns|].
  destruct (decide (c = Py.u "..")) as [->|H3].
  - destruct ns as [|x ns _] using rev_ind.
    + rewrite app_nil_r. destruct j as [|j].
      * destruct k as [|k]; [by exists 1%nat, []|by exists 0%nat, []].
      * exists (S (S j)), []. rewrite app_nil_r. split; [|done].
        rewrite normpath_step_push.
        { symmetry. apply (repeat_cons (S j)). }
        cbn [repeat]. rewrite repeat_cons. apply last_snoc.
    + apply Forall_app in Hns as [Hns Hx]. apply Forall_cons in Hx as [Hx _].
      exists j, ns. rewrite app_assoc, normpath_step_pop; [done|].
      by destruct Hx as (_ & _ & ? & _).
  - exists j, (ns ++ [c]). rewrite normpath_step_plain, <- app_assoc by done.
    split; [done|]. apply Forall_app. by split; [|constructor].
Qed.

Lemma normpath_fold_shape k comps : forall j ns,
  Forall nosep comps -> Forall plain_component ns ->
  exists j' ns',
    fold_left (posixpath.normpath_step k) comps (repeat (Py.u "..") j ++ ns)
    = repeat (Py.u "..") j' ++ ns'
    /\ Forall plain_component ns'.
Proof.
  induction comps as [|c comps IH]; intros j ns Hcomps Hns; [by exists j, ns|].
  apply Forall_cons in Hcomps as [Hc Hcomps]. cbn [fold_left].
  destruct (normpath_step_shape k j ns c Hc Hns) as (j1 & ns1 & -> & Hns1).
  by apply IH.
Qed.

Lemma forallb_repeat (f : N -> bool) x k :
  f x = true -> forallb f (repeat x k) = true.
Proof. intros H. induction k as [|k IH]; [done|]. cbn. by rewrite H, IH. Qed.

Lemma lstrip_dotdots j ns :
  Py.lstrip_chars (Py.u "./") (Py.join (Py.u "/") (repeat (Py.u "..") j ++ ns))
  = Py.lstrip_chars (Py.u "./") (Py.join (Py.u "/") ns).
Proof.
  induction j as [|j IH]; [done|]. cbn [repeat app].
  destruct (repeat (Py.u "..") j ++ ns) as [|c l].
  - by rewrite <- IH.
  - rewrite join_cons, <- IH, app_assoc.
    unfold Py.lstrip_chars, Py.lstrip_by. by rewrite dropwhile_app_all.
Qed.

Lemma join_tail sp c l :
  Py.join sp (c :: l)
  = c ++ match l with [] => [] | _ => sp ++ Py.join sp l end.
Proof. destruct l; [by rewrite app_nil_r|done]. Qed.

Lemma dropwhile_split f s :
  exists pre, s = pre ++ Py.dropwhile f s /\ forallb f pre = true.
Proof.
  induction s as [|c s (pre & Hs & Hpre)]; [by exists []|].
  cbn [Py.dropwhile]. destruct (f c) eqn:Hc; [|by exists []].
  exists (c :: pre). cbn. rewrite Hc, Hpre. split; [by f_equal|done].
Qed.

Lemma lstrip_plain ns :
  Forall plain_component ns ->
  exists cs,
    Py.lstrip_chars (Py.u "./") (Py.join (Py.u "/") ns) = Py.join (Py.u "/") cs
    /\ Forall plain_component cs /\ head_kept cs.
Proof.
  induction 1 as [|n ns Hn Hns (cs & Hcs & Hp & Hh)]; [by exists []|].
  unfold Py.lstrip_chars, Py.lstrip_by in *.
  destruct (Py.dropwhile dots n) as [|x n'] eqn:Hd.
  - pose proof (proj1 (dropwhile_nil _ _) Hd) as Hall.
    destruct ns as [|n2 ns]; [by exists []|].
    exists cs. rewrite join_cons, dropwhile_app_all by done.
    by rewrite dropwhile_app_all.
  - exists ((x :: n') :: ns).
    assert (Hstop : forallb dots n = false).
    { destruct (forallb dots n) eqn:E; [|done].
      apply dropwhile_nil in E. congruence. }
    pose proof (dropwhile_head _ _ _ _ Hd) as Hx.
    split; [|split; [constructor; [|done]|done]].
    + rewrite (join_tail _ n), (join_tail _ (x :: n')).
      by rewrite dropwhile_app_stop, Hd.
    + destruct Hn as (_ & _ & _ & Hsep).
      split; [done|]. split; [by intros [= -> _]|].
      split; [by intros [= -> _]|].
      intros Hin. apply Hsep.
      destruct (dropwhile_split dots n) as (pre & Hpre & _).
      rewrite Hpre, Hd. apply in_or_app. by right.
Qed.

Lemma normalize_epub_path_shape path :
  exists cs,
    normalize_epub_path path = Py.join (Py.u "/") cs
    /\ Forall plain_component cs /\ head_kept cs.
Proof.
  unfold normalize_epub_path, posixpath.normpath.
  destruct (Py.truthy path); cbn [negb]; [|by exists []].
  cbv zeta.
  set (k := if Py.startswith path (Py.u "/") then _ else _).
  destruct (normpath_fold_shape k (Py.split sep path) 0 []
              (split_no_sep path) (List.Forall_nil _)) as (j & ns & Hf & Hns).
  cbn [repeat app] in Hf. rewrite Hf.
  destruct (Py.truthy _); [|by exists []].
  unfold Py.lstrip_chars, Py.lstrip_by.
  rewrite dropwhile_app_all by (by apply forallb_repeat).
  fold (Py.lstrip_by dots (Py.join (Py.u "/") (repeat (Py.u "..") j ++ ns))).
  fold (Py.lstrip_chars (Py.u "./") (Py.join (Py.u "/") (repeat (Py.u "..") j ++ ns))).
  rewrite lstrip_dotdots. by apply lstrip_plain.
Qed.

Lemma plain_components_join cs :
  Forall plain_component cs -> components (Py.join (Py.u "/") cs) = cs.
Proof.
  intros H. unfold components. destruct cs as [|c cs]; [done|].
  destruct (join_head (Py.u "/") c cs) as [rest Hj].
  assert (Py.truthy (Py.join (Py.u "/") (c :: cs)) = true) as ->.
  { rewrite Hj. apply Forall_cons in H as [(Hc & _) _]. by destruct c. }
  apply split_join; [done|].
  eapply List.Forall_impl; [|exact H]. by intros a (_ & _ & _ & ?).
Qed.

Lemma normalize_epub_path_fix cs :
  Forall plain_component cs -> head_kept cs ->
  normalize_epub_path (Py.join (Py.u "/") cs) = Py.join (Py.u "/") cs.
Proof.
  intros Hp Hh. destruct cs as [|c cs]; [by vm_compute|].
  destruct c as [|x c]; [done|]. cbn [head_kept] in Hh.
  pose proof (plain_components_join _ Hp) as Hcomp. unfold components in Hcomp.
  destruct (join_head (Py.u "/") (x :: c) cs) as [rest Hj].
  assert (Ht : Py.truthy (Py.join (Py.u "/") ((x :: c) :: cs)) = true)
    by (by rewrite Hj).
  rewrite Ht in Hcomp.
  assert (Hs : Py.startswith (Py.join (Py.u "/") ((x :: c) :: cs)) (Py.u "/") = false).
  { rewrite Hj. cbn. apply andb_false_iff. left. apply N.eqb_neq. intros <-.
    done. }
  unfold normalize_epub_path, posixpath.normpath.
  rewrite Ht, Hs. cbn [negb]. cbv zeta. rewrite Hcomp.
  rewrite normpath_fold_plain by done. cbn [repeat app]. rewrite Ht.
  unfold Py.lstrip_chars, Py.lstrip_by. rewrite Hj. cbn [app Py.dropwhile].
  by rewrite Hh.
Qed.

End PathShape.

(** X11: a normalized path has only names as components: none is empty,
    [.] or [..], so the path has no doubled slash, no slash at either end
    and never leads out of the directory it is taken in. *)
Theorem X11_normalized_components_are_names path :
  Forall plain_component (components (normalize_epub_path path)).
Proof.
  destruct (normalize_epub_path_shape path) as (cs & -> & Hp & _).
  by rewrite plain_components_join.
Qed.

(** X12: [normalize_epub_path] is idempotent; every key of the image map
    and every reference that [resolve_image_src] returns is its own
    normal form. *)
Theorem X12_normalize_is_idempotent :
  (forall path,
      normalize_epub_path (normalize_epub_path path) = normalize_epub_path path)
  /\ (forall items temp_dir key out_path,
        build_image_map items temp_dir !! key = Some out_path ->
        normalize_epub_path key = key)
  /\ (forall src doc_path resolved,
        resolve_image_src src doc_path = Some resolved ->
        normalize_epub_path resolved = resolved).
Proof.
  assert (H : forall path,
             normalize_epub_path (normalize_epub_path path)
             = normalize_epub_path path).
  { intros path. destruct (normalize_epub_path_shape path) as (cs & -> & Hp & Hh).
    by apply normalize_epub_path_fix. }
  split; [exact H|]. split.
  - intros items temp_dir key out_path Hk.
    destruct (proj1 (build_image_map_found items temp_dir key))
      as (item & _ & <-); [by eexists|]. apply H.
  - intros src doc_path resolved. unfold resolve_image_src.
    destruct (negb (Py.truthy src) || Py.startswith src (Py.u "data:")); [done|].
    intros [= <-]. apply H.
Qed.

Lemma X12_normalize_is_idempotent_witness :
  resolve_image_src (Py.u "../images/./a.png") (Py.u "text/ch1.xhtml")
  = Some (Py.u "images/a.png")
  /\ normalize_epub_path (Py.u "images/a.png") = Py.u "images/a.png".
Proof.
  assert (H : resolve_image_src (Py.u "../images/./a.png") (Py.u "text/ch1.xhtml")
              = Some (Py.u "images/a.png")) by (vm_compute; reflexivity).
  split; [exact H|].
  exact (proj2 (proj2 X12_normalize_is_idempotent) _ _ _ H).
Defined.

(** ** Image files *)

Lemma replace_no_sep s :
  ~ In posixpath.sep (Py.replace posixpath.sep (Py.u "__") s).
Proof.
  unfold Py.replace. intros Hin. apply in_flat_map in Hin as (c & _ & Hc).
  destruct (c =? posixpath.sep)%N eqn:E.
  - by destruct Hc as [?|[?|[]]].
  - apply N.eqb_neq in E. destruct Hc as [?|[]]. congruence.
Qed.

Lemma replace_head path :
  Py.startswith
    (Py.replace posixpath.sep (Py.u "__") (normalize_epub_path path)) (Py.u ".")
  = false.
Proof.
  destruct (normalize_epub_path path) as [|x r] eqn:E; [done|].
  destruct (normalize_epub_path_head path x r E) as [H1 H2].
  unfold Py.replace. cbn [flat_map].
  destruct (x =? posixpath.sep)%N eqn:Ex; [by apply N.eqb_eq in Ex|].
  change (Py.u ".") with [46%N]. cbn [app Py.startswith].
  apply andb_false_iff. left. apply N.eqb_neq. congruence.
Qed.

(** X10: every file of the image map lies directly in [temp_dir]. Its
    path is [temp_dir], a slash unless [temp_dir] is empty or ends with
    one, and a file name that has no slash and does not begin with a
    dot, whatever the name of the image in the archive. *)
Theorem X10_image_files_stay_in_temp_dir items temp_dir name out_path :
  build_image_map items temp_dir !! name = Some out_path ->
  exists safe_name,
    safe_name = Py.replace posixpath.sep (Py.u "__") name
    /\ ~ In posixpath.sep safe_name
    /\ Py.startswith safe_name (Py.u ".") = false
    /\ out_path
       = if negb (Py.truthy temp_dir) || Py.endswith temp_dir (Py.u "/")
         then temp_dir ++ safe_name
         else temp_dir ++ Py.u "/" ++ safe_name.
Proof.
  intros Hk.
  destruct (proj1 (build_image_map_found items temp_dir name))
    as (item & _ & Hname); [by eexists|].
  rewrite build_image_map_lookup in Hk.
  destruct (existsb _ items); [|done]. injection Hk as <-.
  exists (Py.replace posixpath.sep (Py.u "__") name).
  split; [done|]. split; [apply replace_no_sep|].
  split; [rewrite <- Hname; apply replace_head|].
  unfold out_path_of, posixpath.join.
  pose proof (replace_no_sep name) as Hsep.
  destruct (Py.replace posixpath.sep (Py.u "__") name) as [|c r]; [done|].
  change (Py.u "/") with [posixpath.sep] at 1. cbn [Py.startswith].
  destruct (N.eqb_spec posixpath.sep c) as [Hc|_]; [|done].
  exfalso. apply Hsep. by left.
Qed.

Lemma X10_image_files_stay_in_temp_dir_witness :
  build_image_map [ {| get_name := Py.u "../OEBPS/images/a.png" |} ] (Py.u "/tmp/x")
    !! Py.u "OEBPS/images/a.png" = Some (Py.u "/tmp/x/OEBPS__images__a.png").
Proof.
  assert (H : is_Some (build_image_map
                         [ {| get_name := Py.u "../OEBPS/images/a.png" |} ]
                         (Py.u "/tmp/x") !! Py.u "OEBPS/images/a.png")).
  { apply build_image_map_found. eexists. split; [by left|].
    vm_compute. reflexivity. }
  destruct H as [out_path H]. rewrite H.
  destruct (X10_image_files_stay_in_temp_dir _ _ _ _ H) as (safe & -> & _ & _ & ->).
  vm_compute. reflexivity.
Defined.

(** ** The address of the service *)

Lemma rstrip_chars_head chars s c r :
  rev (Py.rstrip_chars chars s) = c :: r -> Py.inb chars c = false.
Proof.
  unfold Py.rstrip_chars, Py.rstrip_by. rewrite rev_involutive.
  apply dropwhile_head.
Qed.

(** X13: the address of the service is kept without the slashes at its
    end. Addresses that differ only in such slashes give the same
    translator, the address kept never ends with a slash, and a request
    goes to it followed by [/api/generate], with one slash between the
    two. *)
Theorem X13_trailing_slashes_of_url model url0 max_chars0 retry0 k text :
  OllamaTranslator_init model (url0 ++ repeat posixpath.sep k) max_chars0 retry0
  = OllamaTranslator_init model url0 max_chars0 retry0
  /\ Py.endswith (url (OllamaTranslator_init model url0 max_chars0 retry0).1)
       (Py.u "/") = false
  /\ req_url (generate_request
                (OllamaTranslator_init model url0 max_chars0 retry0).1 text)
     = Py.rstrip_chars (Py.u "/") url0 ++ Py.u "/api/generate".
Proof.
  split; [|split; [|done]].
  - unfold OllamaTranslator_init. do 2 f_equal.
    unfold Py.rstrip_chars, Py.rstrip_by. f_equal.
    rewrite rev_app_distr, rev_repeat.
    apply dropwhile_app_all. by apply forallb_repeat.
  - cbn [OllamaTranslator_init fst url]. unfold Py.endswith.
    destruct (rev (Py.rstrip_chars (Py.u "/") url0)) as [|c r] eqn:E; [done|].
    apply rstrip_chars_head in E. change (Py.u "/") with [47%N] in *.
    cbn [rev app Py.startswith Py.inb existsb] in *.
    apply orb_false_iff in E as [E _]. rewrite N.eqb_sym in E. by rewrite E.
Qed.

(** * The document writer *)

(** ** Splitting at a character *)

Lemma split_nonempty sp s : Py.split sp s <> [].
Proof.
  destruct s as [|c s]; [done|]. cbn [Py.split].
  destruct (c =? sp)%N; [done|]. by destruct (Py.split sp s).
Qed.

Lemma join_split sp s : Py.join [sp] (Py.split sp s) = s.
Proof.
  induction s as [|c s IH]; [done|]. cbn [Py.split].
  pose proof (split_nonempty sp s) as Hne.
  destruct (N.eqb_spec c sp) as [->|Hc].
  - destruct (Py.split sp s) as [|q qs]; [done|].
    rewrite join_cons, IH. done.
  - destruct (Py.split sp s) as [|q qs]; [done|].
    rewrite join_tail in IH |- *. rewrite <- app_comm_cons. f_equal. exact IH.
Qed.

Lemma split_free sp s : Forall (fun part => ~ In sp part) (Py.split sp s).
Proof.
  induction s as [|c s IH]; [constructor; [intros []|done]|].
  cbn [Py.split]. destruct (N.eqb_spec c sp) as [->|Hc].
  - constructor; [intros []|done].
  - destruct (Py.split sp s) as [|q qs].
    + constructor; [|done]. intros [?|[]]. congruence.
    + apply Forall_cons in IH as [Hq Hqs]. constructor; [|done].
      intros [?|?]; [congruence|done].
Qed.

Lemma split_without sp s : Py.inb s sp = false -> Py.split sp s = [s].
Proof.
  unfold Py.inb. induction s as [|c s IH]; [done|]. cbn [existsb Py.split].
  intros H. apply orb_false_iff in H as [Hc Hs].
  rewrite N.eqb_sym, Hc. by rewrite IH.
Qed.

(** ** Runs *)

Lemma spelled_app a b : spelled (a ++ b) = spelled a ++ spelled b.
Proof. apply flat_map_app. Qed.

Lemma pictures_of_app a b : pictures_of (a ++ b) = pictures_of a ++ pictures_of b.
Proof. apply flat_map_app. Qed.

Lemma spelled_line_runs parts :
  spelled (line_runs parts) = Py.join (Py.u "\n") parts.
Proof.
  induction parts as [|part parts IH]; [done|].
  destruct parts as [|part2 parts]; [cbn; by rewrite app_nil_r|].
  rewrite join_cons.
  change (spelled (line_runs (part :: part2 :: parts)))
    with (part ++ Py.u "\n" ++ spelled (line_runs (part2 :: parts))).
  by rewrite IH.
Qed.

Lemma pictures_of_line_runs parts : pictures_of (line_runs parts) = [].
Proof.
  induction parts as [|part parts IH]; [done|].
  by destruct parts as [|part2 parts].
Qed.

Lemma add_runs_nil p (d : list paragraph) : alter (add_runs []) p d = d.
Proof.
  apply list_alter_id. intros [s rs]. unfold add_runs. cbn.
  by rewrite app_nil_r.
Qed.

Lemma add_runs_app r1 r2 p (d : list paragraph) :
  alter (add_runs r2) p (alter (add_runs r1) p d) = alter (add_runs (r1 ++ r2)) p d.
Proof.
  rewrite list_alter_alter_eq. apply list_alter_ext; [|done].
  intros [s rs] _. unfold add_runs. cbn. by rewrite app_assoc.
Qed.

(** ** The text of a run *)

Section RunFacts.

Variable xml_char_ok : N -> bool.

Lemma as_read_plain c : run_separator c = false -> as_read c = c.
Proof.
  unfold run_separator, as_read. intros H.
  apply orb_false_iff in H as [_ H]. by rewrite H.
Qed.

Lemma append_to_run_ok text : forall stored bfr,
  (append_to_run xml_char_ok stored bfr text).2
  = forallb xml_char_ok bfr && forallb (writable xml_char_ok) text.
Proof.
  induction text as [|c text IH]; intros stored bfr; cbn [append_to_run forallb].
  - rewrite andb_true_r. by destruct (forallb xml_char_ok bfr).
  - unfold writable at 1. destruct (run_separator c); cbn [orb andb].
    + destruct (forallb xml_char_ok bfr); [|done]. by rewrite IH.
    + rewrite IH, forallb_app. cbn [forallb]. rewrite andb_true_r.
      by rewrite andb_assoc.
Qed.

Lemma append_to_run_prefix text : forall stored bfr,
  exists rest,
    stored ++ bfr ++ read_back text
    = (append_to_run xml_char_ok stored bfr text).1 ++ rest.
Proof.
  unfold read_back.
  induction text as [|c text IH]; intros stored bfr; cbn [append_to_run map].
  - destruct (forallb xml_char_ok bfr); cbn [fst].
    + exists []. by rewrite !app_nil_r.
    + by eexists.
  - destruct (run_separator c) eqn:Hc.
    + destruct (forallb xml_char_ok bfr); cbn [fst]; [|by eexists].
      destruct (IH (stored ++ bfr ++ [as_read c]) []) as [rest Hr].
      exists rest. rewrite <- Hr. cbn [app]. by rewrite <- !app_assoc.
    + destruct (IH stored (bfr ++ [c])) as [rest Hr].
      exists rest. rewrite <- Hr, (as_read_plain c Hc). by rewrite <- !app_assoc.
Qed.

Lemma append_to_run_stored text : forall stored bfr,
  (append_to_run xml_char_ok stored bfr text).2 = true ->
  (append_to_run xml_char_ok stored bfr text).1
  = stored ++ bfr ++ read_back text.
Proof.
  unfold read_back.
  induction text as [|c text IH]; intros stored bfr; cbn [append_to_run map].
  - destruct (forallb xml_char_ok bfr); cbn [fst snd]; [|done].
    by rewrite app_nil_r.
  - destruct (run_separator c) eqn:Hc.
    + destruct (forallb xml_char_ok bfr); cbn [fst snd]; [|done].
      intros H. rewrite IH by done. cbn [app]. by rewrite <- !app_assoc.
    + intros H. rewrite IH by done. rewrite (as_read_plain c Hc).
      by rewrite <- !app_assoc.
Qed.

(** What [paragraph.add_run(text)] does. *)
Lemma add_run_spec p text ds :
  exists stored,
    (add_run xml_char_ok p text ds).1
    = {| base := base ds;
         document := alter (add_runs [text_run stored]) p (document ds) |}
    /\ (exists rest, read_back text = stored ++ rest)
    /\ (add_run xml_char_ok p text ds).2
       = (if forallb (writable xml_char_ok) text then Done tt
          else Failed (ValueError text))
    /\ (forallb (writable xml_char_ok) text = true -> stored = read_back text).
Proof.
  unfold add_run.
  pose proof (append_to_run_ok text [] []) as Hok.
  pose proof (append_to_run_prefix text [] []) as Hpre.
  pose proof (append_to_run_stored text [] []) as Hst.
  destruct (append_to_run xml_char_ok [] [] text) as [stored ok].
  cbn [fst snd forallb andb app] in *. exists stored.
  split; [done|]. split; [done|]. rewrite <- Hok. split; [done|].
  intros ->. by apply Hst.
Qed.

Lemma read_back_app a b : read_back (a ++ b) = read_back a ++ read_back b.
Proof. apply map_app. Qed.

Lemma read_back_join parts :
  read_back (Py.join (Py.u "\n") parts)
  = Py.join (Py.u "\n") (map read_back parts).
Proof.
  induction parts as [|part parts IH]; [done|].
  destruct parts as [|part2 parts].
  { cbn [map]. rewrite !join_tail. by rewrite !app_nil_r. }
  cbn [map]. rewrite !join_cons, !read_back_app. cbn [map] in IH.
  by rewrite IH.
Qed.

Lemma writable_join parts :
  forallb (writable xml_char_ok) (Py.join (Py.u "\n") parts)
  = forallb (forallb (writable xml_char_ok)) parts.
Proof.
  induction parts as [|part parts IH]; [done|].
  destruct parts as [|part2 parts].
  { rewrite join_tail, app_nil_r. cbn [forallb]. by rewrite andb_true_r. }
  rewrite join_cons, !forallb_app, IH. by cbn.
Qed.

End RunFacts.

Section WriterFacts.

Variable service : list event -> request -> outcome.
Variable translator : OllamaTranslator.
Variable xml_char_ok : N -> bool.
Variable add_picture_ok : str -> bool.

Lemma in_document_translate_text text ds :
  in_document (translate_text service translator text) ds
  = ({| base := (translate_text service translator text (base ds)).1;
        document := document ds |},
     match (translate_text service translator text (base ds)).2 with
     | Return v => Done v
     | Raise e => Failed (TranslatorError e)
     end).
Proof.
  unfold in_document.
  by destruct (translate_text service translator text (base ds)) as [st' r].
Qed.

Lemma dbind_translate_text {B} text (k : str -> D B) ds :
  dbind (in_document (translate_text service translator text)) k ds
  = match translate_text service translator text (base ds) with
    | (st', Return v) => k v {| base := st'; document := document ds |}
    | (st', Raise e) =>
        ({| base := st'; document := document ds |}, Failed (TranslatorError e))
    end.
Proof.
  unfold dbind. rewrite in_document_translate_text.
  by destruct (translate_text service translator text (base ds)) as [st' [v|e]].
Qed.

(** The loop of [add_translated_text] over the lines of a translation. *)
Lemma add_lines_loop p n (f : nat * str -> D unit) parts :
  (forall idx part,
      f (idx, part)
      = dlet_ add_run xml_char_ok p part;
        if (Z.of_nat idx <? Z.of_nat n - 1)%Z then add_break p else dret tt) ->
  forall k ds,
  n = (k + length parts)%nat ->
  exists rs,
    (for_each f (combine (seq k (length parts)) parts) ds).1
    = {| base := base ds; document := alter (add_runs rs) p (document ds) |}
    /\ pictures_of rs = []
    /\ (exists rest,
          Py.join (Py.u "\n") (map read_back parts) = spelled rs ++ rest)
    /\ if forallb (forallb (writable xml_char_ok)) parts
       then (for_each f (combine (seq k (length parts)) parts) ds).2 = Done tt
            /\ rs = line_runs (map read_back parts)
       else exists part,
            (for_each f (combine (seq k (length parts)) parts) ds).2
            = Failed (ValueError part).
Proof.
  intros Hf. induction parts as [|part parts IH]; intros k ds Hn.
  - exists []. cbn. rewrite add_runs_nil. split; [by destruct ds|].
    split; [done|]. split; [by exists []|done].
  - cbn [length seq combine for_each forallb map]. rewrite Hf. unfold dbind.
    destruct (add_run_spec xml_char_ok p part ds)
      as (stored & H1 & [rest Hpre] & H2 & H3).
    destruct (add_run xml_char_ok p part ds) as [ds1 r1]. cbn [fst snd] in H1, H2.
    subst ds1 r1.
    destruct (forallb (writable xml_char_ok) part) eqn:Hw; cbn [andb].
    2:{ exists [text_run stored]. cbn [fst snd]. split; [done|]. split; [done|].
        split; [|by eexists].
        rewrite join_tail, Hpre. cbn [spelled flat_map]. rewrite app_nil_r.
        rewrite <- app_assoc. by eexists. }
    rewrite (H3 eq_refl) in *. clear H3 Hpre rest.
    destruct parts as [|part2 parts].
    + cbn [length] in Hn.
      destruct (Z.ltb_spec (Z.of_nat k) (Z.of_nat n - 1)); [lia|].
      exists [text_run (read_back part)]. cbn.
      split; [done|]. split; [done|]. split; [|done].
      exists []. by rewrite !app_nil_r.
    + destruct (Z.ltb_spec (Z.of_nat k) (Z.of_nat n - 1));
        [|cbn [length] in Hn; lia].
      unfold add_break, new_run. cbn [base document fst snd].
      rewrite add_runs_app. cbn [app].
      destruct (IH (S k)
                  {| base := base ds;
                     document :=
                       alter (add_runs [text_run (read_back part); break_run]) p
                         (document ds) |})
        as (rs & E1 & E2 & [rest E3] & E4); [cbn [length] in *; lia|].
      cbn [base document] in *.
      exists (text_run (read_back part) :: break_run :: rs).
      rewrite E1, !add_runs_app. cbn [app]. split; [done|].
      split; [exact E2|]. split.
      * exists rest. cbn [map] in E3 |- *. rewrite join_cons, E3.
        cbn [spelled flat_map app]. unfold spelled. by rewrite <- !app_assoc.
      * destruct (forallb (forallb (writable xml_char_ok)) (part2 :: parts)).
        -- destruct E4 as [E4 ->]. by split.
        -- exact E4.
Qed.

Lemma add_translated_text_runs p text ds :
  exists rs,
    (add_translated_text service translator xml_char_ok p text ds).1
    = {| base := (translate_text service translator text (base ds)).1;
         document := alter (add_runs rs) p (document ds) |}
    /\ pictures_of rs = []
    /\ match (translate_text service translator text (base ds)).2 with
       | Return translated =>
           (exists rest, read_back translated = spelled rs ++ rest)
           /\ (forallb (writable xml_char_ok) translated = true ->
               (add_translated_text service translator xml_char_ok p text ds).2
               = Done tt
               /\ spelled rs = read_back translated
               /\ (Py.strip text <> [] ->
                   rs = line_runs (map read_back (Py.split 0x0A translated))))
           /\ (forallb (writable xml_char_ok) translated = false ->
               exists part,
                 (add_translated_text service translator xml_char_ok p text ds).2
                 = Failed (ValueError part))
       | Raise e =>
           (add_translated_text service translator xml_char_ok p text ds).2
           = Failed (TranslatorError e)
           /\ rs = []
       end.
Proof.
  unfold add_translated_text.
  destruct (Py.truthy text) eqn:Ht; cbn [negb].
  2:{ apply truthy_false in Ht as ->. exists [].
      rewrite translate_text_blank by done. cbn [fst snd dret].
      rewrite add_runs_nil. split; [by destruct ds|]. split; [done|].
      split; [by exists []|]. split; [done|]. by cbn. }
  destruct (Py.truthy (Py.strip text)) eqn:Hs; cbn [negb].
  2:{ apply truthy_false in Hs.
      destruct (add_run_spec xml_char_ok p text ds)
        as (stored & H1 & [rest Hpre] & H2 & H3).
      exists [text_run stored].
      rewrite translate_text_blank by done. cbn [fst snd].
      split; [done|]. split; [done|]. cbn [spelled flat_map].
      rewrite app_nil_r. split; [by exists rest|]. rewrite H2. split.
      - intros Hw. rewrite Hw. split; [done|]. split; [by apply H3|done].
      - intros Hw. rewrite Hw. by eexists. }
  rewrite !dbind_translate_text.
  destruct (translate_text service translator text (base ds)) as [st' [v|e]];
    cbn [fst snd].
  2:{ exists []. by rewrite add_runs_nil. }
  pose proof (join_split 0x0A v) as Hj. change [10%N] with (Py.u "\n") in Hj.
  destruct (Py.inb v 0x0A) eqn:Hin.
  - unfold enumerate.
    destruct (add_lines_loop p (length (Py.split 0x0A v))
                (fun '(idx, part) =>
                   dlet_ add_run xml_char_ok p part;
                   if (Z.of_nat idx
                       <? Z.of_nat (length (Py.split 0x0A v)) - 1)%Z
                   then add_break p
                   else dret tt)
                (Py.split 0x0A v) (fun _ _ => eq_refl) 0
                {| base := st'; document := document ds |} eq_refl)
      as (rs & E1 & E2 & E3 & E4).
    exists rs. split; [exact E1|]. split; [exact E2|].
    rewrite <- (writable_join xml_char_ok), Hj in E4.
    rewrite <- read_back_join, Hj in E3. split; [exact E3|].
    destruct (forallb (writable xml_char_ok) v); split; try done.
    intros _. destruct E4 as [E4 ->]. split; [done|]. split; [|done].
    by rewrite spelled_line_runs, <- read_back_join, Hj.
  - rewrite split_without by done.
    destruct (add_run_spec xml_char_ok p v {| base := st'; document := document ds |})
      as (stored & H1 & [rest Hpre] & H2 & H3).
    exists [text_run stored]. cbn [base document] in H1.
    split; [done|]. split; [done|]. cbn [spelled flat_map].
    rewrite app_nil_r. split; [by exists rest|]. rewrite H2. split.
    + intros Hw. rewrite Hw. split; [done|]. split; [by apply H3|].
      intros _. by rewrite (H3 Hw).
    + intros Hw. rewrite Hw. by eexists.
Qed.

End WriterFacts.

(** X14: what [add_translated_text] puts into a paragraph. The call adds
    runs to the paragraph and changes no other; the runs hold no picture,
    and what they spell is the beginning of what [translate_text] returns
    for the text, read as the document gives it back, which is with a
    newline for a carriage return. When a run takes every character of
    the translation, the call returns and the runs spell all of it; for a
    text that is not blank they are then the lines of the translation,
    one text run for a line and one break between two lines. When a run
    does not take some character, the call raises [ValueError]. When the
    translator raises, nothing is added. *)
Theorem X14_runs_spell_the_translation service translator xml_char_ok p text ds :
  exists rs,
    (add_translated_text service translator xml_char_ok p text ds).1
    = {| base := (translate_text service translator text (base ds)).1;
         document := alter (add_runs rs) p (document ds) |}
    /\ pictures_of rs = []
    /\ match (translate_text service translator text (base ds)).2 with
       | Return translated =>
           (exists rest, read_back translated = spelled rs ++ rest)
           /\ (forallb (writable xml_char_ok) translated = true ->
               (add_translated_text service translator xml_char_ok p text ds).2
               = Done tt
               /\ spelled rs = read_back translated
               /\ (Py.strip text <> [] ->
                   rs = line_runs (map read_back (Py.split 0x0A translated))))
           /\ (forallb (writable xml_char_ok) translated = false ->
               exists part,
                 (add_translated_text service translator xml_char_ok p text ds).2
                 = Failed (ValueError part))
       | Raise e =>
           (add_translated_text service translator xml_char_ok p text ds).2
           = Failed (TranslatorError e)
           /\ rs = []
       end.
Proof. apply add_translated_text_runs. Qed.

Lemma X14_runs_spell_the_translation_witness :
  Py.strip (Py.u "Hi") <> []
  /\ forallb (writable xml_1_0_char) (Py.u "甲" ++ 0x0D%N :: Py.u "乙\n丙") = true
  /\ add_translated_text (reply_service (Py.u "<translation>甲" ++ 0x0D%N :: Py.u "乙\n丙</translation>")) (demo_translator 1500 2)
       xml_1_0_char 0 (Py.u "Hi")
       {| base := fresh; document := [ {| style := None; runs := [] |} ] |}
     = ({| base := (translate_text (reply_service (Py.u "<translation>甲" ++ 0x0D%N :: Py.u "乙\n丙</translation>"))
                      (demo_translator 1500 2) (Py.u "Hi") fresh).1;
           document :=
             [ {| style := None;
                  runs := [text_run (Py.u "甲\n乙"); break_run;
                           text_run (Py.u "丙")] |} ] |},
        Done tt).
Proof.
  assert (Hs : Py.strip (Py.u "Hi") <> []) by (vm_compute; discriminate).
  assert (Hw : forallb (writable xml_1_0_char) (Py.u "甲" ++ 0x0D%N :: Py.u "乙\n丙") = true)
    by (vm_compute; reflexivity).
  split; [exact Hs|]. split; [exact Hw|].
  destruct (X14_runs_spell_the_translation (reply_service (Py.u "<translation>甲" ++ 0x0D%N :: Py.u "乙\n丙</translation>"))
              (demo_translator 1500 2) xml_1_0_char 0 (Py.u "Hi")
              {| base := fresh; document := [ {| style := None; runs := [] |} ] |})
    as (rs & H1 & _ & H3).
  assert (E : (translate_text (reply_service (Py.u "<translation>甲" ++ 0x0D%N :: Py.u "乙\n丙</translation>"))
                 (demo_translator 1500 2) (Py.u "Hi") fresh).2
              = Return (Py.u "甲" ++ 0x0D%N :: Py.u "乙\n丙")) by (vm_compute; reflexivity).
  cbn [base] in H3. rewrite E in H3. destruct H3 as (_ & H3 & _).
  destruct (H3 Hw) as (Hd & _ & H5). rewrite (H5 Hs) in H1.
  destruct (add_translated_text _ _ _ _ _ _) as [ds' r]. cbn [fst snd] in *.
  subst ds' r. vm_compute. reflexivity.
Defined.

(** ** Blocks *)

Section BlockFacts.

Variable service : list event -> request -> outcome.
Variable translator : OllamaTranslator.
Variable xml_char_ok : N -> bool.
Variable add_picture_ok : str -> bool.

Lemma add_segment_runs p image_map doc_path seg ds :
  exists rs,
    document (add_segment service translator xml_char_ok add_picture_ok p image_map
                doc_path seg ds).1
    = alter (add_runs rs) p (document ds)
    /\ ((add_segment service translator xml_char_ok add_picture_ok p image_map
           doc_path seg ds).2 = Done tt ->
        pictures_of rs = omap (picture_for image_map doc_path) (srcs_of [seg])).
Proof.
  destruct seg as [value|src]; cbn [add_segment].
  - destruct (add_translated_text_runs service translator xml_char_ok p value ds)
      as (rs & H1 & H2 & _).
    exists rs. rewrite H1. by split.
  - cbn [srcs_of flat_map app omap list_omap]. unfold picture_for.
    destruct (resolve_image_src src doc_path) as [resolved|];
      [|exists []; by rewrite add_runs_nil].
    destruct (Py.truthy resolved); cbn [negb];
      [|exists []; by rewrite add_runs_nil].
    destruct (image_map !! resolved) as [img_path|];
      [|exists []; by rewrite add_runs_nil].
    destruct (Py.truthy img_path); cbn [negb];
      [|exists []; by rewrite add_runs_nil].
    unfold add_picture. destruct (add_picture_ok img_path).
    + by exists [picture_run img_path].
    + by exists [text_run []].
Qed.

Lemma for_each_add_segment_runs p image_map doc_path segs : forall ds,
  exists rs,
    document (for_each (add_segment service translator xml_char_ok add_picture_ok p
                          image_map doc_path) segs ds).1
    = alter (add_runs rs) p (document ds)
    /\ ((for_each (add_segment service translator xml_char_ok add_picture_ok p
                     image_map doc_path) segs ds).2 = Done tt ->
        pictures_of rs = omap (picture_for image_map doc_path) (srcs_of segs)).
Proof.
  induction segs as [|seg segs IH]; intros ds.
  - exists []. cbn. by rewrite add_runs_nil.
  - cbn [for_each]. unfold dbind.
    destruct (add_segment_runs p image_map doc_path seg ds) as (r1 & H1 & P1).
    destruct (add_segment service translator xml_char_ok add_picture_ok p image_map
                doc_path seg ds) as [ds1 [[]|e]]; cbn [fst snd] in *.
    + destruct (IH ds1) as (r2 & H2 & P2).
      exists (r1 ++ r2). rewrite H2, H1, add_runs_app. split; [done|].
      intros Hd. rewrite pictures_of_app, P1, P2 by done.
      replace (srcs_of (seg :: segs)) with (srcs_of [seg] ++ srcs_of segs)
        by (unfold srcs_of; by rewrite <- flat_map_app).
      by rewrite omap_app.
    + exists r1. by split.
Qed.

Lemma alter_last {A} (f : A -> A) (d : list A) x :
  alter f (length d) (d ++ [x]) = d ++ [f x].
Proof. rewrite alter_app_r_alt by lia. by rewrite Nat.sub_diag. Qed.

Lemma new_paragraph_segments image_map doc_path segs ds :
  exists rs,
    document
      ((dlet p <- doc_add_paragraph;
        for_each (add_segment service translator xml_char_ok add_picture_ok p
                    image_map doc_path) segs) ds).1
    = document ds ++ [ {| style := None; runs := rs |} ]
    /\ (((dlet p <- doc_add_paragraph;
          for_each (add_segment service translator xml_char_ok add_picture_ok p
                      image_map doc_path) segs) ds).2 = Done tt ->
        pictures_of rs = omap (picture_for image_map doc_path) (srcs_of segs)).
Proof.
  unfold dbind, doc_add_paragraph.
  destruct (for_each_add_segment_runs (length (document ds)) image_map doc_path
              segs {| base := base ds;
                      document := document ds ++ [ {| style := None; runs := [] |} ] |})
    as (rs & H1 & P1).
  exists rs. cbn [document] in H1. rewrite H1, alter_last. by split.
Qed.

Lemma process_block_paragraph name attrs children image_map doc_path ds :
  Py.eqb name (Py.u "table") = false ->
  exists rs,
    document (process_block service translator xml_char_ok add_picture_ok name attrs
                children image_map doc_path ds).1
    = document ds ++ [ {| style := style_of name; runs := rs |} ]
    /\ ((process_block service translator xml_char_ok add_picture_ok name attrs
           children image_map doc_path ds).2 = Done tt ->
        pictures_of rs
        = omap (picture_for image_map doc_path)
            (srcs_of (extract_inline_segments (Tag name attrs children)))).
Proof.
  intros Ht. unfold process_block. rewrite Ht.
  unfold dbind, doc_add_paragraph, style_of.
  set (d1 := document ds ++ [ {| style := None; runs := [] |} ]).
  set (segs := extract_inline_segments (Tag name attrs children)).
  assert (Hstyle :
    exists ds1,
      (if existsb (Py.eqb name) HEADING_NAMES
       then set_style (length (document ds)) (Py.u "Heading " ++ drop 1 name)
       else if Py.eqb name (Py.u "li")
            then set_style (length (document ds)) (Py.u "List Bullet")
            else dret tt) {| base := base ds; document := d1 |}
      = (ds1, Done tt)
      /\ document ds1
         = document ds
           ++ [ {| style :=
                     if existsb (Py.eqb name) HEADING_NAMES
                     then Some (Py.u "Heading " ++ drop 1 name)
                     else if Py.eqb name (Py.u "li")
                          then Some (Py.u "List Bullet") else None;
                   runs := [] |} ]).
  { unfold d1.
    destruct (existsb (Py.eqb name) HEADING_NAMES);
      [|destruct (Py.eqb name (Py.u "li"))];
      (eexists; split; [reflexivity|]); cbn [set_style fst document dret];
      by rewrite ?alter_last. }
  destruct Hstyle as (ds1 & -> & Hd1).
  destruct (for_each_add_segment_runs (length (document ds)) image_map doc_path
              segs ds1) as (rs & H1 & P1).
  exists rs. rewrite H1, Hd1, alter_last. by split.
Qed.

(** The paragraphs of a table. *)
Lemma doc_add_paragraph_text_grows text ds :
  exists par,
    document (doc_add_paragraph_text xml_char_ok text ds).1 = document ds ++ [par].
Proof.
  unfold doc_add_paragraph_text, dbind, doc_add_paragraph.
  destruct (Py.truthy text); [|by eexists].
  destruct (add_run_spec xml_char_ok (length (document ds)) text
              {| base := base ds;
                 document := document ds ++ [ {| style := None; runs := [] |} ] |})
    as (stored & H1 & _).
  rewrite H1. cbn [document]. rewrite alter_last. by eexists.
Qed.

Lemma doc_process_row_grows row ds :
  exists new,
    document (doc_process_row service translator xml_char_ok row ds).1
    = document ds ++ new
    /\ ((doc_process_row service translator xml_char_ok row ds).2 = Done tt ->
        length new = length (List.filter has_text [row])).
Proof.
  unfold doc_process_row, dbind, in_document.
  rewrite process_cells_filter. fold (cell_texts row).
  cbn [List.filter]. unfold has_text.
  destruct (mapM_translate_text_effect service translator (cell_texts row)
              (base ds)) as [_ Hlen].
  unfold bind, ret.
  destruct (mapM (translate_text service translator) (cell_texts row) (base ds))
    as [st1 [cells|e]]; cbn [fst snd app document] in *.
  2:{ exists []. by rewrite app_nil_r. }
  destruct cells as [|c cells].
  - exists []. rewrite app_nil_r. split; [done|]. intros _.
    by destruct (cell_texts row).
  - destruct (doc_add_paragraph_text_grows (Py.join (Py.u "\t") (c :: cells))
                {| base := st1; document := document ds |}) as (par & Hp).
    exists [par]. split; [exact Hp|]. intros _.
    by destruct (cell_texts row).
Qed.

Lemma doc_process_table_grows tag ds :
  exists new,
    document (doc_process_table service translator xml_char_ok tag ds).1
    = document ds ++ new
    /\ ((doc_process_table service translator xml_char_ok tag ds).2 = Done tt ->
        length new = length (List.filter has_text (find_all [Py.u "tr"] tag))).
Proof.
  unfold doc_process_table. generalize (find_all [Py.u "tr"] tag).
  intros rows. revert ds.
  induction rows as [|row rows IH]; intros ds.
  - exists []. cbn. by rewrite app_nil_r.
  - cbn [for_each]. unfold dbind.
    destruct (doc_process_row_grows row ds) as (n1 & H1 & L1).
    destruct (doc_process_row service translator xml_char_ok row ds)
      as [ds1 [[]|e]]; cbn [fst snd] in *.
    + destruct (IH ds1) as (n2 & H2 & L2).
      exists (n1 ++ n2). rewrite H2, H1, <- app_assoc. split; [done|].
      intros Hd. rewrite length_app, L1, L2 by done.
      cbn [List.filter]. destruct (has_text row); cbn [length]; lia.
    + exists n1. by split.
Qed.

Lemma process_child_grows image_map doc_path child ds :
  exists new,
    document (process_child service translator xml_char_ok add_picture_ok image_map
                doc_path child ds).1
    = document ds ++ new
    /\ ((process_child service translator xml_char_ok add_picture_ok image_map
           doc_path child ds).2 = Done tt ->
        length new = paragraphs_for child).
Proof.
  assert (Hstring : forall s,
    exists new,
      document
        ((if Py.truthy (Py.strip s)
          then dlet p <- doc_add_paragraph;
               add_translated_text service translator xml_char_ok p s
          else dret tt) ds).1
      = document ds ++ new
      /\ (((if Py.truthy (Py.strip s)
            then dlet p <- doc_add_paragraph;
                 add_translated_text service translator xml_char_ok p s
            else dret tt) ds).2 = Done tt ->
          length new = (if Py.truthy (Py.strip s) then 1%nat else 0%nat))).
  { intros s. destruct (Py.truthy (Py.strip s)); [|exists []; by rewrite app_nil_r].
    unfold dbind, doc_add_paragraph.
    destruct (add_translated_text_runs service translator xml_char_ok
                (length (document ds)) s
                {| base := base ds;
                   document := document ds ++ [ {| style := None; runs := [] |} ] |})
      as (rs & H1 & _).
    rewrite H1. cbn [document]. rewrite alter_last. by eexists. }
  destruct child as [s|name attrs children| |s]; cbn [process_child paragraphs_for];
    [apply Hstring| | |apply Hstring].
  - destruct (existsb (Py.eqb name) block_tags) eqn:Hb.
    + destruct (Py.eqb name (Py.u "table")) eqn:Ht.
      * unfold process_block. rewrite Ht.
        apply doc_process_table_grows.
      * destruct (process_block_paragraph name attrs children image_map doc_path
                    ds Ht) as (rs & H1 & _).
        rewrite H1. by eexists.
    + assert (Ht : Py.eqb name (Py.u "table") = false).
      { destruct (Py.eqb name (Py.u "table")) eqn:Ht; [|done].
        apply eqb_true in Ht as ->. by vm_compute in Hb. }
      rewrite Ht.
      destruct (new_paragraph_segments image_map doc_path
                  (extract_inline_segments (Tag name attrs children)) ds)
        as (rs & H1 & _).
      rewrite H1. by eexists.
  - exists []. by rewrite app_nil_r.
Qed.

Lemma for_each_process_child_grows image_map doc_path children : forall ds,
  exists new,
    document (for_each (process_child service translator xml_char_ok add_picture_ok
                          image_map doc_path) children ds).1
    = document ds ++ new
    /\ ((for_each (process_child service translator xml_char_ok add_picture_ok
                     image_map doc_path) children ds).2 = Done tt ->
        length new = list_sum (map paragraphs_for children)).
Proof.
  induction children as [|child children IH]; intros ds.
  - exists []. cbn. by rewrite app_nil_r.
  - cbn [for_each]. unfold dbind.
    destruct (process_child_grows image_map doc_path child ds) as (n1 & H1 & L1).
    destruct (process_child service translator xml_char_ok add_picture_ok image_map
                doc_path child ds) as [ds1 [[]|e]]; cbn [fst snd] in *.
    + destruct (IH ds1) as (n2 & H2 & L2).
      exists (n1 ++ n2). rewrite H2, H1, <- app_assoc. split; [done|].
      intros Hd. rewrite length_app, L1, L2 by done. done.
    + exists n1. by split.
Qed.

End BlockFacts.

(** X15: [process_block] on a tag other than a table adds one paragraph
    to the end of the document, whatever the tag holds and whether the
    call returns or raises, and changes no paragraph that was there. The
    paragraph has the style [Heading n] for [hn], [List Bullet] for [li]
    and no style of its own for another tag. *)
Theorem X15_block_is_one_paragraph service translator xml_char_ok add_picture_ok
    name attrs children image_map doc_path ds :
  name <> Py.u "table" ->
  exists rs,
    document (process_block service translator xml_char_ok add_picture_ok name attrs
                children image_map doc_path ds).1
    = document ds ++ [ {| style := style_of name; runs := rs |} ].
Proof.
  intros Hn.
  destruct (process_block_paragraph service translator xml_char_ok add_picture_ok name
              attrs children image_map doc_path ds) as (rs & H & _);
    [|by exists rs].
  destruct (Py.eqb name (Py.u "table")) eqn:E; [|done]. by apply eqb_true in E.
Qed.

Lemma X15_block_is_one_paragraph_witness :
  Py.u "h2" <> Py.u "table"
  /\ exists rs,
       document
         (process_block down_service (demo_translator 1500 0) xml_1_0_char every_picture_ok
            (Py.u "h2") [] [NavigableString (Py.u "Title")] ∅ (Py.u "ch1.xhtml")
            {| base := fresh; document := [] |}).1
       = [ {| style := Some (Py.u "Heading 2"); runs := rs |} ].
Proof.
  assert (Hn : Py.u "h2" <> Py.u "table") by (vm_compute; discriminate).
  split; [exact Hn|].
  destruct (X15_block_is_one_paragraph down_service (demo_translator 1500 0)
              xml_1_0_char every_picture_ok (Py.u "h2") [] [NavigableString (Py.u "Title")]
              ∅ (Py.u "ch1.xhtml") {| base := fresh; document := [] |} Hn)
    as (rs & H).
  exists rs. rewrite H. vm_compute. reflexivity.
Defined.





(** X17: what [process_document_item] adds to a document. It only adds
    paragraphs at the end, whether it returns or raises; a content
    without a body changes nothing; and when it returns, it has added
    one paragraph for each string of the body that is not blank, a
    comment and the like being a string here, one for each tag of the
    body other than a table, whatever is nested in the tag, and for a
    table one for each row that has text. *)
Theorem X17_paragraphs_of_an_item service translator xml_char_ok add_picture_ok
    item image_map ds :
  exists new,
    document (process_document_item service translator xml_char_ok add_picture_ok item
                image_map ds).1
    = document ds ++ new
    /\ (body_children item = None ->
        process_document_item service translator xml_char_ok add_picture_ok item
          image_map ds = (ds, Done tt))
    /\ (forall children,
          body_children item = Some children ->
          (process_document_item service translator xml_char_ok add_picture_ok item
             image_map ds).2 = Done tt ->
          length new = list_sum (map paragraphs_for children)).
Proof.
  unfold process_document_item.
  destruct (body_children item) as [children|].
  - destruct (for_each_process_child_grows service translator xml_char_ok add_picture_ok
                image_map (get_name (doc_item item)) children ds)
      as (new & H & L).
    exists new. split; [done|]. split; [done|]. by intros ? [= <-].
  - exists []. cbn [dret fst]. rewrite app_nil_r. by repeat split.
Qed.

Lemma X17_paragraphs_of_an_item_witness :
  let item :=
    {| doc_item := {| get_name := Py.u "ch1.xhtml" |};
       body_children :=
         Some [ NavigableString (Py.u "\n");
                Tag (Py.u "h1") [] [NavigableString (Py.u "One")];
                Tag (Py.u "div") []
                  [ Tag (Py.u "p") [] [NavigableString (Py.u "A.")];
                    Tag (Py.u "p") [] [NavigableString (Py.u "B.")] ];
                table [ tr [td (Py.u "a"); td (Py.u "b")]; tr [td []] ] ] |} in
  length (document
            (process_document_item mock_service (demo_translator 1500 2)
               xml_1_0_char every_picture_ok item ∅ {| base := fresh; document := [] |}).1)
  = 3%nat.
Proof.
  cbv zeta.
  destruct (X17_paragraphs_of_an_item mock_service (demo_translator 1500 2)
              xml_1_0_char every_picture_ok
              {| doc_item := {| get_name := Py.u "ch1.xhtml" |};
                 body_children :=
                   Some [ NavigableString (Py.u "\n");
                          Tag (Py.u "h1") [] [NavigableString (Py.u "One")];
                          Tag (Py.u "div") []
                            [ Tag (Py.u "p") [] [NavigableString (Py.u "A.")];
                              Tag (Py.u "p") [] [NavigableString (Py.u "B.")] ];
                          table [ tr [td (Py.u "a"); td (Py.u "b")]; tr [td []] ] ] |}
              ∅ {| base := fresh; document := [] |})
    as (new & H & _ & L).
  rewrite H. cbn [document app]. rewrite (L _ eq_refl); [|vm_compute; reflexivity].
  vm_compute. reflexivity.
Defined.


(** ** The plain text of a document *)

Section PlainText.

Variable paragraph_text : paragraph -> str.

Lemma plain_text_fold doc : forall acc,
  fold_left
    (fun (lines : list str) par =>
       let text := Py.strip (paragraph_text par) in
       if negb (Py.truthy text) then lines else lines ++ [text])
    doc acc
  = acc ++ text_lines paragraph_text doc.
Proof.
  induction doc as [|par doc IH]; intros acc; [by rewrite app_nil_r|].
  cbn [fold_left]. rewrite IH. unfold text_lines. cbn [map List.filter].
  destruct (Py.truthy (Py.strip (paragraph_text par))); cbn [negb]; [|done].
  by rewrite <- app_assoc.
Qed.

Lemma document_to_plain_text_lines doc :
  document_to_plain_text paragraph_text doc
  = Py.join (Py.u "\n") (text_lines paragraph_text doc).
Proof. unfold document_to_plain_text. by rewrite plain_text_fold. Qed.

Lemma text_lines_trimmed doc :
  Forall (fun l => Py.strip l = l /\ l <> []) (text_lines paragraph_text doc).
Proof.
  unfold text_lines. induction doc as [|par doc IH]; [constructor|].
  cbn [map List.filter].
  destruct (Py.truthy (Py.strip (paragraph_text par))) eqn:Ht; [|done].
  constructor; [|done]. split; [apply strip_strip|by apply truthy_true].
Qed.

Lemma text_lines_nil doc :
  text_lines paragraph_text doc = []
  <-> Forall (fun par => blank (paragraph_text par) = true) doc.
Proof.
  unfold text_lines. induction doc as [|par doc IH]; [done|].
  cbn [map List.filter].
  destruct (Py.truthy (Py.strip (paragraph_text par))) eqn:Ht.
  - split; [done|]. intros H. apply Forall_cons in H as [Hb _].
    apply strip_blank in Hb. rewrite Hb in Ht. done.
  - apply truthy_false, strip_nil in Ht. rewrite IH. split.
    + by constructor.
    + by intros [_ ?]%Forall_cons.
Qed.

Lemma text_lines_no_break doc :
  Forall (fun par => Forall (fun c => Py.islinebreak c = false) (paragraph_text par))
    doc ->
  Forall (fun l => l <> [] /\ Forall (fun c => Py.islinebreak c = false) l)
    (text_lines paragraph_text doc).
Proof.
  unfold text_lines. induction 1 as [|par doc Hpar Hdoc IH]; [constructor|].
  cbn [map List.filter].
  destruct (Py.truthy (Py.strip (paragraph_text par))) eqn:Ht; [|done].
  constructor; [|done]. split; [by apply truthy_true|by apply strip_Forall].
Qed.

End PlainText.

(** X18: the plain text of a document is the trimmed texts of its
    paragraphs, without those that are blank, joined by newlines. It has
    no whitespace around it, it is empty exactly when every paragraph is
    blank, and when no paragraph text holds a line break, its lines are
    those trimmed texts. *)
Theorem X18_plain_text_of_a_document paragraph_text doc :
  document_to_plain_text paragraph_text doc
  = Py.join (Py.u "\n") (text_lines paragraph_text doc)
  /\ Py.strip (document_to_plain_text paragraph_text doc)
     = document_to_plain_text paragraph_text doc
  /\ (document_to_plain_text paragraph_text doc = []
      <-> Forall (fun par => blank (paragraph_text par) = true) doc)
  /\ (Forall (fun par =>
                Forall (fun c => Py.islinebreak c = false) (paragraph_text par))
        doc ->
      Py.splitlines (document_to_plain_text paragraph_text doc)
      = text_lines paragraph_text doc).
Proof.
  rewrite document_to_plain_text_lines. split; [done|].
  split; [apply strip_join_lines, text_lines_trimmed|]. split.
  - rewrite <- text_lines_nil. split; [|by intros ->].
    pose proof (text_lines_trimmed paragraph_text doc) as Ht.
    destruct (text_lines paragraph_text doc) as [|l ls]; [done|].
    apply Forall_cons in Ht as [[_ Hl] _].
    destruct (join_head (Py.u "\n") l ls) as [rest ->]. by destruct l.
  - intros H. by apply splitlines_join, text_lines_no_break.
Qed.

Lemma X18_plain_text_of_a_document_witness :
  let doc :=
    [ {| style := Some (Py.u "Heading 1"); runs := [text_run (Py.u " 一 ")] |};
      {| style := None; runs := [] |};
      {| style := None; runs := [text_run (Py.u "二"); picture_run (Py.u "a.png")] |} ] in
  Forall (fun par => Forall (fun c => Py.islinebreak c = false) (spelled_text par)) doc
  /\ Py.splitlines (document_to_plain_text spelled_text doc)
     = [Py.u "一"; Py.u "二"].
Proof.
  cbv zeta.
  assert (H : Forall (fun par =>
                        Forall (fun c => Py.islinebreak c = false) (spelled_text par))
                [ {| style := Some (Py.u "Heading 1");
                     runs := [text_run (Py.u " 一 ")] |};
                  {| style := None; runs := [] |};
                  {| style := None;
                     runs := [text_run (Py.u "二"); picture_run (Py.u "a.png")] |} ]).
  { repeat constructor. }
  split; [exact H|].
  rewrite (proj2 (proj2 (proj2 (X18_plain_text_of_a_document spelled_text _))) H).
  vm_compute. reflexivity.
Defined.

(** ** The files of a book *)

Lemma find_none_forallb {A} (f : A -> bool) l :
  forallb f l = true -> List.find (fun x => negb (f x)) l = None.
Proof.
  induction l as [|x l IH]; [done|]. cbn [forallb List.find].
  intros H. apply andb_true_iff in H as [-> H]. by apply IH.
Qed.

Section BookFacts.

Variable service : list event -> request -> outcome.
Variable xml_char_ok : N -> bool.
Variable add_picture_ok : str -> bool.
Variable paragraph_text : paragraph -> str.
Variable open_ok : str -> bool.

Lemma translate_sections_results translator image_map output_dir total items :
  forall start st files,
  exists k partial,
    Forall2 (section_written open_ok output_dir total) (seq start k)
      (take k (section_results service translator xml_char_ok add_picture_ok
                 image_map items st))
    /\ (translate_sections service xml_char_ok add_picture_ok paragraph_text
          open_ok translator image_map output_dir total
          (combine (seq start (length items)) items) st files).1.2
       = files
         ++ concat (zip_with (section_files paragraph_text output_dir total)
                      (seq start k)
                      (map (fun r => document r.1)
                         (take k (section_results service translator
                                    xml_char_ok add_picture_ok image_map
                                    items st))))
         ++ partial
    /\ match (translate_sections service xml_char_ok add_picture_ok
                paragraph_text open_ok translator image_map output_dir total
                (combine (seq start (length items)) items) st files).2 with
       | Done _ => k = length items /\ partial = []
       | Failed e =>
           exists r,
             section_results service translator xml_char_ok add_picture_ok
               image_map items st !! k = Some r
             /\ section_fails open_ok output_dir total (start + k) r e partial
       end.
Proof.
  induction items as [|item items IH]; intros start st files.
  - exists 0%nat, []. cbn. split; [constructor|]. by rewrite app_nil_r.
  - cbn [length seq combine translate_sections section_results].
    set (r := process_document_item service translator xml_char_ok
                add_picture_ok item image_map {| base := st; document := [] |}).
    destruct r as [ds [[]|e]] eqn:Hr; cbn [fst snd].
    2:{ exists 0%nat, []. cbn [take seq zip_with map concat app fst snd].
        split; [constructor|]. split; [by rewrite app_nil_r|].
        eexists. split; [reflexivity|]. rewrite Nat.add_0_r. by left. }
    destruct (open_ok (posixpath.join output_dir
                         (section_file start total (Py.u ".docx")))) eqn:Hdocx;
      cbn [negb].
    2:{ exists 0%nat, []. cbn [take seq zip_with map concat app fst snd].
        split; [constructor|]. split; [by rewrite app_nil_r|].
        eexists. split; [reflexivity|]. rewrite Nat.add_0_r. right. left.
        by cbn [fst snd]. }
    destruct (open_ok (posixpath.join output_dir
                         (section_file start total (Py.u ".txt")))) eqn:Htxt;
      cbn [negb].
    2:{ eexists 0%nat, _. cbn [take seq zip_with map concat app fst snd].
        split; [constructor|]. split; [reflexivity|].
        eexists. split; [reflexivity|]. rewrite Nat.add_0_r. right. right.
        by cbn [fst snd]. }
    destruct (IH (S start) (base ds)
                ((files
                  ++ [ (posixpath.join output_dir
                          (section_file start total (Py.u ".docx")),
                        docx_content (document ds)) ])
                 ++ [ (posixpath.join output_dir
                         (section_file start total (Py.u ".txt")),
                       text_content
                         (document_to_plain_text paragraph_text (document ds))) ]))
      as (k & partial & Hw & Hf & Hres).
    exists (S k), partial.
    cbn [take seq zip_with map concat fst snd lookup list_lookup].
    split.
    { constructor; [by cbn [fst snd]|exact Hw]. }
    split.
    { rewrite Hf. unfold section_files at 2. cbn [app].
      by rewrite <- !app_assoc. }
    destruct (translate_sections _ _ _ _ _ _ _ _ _ _ _ _).2 as [[]|e].
    + destruct Hres as [-> ->]. done.
    + destruct Hres as (r' & Hl & Hfail). exists r'. split; [exact Hl|].
      by rewrite Nat.add_succ_r.
Qed.

End BookFacts.

(** X19: the files that [translate_epub_to_docx] writes. When the output
    directory cannot be made, or a file of an image cannot be opened,
    the run raises before the first section, without a file and without
    a request. Otherwise the sections are taken in order, each on a new
    document with the translator as the section before left it, which is
    [section_results]; there is a number [k] of sections that are
    written, and the files of the run are, for each of the first [k]
    sections in order, the document that [process_document_item] made of
    that section and then its plain text, and after them what the failing
    section leaves. When the run returns, [k] is the number of the
    sections of the book and nothing else is written. When it raises,
    the section after the first [k] is the one that fails, with the error
    of the run: either [process_document_item] raised on it, or its
    document or its text could not be written; only in the last case is
    one more file left, the document of that section. *)
Theorem X19_files_of_a_run service xml_char_ok add_picture_ok paragraph_text
    makedirs_ok open_ok book output_dir model0 url0 max_chars0 retry0 temp_dir :
  let run :=
    translate_epub_to_docx service xml_char_ok add_picture_ok paragraph_text
      makedirs_ok open_ok book output_dir model0 url0 max_chars0 retry0
      temp_dir in
  let translator := (OllamaTranslator_init model0 url0 max_chars0 retry0).1 in
  let st0 := (OllamaTranslator_init model0 url0 max_chars0 retry0).2 in
  let total := length (documents book) in
  let results :=
    section_results service translator xml_char_ok add_picture_ok
      (build_image_map (images book) temp_dir) (documents book) st0 in
  (makedirs_ok output_dir = false ->
   run = (st0, [], Failed (OSError output_dir)))
  /\ (forall path,
        makedirs_ok output_dir = true ->
        List.find (fun path => negb (open_ok path))
          (image_files (images book) temp_dir) = Some path ->
        run = (st0, [], Failed (OSError path)))
  /\ (makedirs_ok output_dir = true ->
      forallb open_ok (image_files (images book) temp_dir) = true ->
      exists k partial,
        Forall2 (section_written open_ok output_dir total) (seq 1 k)
          (take k results)
        /\ run.1.2
           = concat (zip_with (section_files paragraph_text output_dir total)
                       (seq 1 k)
                       (map (fun r => document r.1) (take k results)))
             ++ partial
        /\ match run.2 with
           | Done _ => k = total /\ partial = []
           | Failed e =>
               exists r,
                 results !! k = Some r
                 /\ section_fails open_ok output_dir total (S k) r e partial
           end).
Proof.
  cbv zeta. unfold translate_epub_to_docx. cbn [OllamaTranslator_init fst snd].
  split; [by intros ->|]. split.
  { intros path -> Hfind. cbn [negb]. by rewrite Hfind. }
  intros -> Himg. cbn [negb].
  rewrite (find_none_forallb _ _ Himg).
  destruct (translate_sections_results service xml_char_ok add_picture_ok
              paragraph_text open_ok
              {| model := model0; url := Py.rstrip_chars (Py.u "/") url0;
                 max_chars := max_chars0; retry := retry0 |}
              (build_image_map (images book) temp_dir) output_dir
              (length (documents book)) (documents book) 1
              {| _cache := ∅; trace := []; paragraphs := [] |} [])
    as (k & partial & Hw & Hf & Hres).
  exists k, partial. split; [exact Hw|]. split; [exact Hf|]. exact Hres.
Qed.

Lemma X19_files_of_a_run_witness :
  let book :=
    {| images := [ {| get_name := Py.u "images/a.png" |} ];
       documents :=
         [ {| doc_item := {| get_name := Py.u "text/ch1.xhtml" |};
              body_children :=
                Some [ Tag (Py.u "p") [] [NavigableString (Py.u "Hello.")] ] |};
           {| doc_item := {| get_name := Py.u "text/ch2.xhtml" |};
              body_children :=
                Some [ Tag (Py.u "p") [] [NavigableString [0x0C%N]] ] |};
           {| doc_item := {| get_name := Py.u "text/ch3.xhtml" |};
              body_children := None |} ] |} in
  let run :=
    translate_epub_to_docx (reply_service (Py.u "你好")) xml_1_0_char
      every_picture_ok spelled_text every_file_ok every_file_ok book
      (Py.u "out") (Py.u "qwen3:8b") (Py.u "http://localhost:11434/") 1500 2
      (Py.u "/tmp/x") in
  every_file_ok (Py.u "out") = true
  /\ forallb every_file_ok (image_files (images book) (Py.u "/tmp/x")) = true
  /\ run.2 = Failed (ValueError [0x0C%N])
  /\ run.1.2
     = [ (Py.u "out/section_01_of_03.docx",
          docx_content [ {| style := None; runs := [text_run (Py.u "你好")] |} ]);
         (Py.u "out/section_01_of_03.txt", text_content (Py.u "你好")) ]
  /\ exists k partial,
       Forall2 (section_written every_file_ok (Py.u "out") 3) (seq 1 k)
         (take k
            (section_results (reply_service (Py.u "你好"))
               (OllamaTranslator_init (Py.u "qwen3:8b")
                  (Py.u "http://localhost:11434/") 1500 2).1
               xml_1_0_char every_picture_ok
               (build_image_map (images book) (Py.u "/tmp/x"))
               (documents book)
               (OllamaTranslator_init (Py.u "qwen3:8b")
                  (Py.u "http://localhost:11434/") 1500 2).2))
       /\ run.1.2
          = concat
              (zip_with (section_files spelled_text (Py.u "out") 3) (seq 1 k)
                 (map (fun r => document r.1)
                    (take k
                       (section_results (reply_service (Py.u "你好"))
                          (OllamaTranslator_init (Py.u "qwen3:8b")
                             (Py.u "http://localhost:11434/") 1500 2).1
                          xml_1_0_char every_picture_ok
                          (build_image_map (images book) (Py.u "/tmp/x"))
                          (documents book)
                          (OllamaTranslator_init (Py.u "qwen3:8b")
                             (Py.u "http://localhost:11434/") 1500 2).2))))
            ++ partial.
Proof.
  cbv zeta.
  split; [reflexivity|]. split; [reflexivity|].
  split; [vm_compute; reflexivity|]. split; [vm_compute; reflexivity|].
  destruct (proj2 (proj2
              (X19_files_of_a_run (reply_service (Py.u "你好")) xml_1_0_char
                 every_picture_ok spelled_text every_file_ok every_file_ok
                 {| images := [ {| get_name := Py.u "images/a.png" |} ];
                    documents :=
                      [ {| doc_item := {| get_name := Py.u "text/ch1.xhtml" |};
                           body_children :=
                             Some [ Tag (Py.u "p") []
                                      [NavigableString (Py.u "Hello.")] ] |};
                        {| doc_item := {| get_name := Py.u "text/ch2.xhtml" |};
                           body_children :=
                             Some [ Tag (Py.u "p") []
                                      [NavigableString [0x0C%N]] ] |};
                        {| doc_item := {| get_name := Py.u "text/ch3.xhtml" |};
                           body_children := None |} ] |}
                 (Py.u "out") (Py.u "qwen3:8b")
                 (Py.u "http://localhost:11434/") 1500 2 (Py.u "/tmp/x")))
              eq_refl eq_refl) as (k & partial & Hw & Hf & _).
  exists k, partial. split; [exact Hw|exact Hf].
Defined.

(** ** The names of the files *)

Lemma digits_zeros k d : digits (zeros k d) = repeat 0x30%N k ++ digits d.
Proof. induction k as [|k IH]; [done|]. cbn. by rewrite IH. Qed.

Lemma digits_inj d1 : forall d2, digits d1 = digits d2 -> d1 = d2.
Proof.
  induction d1 as [|d1 IH|d1 IH|d1 IH|d1 IH|d1 IH|d1 IH|d1 IH|d1 IH|d1 IH|d1 IH];
    intros [|d2|d2|d2|d2|d2|d2|d2|d2|d2|d2]; cbn [digits]; intros [=];
    try done; f_equal; by apply IH.
Qed.

Lemma of_uint_zeros k d : Nat.of_uint (zeros k d) = Nat.of_uint d.
Proof. induction k as [|k IH]; [done|]. cbn [zeros]. by rewrite <- IH. Qed.

Lemma format_02d_inj i j : format_02d i = format_02d j -> i = j.
Proof.
  unfold format_02d. cbv zeta. rewrite <- !digits_zeros. intros H.
  apply digits_inj in H. apply (f_equal Nat.of_uint) in H.
  by rewrite !of_uint_zeros, !DecimalNat.Unsigned.of_to in H.
Qed.

Lemma digits_no_underscore d : ~ In 0x5F%N (digits d).
Proof.
  induction d; cbn [digits]; [intros []|..]; by intros [?|?].
Qed.

Lemma format_02d_no_underscore n : ~ In 0x5F%N (format_02d n).
Proof.
  unfold format_02d. cbv zeta. intros H. apply in_app_or in H as [H|H].
  - by apply repeat_spec in H.
  - by apply digits_no_underscore in H.
Qed.

Lemma app_stop_inj {A} (u : A) a : forall b r1 r2,
  ~ In u a -> ~ In u b -> a ++ u :: r1 = b ++ u :: r2 -> a = b /\ r1 = r2.
Proof.
  induction a as [|x a IH]; intros [|y b] r1 r2 Ha Hb H; cbn [app] in H.
  - by injection H as ->.
  - injection H as Hy _. exfalso. apply Hb. by left.
  - injection H as Hx _. exfalso. apply Ha. by left.
  - injection H as -> H. destruct (IH b r1 r2) as [-> ->]; [| |done|done].
    + intros ?. apply Ha. by right.
    + intros ?. apply Hb. by right.
Qed.

Lemma posixpath_join_relative a b :
  Py.startswith b (Py.u "/") = false ->
  posixpath.join a b
  = (if negb (Py.truthy a) || Py.endswith a (Py.u "/") then a else a ++ Py.u "/")
    ++ b.
Proof.
  intros H. unfold posixpath.join. rewrite H.
  destruct (negb (Py.truthy a) || Py.endswith a (Py.u "/")); [done|].
  by rewrite <- app_assoc.
Qed.

Lemma section_file_relative idx total ext :
  Py.startswith (section_file idx total ext) (Py.u "/") = false.
Proof. reflexivity. Qed.

(** X20: no two files of a run have the same path: the path of a
    section file gives back the number of the section and the
    extension, whatever the number of sections. *)
Theorem X20_section_paths_differ output_dir total i j ext1 ext2 :
  posixpath.join output_dir (section_file i total ext1)
  = posixpath.join output_dir (section_file j total ext2) ->
  i = j /\ ext1 = ext2.
Proof.
  rewrite !posixpath_join_relative by apply section_file_relative.
  intros H. apply app_inv_head in H. unfold section_file in H.
  apply app_inv_head in H.
  change (Py.u "_of_" ++ ?x) with (0x5F%N :: Py.u "of_" ++ x) in H.
  apply app_stop_inj in H as [Hi Hr]; try apply format_02d_no_underscore.
  split; [by apply format_02d_inj|].
  by apply app_inv_head, app_inv_head in Hr.
Qed.

Lemma X20_section_paths_differ_witness :
  posixpath.join (Py.u "out") (section_file 7 12 (Py.u ".docx"))
  = Py.u "out/section_07_of_12.docx"
  /\ (7 = 7 /\ Py.u ".docx" = Py.u ".docx").
Proof.
  split; [vm_compute; reflexivity|].
  exact (X20_section_paths_differ (Py.u "out") 12 7 7 (Py.u ".docx")
           (Py.u ".docx") eq_refl).
Defined.

Lemma str_lt_app_head p a b : str_lt (p ++ a) (p ++ b) = str_lt a b.
Proof.
  induction p as [|x p IH]; [done|]. cbn [app str_lt].
  by rewrite N.ltb_irrefl, N.eqb_refl, IH.
Qed.

Lemma str_lt_app a : forall b r1 r2,
  length a = length b -> str_lt a b = true -> str_lt (a ++ r1) (b ++ r2) = true.
Proof.
  induction a as [|x a IH]; intros [|y b] r1 r2 Hl; cbn [length] in Hl;
    try done. cbn [app str_lt].
  intros H. apply orb_true_iff in H as [H|H]; [by rewrite H|].
  apply andb_true_iff in H as [H1 H2]. rewrite H1, (IH b) by (done || lia).
  by rewrite orb_true_r.
Qed.

Lemma format_02d_two_digits :
  forallb
    (fun i =>
       forallb
         (fun j =>
            negb (i <? j)%nat
            || (str_lt (format_02d i) (format_02d j)
                && (length (format_02d i) =? length (format_02d j))%nat))
         (seq 0 100))
    (seq 0 100)
  = true.
Proof. vm_compute. reflexivity. Qed.

(** X21: with fewer than a hundred sections the files sort by name in
    the order of the sections: the path of an earlier section is before
    the path of a later one in the order of strings. With a hundred
    sections or more this fails: section 100 sorts before section 11. *)
Theorem X21_section_paths_sort output_dir total :
  (forall i j ext1 ext2,
      (i < j)%nat -> (j < 100)%nat ->
      str_lt (posixpath.join output_dir (section_file i total ext1))
        (posixpath.join output_dir (section_file j total ext2)) = true)
  /\ str_lt (posixpath.join output_dir (section_file 100 120 (Py.u ".docx")))
       (posixpath.join output_dir (section_file 11 120 (Py.u ".docx"))) = true.
Proof.
  split.
  - intros i j ext1 ext2 Hij Hj.
    rewrite !posixpath_join_relative by apply section_file_relative.
    rewrite str_lt_app_head. unfold section_file. rewrite str_lt_app_head.
    pose proof format_02d_two_digits as H.
    rewrite forallb_forall in H.
    assert (Hi : In i (seq 0 100)) by (apply in_seq; lia).
    assert (Hj' : In j (seq 0 100)) by (apply in_seq; lia).
    specialize (H i Hi). rewrite forallb_forall in H. specialize (H j Hj').
    assert (Hlt : (i <? j)%nat = true) by (apply Nat.ltb_lt; lia).
    rewrite Hlt in H. cbn [negb orb] in H.
    apply andb_true_iff in H as [H1 H2]. apply Nat.eqb_eq in H2.
    by apply str_lt_app.
  - rewrite !posixpath_join_relative by apply section_file_relative.
    by rewrite str_lt_app_head.
Qed.

Lemma X21_section_paths_sort_witness :
  (9 < 10)%nat /\ (10 < 100)%nat
  /\ str_lt (posixpath.join (Py.u "out") (section_file 9 12 (Py.u ".docx")))
       (posixpath.join (Py.u "out") (section_file 10 12 (Py.u ".docx"))) = true.
Proof.
  assert (H1 : (9 < 10)%nat) by lia. assert (H2 : (10 < 100)%nat) by lia.
  split; [exact H1|]. split; [exact H2|].
  exact (proj1 (X21_section_paths_sort (Py.u "out") 12) 9 10 _ _ H1 H2).
Defined.


(** ** What is sent to the service *)

Section Sent.

Variable service : list event -> request -> outcome.
Variable self : OllamaTranslator.

Lemma split_text_chunks_nonblank text max_chars0 :
  blank text = false ->
  Forall (fun c => blank c = false) (split_text text max_chars0).
Proof.
  intros Hb. pose proof (split_text_inner_clean max_chars0 text) as Hc.
  pose proof (split_text_squash text max_chars0) as Hs.
  destruct (split_text text max_chars0) as [|c1 [|c2 cs]]; [done| |].
  - constructor; [|done]. cbn [concat] in Hs. rewrite app_nil_r in Hs.
    destruct (blank c1) eqn:E; [|done].
    assert (squash c1 = []) as Hn.
    { clear -E. induction c1 as [|x c IH]; [done|]. cbn in E |- *.
      apply andb_true_iff in E as [-> E]. by apply IH. }
    rewrite Hn in Hs. symmetry in Hs. apply squash_nil_blank in Hs. congruence.
  - by apply inner_clean_nonblank.
Qed.

Lemma chunks_of_nonblank text :
  blank text = false -> Forall (fun c => blank c = false) (chunks_of self text).
Proof.
  intros Hb. unfold chunks_of. destruct (len text <=? max_chars self)%Z.
  - by constructor.
  - by apply split_text_chunks_nonblank.
Qed.

Lemma retry_loop_requests n : forall last_err text st,
  exists new,
    trace (retry_loop service self n last_err text st).1 = trace st ++ new
    /\ calls new = []
    /\ Forall (request_for self text) (posts new).
Proof.
  induction n as [|n IH]; intros last_err text st.
  - exists []. cbn. by rewrite app_nil_r.
  - cbn [retry_loop]. unfold try_except.
    destruct (attempt_effect service self text st) as (_ & _ & (new & Ht & Hev) & _).
    assert (Hnew : calls new = [] /\ Forall (request_for self text) (posts new)).
    { assert (Hg : request_for self text (generate_request self text)) by (by left).
      assert (Hch : request_for self text (chat_request self text)) by (by right).
      destruct Hev as [-> | ->]; (split; [done|]);
        cbn [posts flat_map app]; by repeat apply List.Forall_cons. }
    destruct Hnew as [Hc Hp].
    destruct (attempt service self text st) as [st1 [v|e]]; cbn [fst snd] in *.
    + by exists new.
    + unfold bind, sleep, modify.
      destruct (IH (Some e) text (log (Sleep 1) st1)) as (new' & Ht' & Hc' & Hp').
      exists (new ++ [Sleep 1] ++ new'). split.
      { rewrite Ht'. cbn [log trace]. by rewrite Ht, <- !app_assoc. }
      rewrite !calls_app, !posts_app, Hc, Hc'. split; [done|].
      cbn [posts flat_map app]. by apply Forall_app.
Qed.

Lemma _translate_once_requests text st :
  exists new,
    trace (_translate_once service self text st).1 = trace st ++ new
    /\ calls new = [text]
    /\ Forall (request_for self text) (posts new).
Proof.
  unfold _translate_once, bind, modify.
  destruct (retry_loop_requests (Z.to_nat (retry self + 1)) None text
              (log (Call text) st)) as (new & Ht & Hc & Hp).
  destruct (retry_loop service self _ None text (log (Call text) st))
    as [st' r]; cbn [fst snd log trace] in *.
  exists (Call text :: new). split; [by rewrite Ht, <- app_assoc|].
  cbn [calls posts flat_map app]. fold (calls new) (posts new).
  by rewrite Hc.
Qed.

Lemma mapM_translate_once_requests chunks : forall st,
  exists new k,
    trace (mapM (_translate_once service self) chunks st).1 = trace st ++ new
    /\ calls new = take k chunks
    /\ Forall (fun r => exists t, In t chunks /\ request_for self t r) (posts new).
Proof.
  induction chunks as [|chunk chunks IH]; intros st.
  - exists [], 0%nat. cbn [mapM ret fst]. by rewrite app_nil_r.
  - rewrite mapM_cons.
    destruct (_translate_once_requests chunk st) as (new & Ht & Hc & Hp).
    assert (Hp' : Forall (fun r => exists t, In t (chunk :: chunks)
                                             /\ request_for self t r) (posts new)).
    { eapply List.Forall_impl; [|exact Hp]. intros r Hr. exists chunk.
      split; [by left|done]. }
    destruct (_translate_once service self chunk st) as [st1 [v|e]];
      cbn [fst snd] in *.
    + destruct (IH st1) as (new' & k & Ht' & Hc' & Hq).
      assert (Hq' : Forall (fun r => exists t, In t (chunk :: chunks)
                                               /\ request_for self t r)
                      (posts new')).
      { eapply List.Forall_impl; [|exact Hq]. intros r (t & Hin & Hr).
        exists t. split; [by right|done]. }
      destruct (mapM (_translate_once service self) chunks st1) as [st2 [vs|e]];
        cbn [fst snd] in *;
        (exists (new ++ new'), (S k);
         split; [by rewrite Ht', Ht, <- app_assoc|];
         rewrite calls_app, posts_app, Hc, Hc';
         split; [done|by apply Forall_app]).
    + exists new, 1%nat. split; [done|]. rewrite Hc. cbn [take]. by rewrite take_0.
Qed.

Lemma In_take {A} (x : A) k : forall l, In x (take k l) -> In x l.
Proof.
  induction k as [|k IH]; intros [|y l]; cbn [take In]; try done.
  intros [?|?]; [by left|right; by apply IH].
Qed.

Lemma translate_text_requests text st :
  exists new k,
    trace (translate_text service self text st).1 = trace st ++ new
    /\ calls new = take k (chunks_of self text)
    /\ Forall (fun t => blank t = false) (calls new)
    /\ Forall (fun r => exists t, blank t = false /\ request_for self t r)
         (posts new).
Proof.
  destruct (decide (Py.strip text = [])) as [Hb|Hb].
  { rewrite translate_text_blank by done. exists [], 0%nat. cbn [fst].
    rewrite app_nil_r. by repeat split. }
  destruct (_cache st !! text) as [cached|] eqn:Hc.
  { rewrite (translate_text_hit service self text st cached) by done.
    exists [], 0%nat. cbn [fst]. rewrite app_nil_r. by repeat split. }
  assert (Hnb : blank text = false).
  { destruct (blank text) eqn:E; [|done]. by apply strip_blank in E. }
  pose proof (chunks_of_nonblank text Hnb) as Hchunks.
  rewrite List.Forall_forall in Hchunks.
  rewrite translate_text_miss by done. unfold bind, store, modify, ret.
  destruct (mapM_translate_once_requests (chunks_of self text) st)
    as (new & k & Ht & Hcalls & Hposts).
  assert (H1 : Forall (fun t => blank t = false) (calls new)).
  { rewrite Hcalls. apply List.Forall_forall. intros t Hin. apply Hchunks.
    by apply In_take in Hin. }
  assert (H2 : Forall (fun r => exists t, blank t = false /\ request_for self t r)
                 (posts new)).
  { eapply List.Forall_impl; [|exact Hposts]. intros r (t & Hin & Hr).
    exists t. split; [by apply Hchunks|done]. }
  destruct (mapM (_translate_once service self) (chunks_of self text) st)
    as [st1 [vs|e]]; cbn [fst snd set_cache trace] in *; by exists new, k.
Qed.

End Sent.

(** X22: no blank text is ever sent. The logical calls that a call of
    [translate_text] makes are for the first chunks of the text, in
    order; none of them is for a blank text, and every request carries
    such a text, in the prompt for [/api/generate] and as the message of
    the user for [/api/chat]. *)
Theorem X22_no_blank_text_is_sent service self text st :
  exists new k,
    trace (translate_text service self text st).1 = trace st ++ new
    /\ calls new = take k (chunks_of self text)
    /\ Forall (fun t => blank t = false) (calls new)
    /\ Forall (fun r => exists t, blank t = false /\ request_for self t r)
         (posts new).
Proof. apply translate_text_requests. Qed.

(** ** A service that comes back, and one without [/api/generate] *)

Section Recovery.

Variable service : list event -> request -> outcome.
Variable self : OllamaTranslator.

Lemma failed_attempts_S text i :
  failed_attempts self text (S i)
  = [Post (generate_request self text); Sleep 1] ++ failed_attempts self text i.
Proof. reflexivity. Qed.

Lemma retry_loop_recovers text r data raw k : forall n last_err st,
  (k < n)%nat ->
  (forall i, (i < k)%nat ->
     service (trace st ++ failed_attempts self text i) (generate_request self text)
     = Fails) ->
  service (trace st ++ failed_attempts self text k) (generate_request self text)
  = Responds r ->
  status_code r <> 404%Z -> ~ (400 <= status_code r < 600)%Z ->
  body r = Some data -> raw_text_of data = Return raw ->
  retry_loop service self n last_err text st
  = ({| _cache := _cache st;
        trace := trace st ++ failed_attempts self text k
                 ++ [Post (generate_request self text)];
        paragraphs := paragraphs st |},
     Return (cleaned_or_text raw text)).
Proof.
  induction k as [|k IH]; intros n last_err st Hn Hfail Hok H404 Hst Hb Hraw.
  - destruct n as [|n]; [lia|]. cbn [retry_loop]. unfold try_except.
    cbn [failed_attempts repeat concat] in Hok. rewrite app_nil_r in Hok.
    by rewrite (attempt_reply service self text st r data raw).
  - destruct n as [|n]; [lia|]. cbn [retry_loop]. unfold try_except.
    assert (H0 : service (trace st) (generate_request self text) = Fails).
    { rewrite <- (app_nil_r (trace st)). apply (Hfail 0%nat). lia. }
    assert (Ha : attempt service self text st
                 = (log (Post (generate_request self text)) st,
                    Raise ConnectionError)).
    { unfold attempt, bind, requests_post. by rewrite H0. }
    rewrite Ha. unfold bind, sleep, modify.
    rewrite (IH n (Some ConnectionError)
               (log (Sleep 1) (log (Post (generate_request self text)) st)));
      [| lia | | | done..].
    + cbn [log trace _cache paragraphs]. rewrite failed_attempts_S.
      by rewrite <- !app_assoc.
    + intros i Hi. cbn [log trace]. rewrite <- !app_assoc.
      apply (Hfail (S i)). lia.
    + cbn [log trace]. rewrite <- !app_assoc. exact Hok.
Qed.

Lemma attempt_chat text st r1 r2 data raw :
  service (trace st) (generate_request self text) = Responds r1 ->
  status_code r1 = 404%Z ->
  service (trace st ++ [Post (generate_request self text)])
    (chat_request self text) = Responds r2 ->
  ~ (400 <= status_code r2 < 600)%Z ->
  body r2 = Some data -> raw_text_of data = Return raw ->
  attempt service self text st
  = (log (Post (chat_request self text))
       (log (Post (generate_request self text)) st),
     Return (cleaned_or_text raw text)).
Proof.
  intros H1 H404 H2 Hs Hb Hraw.
  unfold attempt, bind, requests_post, lift, ret. rewrite H1, H404.
  cbn [Z.eqb Pos.eqb log trace]. rewrite H2.
  unfold raise_for_status, response_json.
  assert ((400 <=? status_code r2)%Z && (status_code r2 <? 600)%Z = false) as ->.
  { apply andb_false_iff.
    destruct (Z.leb_spec 400 (status_code r2)); [right|by left].
    apply Z.ltb_ge. lia. }
  by rewrite Hb, Hraw.
Qed.

End Recovery.

(** X23: a service that comes back is waited for. When the service
    cannot be reached for the first [k] attempts of a logical call and
    answers the next one, and [k] is within the retry budget, the call
    returns the cleaned answer after [k] pauses of one second and
    [k + 1] requests; the failures leave nothing else behind. *)
Theorem X23_retry_recovers service self text st r data raw k :
  (Z.of_nat k <= retry self)%Z ->
  (forall i, (i < k)%nat ->
     service (trace st ++ [Call text] ++ failed_attempts self text i)
       (generate_request self text) = Fails) ->
  service (trace st ++ [Call text] ++ failed_attempts self text k)
    (generate_request self text) = Responds r ->
  status_code r <> 404%Z -> ~ (400 <= status_code r < 600)%Z ->
  body r = Some data -> raw_text_of data = Return raw ->
  _translate_once service self text st
  = ({| _cache := _cache st;
        trace := trace st ++ [Call text] ++ failed_attempts self text k
                 ++ [Post (generate_request self text)];
        paragraphs := paragraphs st |},
     Return (cleaned_or_text raw text)).
Proof.
  intros Hk Hfail Hok H404 Hst Hb Hraw. unfold _translate_once, bind, modify.
  rewrite (retry_loop_recovers service self text r data raw k); [| lia | | | done..].
  - cbn [log trace _cache paragraphs]. by rewrite <- !app_assoc.
  - intros i Hi. cbn [log trace]. rewrite <- app_assoc. by apply Hfail.
  - cbn [log trace]. rewrite <- app_assoc. exact Hok.
Qed.

Lemma X23_retry_recovers_witness :
  _translate_once (flaky_service 2 (Py.u "<translation>你好</translation>"))
    (demo_translator 1500 2) (Py.u "Hello.") fresh
  = ({| _cache := _cache fresh;
        trace := trace fresh ++ [Call (Py.u "Hello.")]
                 ++ failed_attempts (demo_translator 1500 2) (Py.u "Hello.") 2
                 ++ [Post (generate_request (demo_translator 1500 2) (Py.u "Hello."))];
        paragraphs := paragraphs fresh |},
     Return (Py.u "你好")).
Proof.
  apply (X23_retry_recovers _ _ _ _
           {| status_code := 200;
              body := Some (JDict [ (Py.u "response",
                                     JStr (Py.u "<translation>你好</translation>")) ]) |}
           (JDict [ (Py.u "response", JStr (Py.u "<translation>你好</translation>")) ])
           (Py.u "<translation>你好</translation>") 2).
  - cbn. lia.
  - intros [|[|i]] Hi; [reflexivity|reflexivity|lia].
  - reflexivity.
  - cbn. lia.
  - cbn. lia.
  - reflexivity.
  - vm_compute. reflexivity.
Defined.

(** X24: a service without [/api/generate] is asked on [/api/chat]. When
    the first request of a logical call is answered with status 404, the
    same attempt sends the chat request, with the instruction as the
    message of the system and the text as the message of the user, and
    the call returns the cleaned text of its answer without a pause. The
    text of a chat answer is the trimmed [content] of its [message]. *)
Theorem X24_chat_fallback service self text st r1 r2 data raw :
  (0 <= retry self)%Z ->
  service (trace st ++ [Call text]) (generate_request self text) = Responds r1 ->
  status_code r1 = 404%Z ->
  service (trace st ++ [Call text; Post (generate_request self text)])
    (chat_request self text) = Responds r2 ->
  ~ (400 <= status_code r2 < 600)%Z ->
  body r2 = Some data -> raw_text_of data = Return raw ->
  _translate_once service self text st
  = (log (Post (chat_request self text))
       (log (Post (generate_request self text)) (log (Call text) st)),
     Return (cleaned_or_text raw text))
  /\ (forall role content,
        Py.truthy content = true ->
        raw_text_of (JDict [ (Py.u "message",
                              JDict [ (Py.u "role", JStr role);
                                      (Py.u "content", JStr content) ]) ])
        = Return (Py.strip content)).
Proof.
  intros Hretry H1 H404 H2 Hs Hb Hraw. split.
  - unfold _translate_once, bind, modify.
    destruct (Z.to_nat (retry self + 1)) as [|n] eqn:Hn; [lia|].
    cbn [retry_loop]. unfold try_except.
    rewrite (attempt_chat service self text (log (Call text) st) r1 r2 data raw);
      try done.
    cbn [log trace]. by rewrite <- app_assoc.
  - intros role content Hc. unfold raw_text_of, json_get.
    cbn [assoc]. 
    replace (Py.eqb (Py.u "response") (Py.u "message")) with false
      by (vm_compute; reflexivity).
    cbn [json_truthy].
    replace (Py.eqb (Py.u "message") (Py.u "message")) with true
      by (vm_compute; reflexivity).
    cbn [assoc].
    replace (Py.eqb (Py.u "content") (Py.u "role")) with false
      by (vm_compute; reflexivity).
    replace (Py.eqb (Py.u "content") (Py.u "content")) with true
      by (vm_compute; reflexivity).
    cbn [json_truthy json_strip]. by rewrite Hc.
Qed.

Lemma X24_chat_fallback_witness :
  _translate_once (chat_service (Py.u " <translation>你好</translation>\n"))
    (demo_translator 1500 2) (Py.u "Hello.") fresh
  = (log (Post (chat_request (demo_translator 1500 2) (Py.u "Hello.")))
       (log (Post (generate_request (demo_translator 1500 2) (Py.u "Hello.")))
          (log (Call (Py.u "Hello.")) fresh)),
     Return (Py.u "你好")).
Proof.
  apply (proj1 (X24_chat_fallback
                  (chat_service (Py.u " <translation>你好</translation>\n"))
                  (demo_translator 1500 2) (Py.u "Hello.") fresh
                  {| status_code := 404; body := None |}
                  {| status_code := 200;
                     body := Some (JDict [ (Py.u "message",
                                JDict [ (Py.u "role", JStr (Py.u "assistant"));
                                        (Py.u "content",
                                         JStr (Py.u " <translation>你好</translation>\n")) ]) ]) |}
                  (JDict [ (Py.u "message",
                            JDict [ (Py.u "role", JStr (Py.u "assistant"));
                                    (Py.u "content",
                                     JStr (Py.u " <translation>你好</translation>\n")) ]) ])
                  (Py.u "<translation>你好</translation>")
                  ltac:(cbn; lia) eq_refl eq_refl eq_refl ltac:(cbn; lia) eq_refl
                  ltac:(vm_compute; reflexivity))).
Defined.


(** ** The cache through a book *)

Lemma cache_kept_refl st : cache_kept st st.
Proof. by intros k v. Qed.

Lemma cache_kept_trans st1 st2 st3 :
  cache_kept st1 st2 -> cache_kept st2 st3 -> cache_kept st1 st3.
Proof. intros H1 H2 k v H. by apply H2, H1. Qed.

Lemma keeps_cache_dret {A} (a : A) : keeps_cache (dret a).
Proof. intros ds. apply cache_kept_refl. Qed.

Lemma keeps_cache_dbind {A B} (m : D A) (k : A -> D B) :
  keeps_cache m -> (forall a, keeps_cache (k a)) -> keeps_cache (dbind m k).
Proof.
  intros Hm Hk ds. unfold dbind. specialize (Hm ds).
  destruct (m ds) as [ds1 [a|e]]; cbn [fst] in *; [|done].
  eapply cache_kept_trans; [exact Hm|apply Hk].
Qed.

Lemma keeps_cache_for_each {A} (f : A -> D unit) l :
  (forall x, keeps_cache (f x)) -> keeps_cache (for_each f l).
Proof.
  intros Hf. induction l as [|x l IH]; [apply keeps_cache_dret|].
  cbn [for_each]. by apply keeps_cache_dbind.
Qed.

Lemma keeps_cache_new_run p r : keeps_cache (new_run p r).
Proof. intros ds. apply cache_kept_refl. Qed.

Lemma keeps_cache_add_run xml_char_ok p text :
  keeps_cache (add_run xml_char_ok p text).
Proof.
  intros ds. unfold add_run.
  destruct (append_to_run xml_char_ok [] [] text). apply cache_kept_refl.
Qed.

Section CacheThrough.

Variable service : list event -> request -> outcome.
Variable translator : OllamaTranslator.
Variable xml_char_ok : N -> bool.
Variable add_picture_ok : str -> bool.

Lemma translate_text_keeps text st :
  cache_kept st (translate_text service translator text st).1.
Proof. intros k v. apply translate_text_cache_kept. Qed.

Lemma mapM_translate_text_keeps texts : forall st,
  cache_kept st (mapM (translate_text service translator) texts st).1.
Proof.
  induction texts as [|text texts IH]; intros st; [apply cache_kept_refl|].
  rewrite mapM_cons. pose proof (translate_text_keeps text st) as H1.
  destruct (translate_text service translator text st) as [st1 [v|e]];
    cbn [fst] in *; [|done].
  specialize (IH st1).
  destruct (mapM (translate_text service translator) texts st1) as [st2 [vs|e]];
    cbn [fst] in *; by eapply cache_kept_trans.
Qed.

Lemma keeps_cache_in_document {A} (m : M A) :
  (forall st, cache_kept st (m st).1) -> keeps_cache (in_document m).
Proof.
  intros H ds. unfold in_document. specialize (H (base ds)).
  by destruct (m (base ds)) as [st' r].
Qed.

Lemma keeps_cache_add_translated_text p text :
  keeps_cache (add_translated_text service translator xml_char_ok p text).
Proof.
  unfold add_translated_text.
  destruct (negb (Py.truthy text)); [apply keeps_cache_dret|].
  destruct (negb (Py.truthy (Py.strip text))); [apply keeps_cache_add_run|].
  apply keeps_cache_dbind.
  - apply keeps_cache_in_document, translate_text_keeps.
  - intros translated. destruct (Py.inb translated 10);
      [|apply keeps_cache_add_run].
    apply keeps_cache_for_each. intros [idx part].
    apply keeps_cache_dbind; [apply keeps_cache_add_run|]. intros _.
    destruct (_ <? _)%Z; [apply keeps_cache_new_run|apply keeps_cache_dret].
Qed.

Lemma keeps_cache_new_paragraph {A} (k : nat -> D A) :
  (forall p, keeps_cache (k p)) -> keeps_cache (dbind doc_add_paragraph k).
Proof.
  intros Hk. apply keeps_cache_dbind; [|done]. intros ds. apply cache_kept_refl.
Qed.

Lemma keeps_cache_doc_process_table tag :
  keeps_cache (doc_process_table service translator xml_char_ok tag).
Proof.
  unfold doc_process_table. apply keeps_cache_for_each. intros row.
  unfold doc_process_row. apply keeps_cache_dbind.
  - apply keeps_cache_in_document. intros st. rewrite process_cells_filter.
    unfold bind, ret.
    pose proof (mapM_translate_text_keeps
                  (List.filter Py.truthy
                     (map (get_text (Py.u " "))
                        (find_all [Py.u "td"; Py.u "th"] row))) st) as H.
    by destruct (mapM (translate_text service translator) _ st) as [st1 [ts|e]].
  - intros [|c cells]; [apply keeps_cache_dret|].
    unfold doc_add_paragraph_text. apply keeps_cache_new_paragraph. intros p.
    destruct (Py.truthy _); [apply keeps_cache_add_run|apply keeps_cache_dret].
Qed.

Lemma keeps_cache_add_segment p image_map doc_path seg :
  keeps_cache (add_segment service translator xml_char_ok add_picture_ok p image_map
                 doc_path seg).
Proof.
  destruct seg as [value|src]; cbn [add_segment];
    [apply keeps_cache_add_translated_text|].
  destruct (resolve_image_src src doc_path) as [resolved|];
    [|apply keeps_cache_dret].
  destruct (negb (Py.truthy resolved)); [apply keeps_cache_dret|].
  destruct (image_map !! resolved) as [img_path|]; [|apply keeps_cache_dret].
  destruct (negb (Py.truthy img_path)); [apply keeps_cache_dret|].
  unfold add_picture. destruct (add_picture_ok img_path);
    [apply keeps_cache_new_run|].
  apply keeps_cache_dbind; [apply keeps_cache_new_run|].
  intros _ ds. apply cache_kept_refl.
Qed.

Lemma keeps_cache_process_block name attrs children image_map doc_path :
  keeps_cache (process_block service translator xml_char_ok add_picture_ok name attrs
                 children image_map doc_path).
Proof.
  unfold process_block. destruct (Py.eqb name (Py.u "table")).
  - apply keeps_cache_doc_process_table.
  - apply keeps_cache_new_paragraph. intros p. apply keeps_cache_dbind.
    + destruct (existsb _ _); [|destruct (Py.eqb _ _)];
        intros ds; apply cache_kept_refl.
    + intros _. apply keeps_cache_for_each. intros seg.
      apply keeps_cache_add_segment.
Qed.

Lemma keeps_cache_process_child image_map doc_path child :
  keeps_cache (process_child service translator xml_char_ok add_picture_ok image_map
                 doc_path child).
Proof.
  destruct child as [s|name attrs children| |s]; cbn [process_child].
  - destruct (Py.truthy (Py.strip s)); [|apply keeps_cache_dret].
    apply keeps_cache_new_paragraph. intros p.
    apply keeps_cache_add_translated_text.
  - destruct (existsb _ _); [apply keeps_cache_process_block|].
    apply keeps_cache_new_paragraph. intros p.
    apply keeps_cache_for_each. intros seg. apply keeps_cache_add_segment.
  - apply keeps_cache_dret.
  - destruct (Py.truthy (Py.strip s)); [|apply keeps_cache_dret].
    apply keeps_cache_new_paragraph. intros p.
    apply keeps_cache_add_translated_text.
Qed.

Lemma keeps_cache_process_document_item item image_map :
  keeps_cache (process_document_item service translator xml_char_ok add_picture_ok item
                 image_map).
Proof.
  unfold process_document_item.
  destruct (body_children item) as [children|]; [|apply keeps_cache_dret].
  apply keeps_cache_for_each. intros child. apply keeps_cache_process_child.
Qed.

Lemma translate_sections_keeps paragraph_text open_ok image_map output_dir
    total items :
  forall st files,
    cache_kept st
      (translate_sections service xml_char_ok add_picture_ok paragraph_text
         open_ok translator image_map output_dir total items st files).1.1.
Proof.
  induction items as [|[idx item] items IH]; intros st files;
    [apply cache_kept_refl|].
  cbn [translate_sections].
  pose proof (keeps_cache_process_document_item item image_map
                {| base := st; document := [] |}) as H.
  destruct (process_document_item service translator xml_char_ok add_picture_ok
              item image_map {| base := st; document := [] |}) as [ds [[]|e]];
    cbn [fst base] in *; [|done].
  destruct (negb (open_ok _)); [done|].
  destruct (negb (open_ok _)); [done|].
  eapply cache_kept_trans; [exact H|apply IH].
Qed.

Lemma add_translated_text_cached p text v ds :
  Py.strip text <> [] -> _cache (base ds) !! text = Some v ->
  exists rs,
    (add_translated_text service translator xml_char_ok p text ds).1
    = {| base := base ds; document := alter (add_runs rs) p (document ds) |}
    /\ pictures_of rs = []
    /\ (exists rest, read_back v = spelled rs ++ rest)
    /\ (forallb (writable xml_char_ok) v = true ->
        (add_translated_text service translator xml_char_ok p text ds).2 = Done tt
        /\ rs = line_runs (map read_back (Py.split 0x0A v)))
    /\ (forallb (writable xml_char_ok) v = false ->
        exists part,
          (add_translated_text service translator xml_char_ok p text ds).2
          = Failed (ValueError part)).
Proof.
  intros Hs Hc.
  destruct (add_translated_text_runs service translator xml_char_ok p text ds)
    as (rs & H1 & H2 & H3).
  rewrite (translate_text_hit service translator text (base ds) v) in H1, H3
    by done.
  cbn [fst snd] in *. destruct H3 as (H3 & H4 & H5).
  exists rs. split; [done|]. split; [done|]. split; [done|]. split; [|done].
  intros Hw. destruct (H4 Hw) as (Hd & _ & Hl). split; [done|by apply Hl].
Qed.

End CacheThrough.

(** X25: the cache serves the whole book. Through the sections of a run
    every entry of the cache is kept, whether the run returns or raises;
    and for a text that is in the cache [add_translated_text] makes no
    request and leaves the translator as it is: it adds runs to the
    paragraph that hold no picture and spell the beginning of the cached
    translation, read as the document gives it back. When a run takes
    every character of the cached translation, the call returns and the
    runs are its lines, with a break between two lines; otherwise it
    raises [ValueError]. *)
Theorem X25_cache_serves_the_book service translator xml_char_ok add_picture_ok :
  (forall paragraph_text open_ok image_map output_dir total items st files,
      cache_kept st
        (translate_sections service xml_char_ok add_picture_ok paragraph_text
           open_ok translator image_map output_dir total items st files).1.1)
  /\ (forall p text v ds,
        Py.strip text <> [] -> _cache (base ds) !! text = Some v ->
        exists rs,
          (add_translated_text service translator xml_char_ok p text ds).1
          = {| base := base ds;
               document := alter (add_runs rs) p (document ds) |}
          /\ pictures_of rs = []
          /\ (exists rest, read_back v = spelled rs ++ rest)
          /\ (forallb (writable xml_char_ok) v = true ->
              (add_translated_text service translator xml_char_ok p text ds).2
              = Done tt
              /\ rs = line_runs (map read_back (Py.split 0x0A v)))
          /\ (forallb (writable xml_char_ok) v = false ->
              exists part,
                (add_translated_text service translator xml_char_ok p text ds).2
                = Failed (ValueError part))).
Proof.
  split.
  - intros. apply translate_sections_keeps.
  - intros. by apply add_translated_text_cached.
Qed.

Lemma X25_cache_serves_the_book_witness :
  let st := (translate_text mock_service (demo_translator 1500 2)
               (Py.u "Hello.") fresh).1 in
  Py.strip (Py.u "Hello.") <> []
  /\ _cache st !! Py.u "Hello." = Some (Py.u "译Hello.")
  /\ forallb (writable xml_1_0_char) (Py.u "译Hello.") = true
  /\ add_translated_text down_service (demo_translator 1500 2) xml_1_0_char 0
       (Py.u "Hello.")
       {| base := st; document := [ {| style := None; runs := [] |} ] |}
     = ({| base := st;
           document := [ {| style := None; runs := [text_run (Py.u "译Hello.")] |} ] |},
        Done tt).
Proof.
  cbv zeta.
  assert (Hs : Py.strip (Py.u "Hello.") <> []) by (vm_compute; discriminate).
  assert (Hc : _cache (translate_text mock_service (demo_translator 1500 2)
                         (Py.u "Hello.") fresh).1 !! Py.u "Hello."
               = Some (Py.u "译Hello.")) by (vm_compute; reflexivity).
  assert (Hw : forallb (writable xml_1_0_char) (Py.u "译Hello.") = true)
    by (vm_compute; reflexivity).
  split; [exact Hs|]. split; [exact Hc|]. split; [exact Hw|].
  destruct (proj2 (X25_cache_serves_the_book down_service (demo_translator 1500 2)
                     xml_1_0_char every_picture_ok) 0%nat (Py.u "Hello.")
              (Py.u "译Hello.")
              {| base := _; document := [ {| style := None; runs := [] |} ] |}
              Hs Hc) as (rs & H1 & _ & _ & H4 & _).
  destruct (H4 Hw) as [Hd ->].
  destruct (add_translated_text _ _ _ _ _ _) as [ds' r]. cbn [fst snd] in *.
  subst ds' r. vm_compute. reflexivity.
Defined.


(** ** A run with a service that answers *)

(** *** Texts that a document takes *)

Section Taken.

Variable xml_char_ok : N -> bool.
Hypothesis space_ok : xml_char_ok 0x20 = true.

Lemma takes_forallb s : takes xml_char_ok s <-> forallb (writable xml_char_ok) s = true.
Proof.
  unfold takes. rewrite forallb_forall, List.Forall_forall. done.
Qed.

Lemma takes_app a b : takes xml_char_ok a -> takes xml_char_ok b -> takes xml_char_ok (a ++ b).
Proof. intros Ha Hb. by apply Forall_app. Qed.

Lemma takes_app_inv a b :
  takes xml_char_ok (a ++ b) -> takes xml_char_ok a /\ takes xml_char_ok b.
Proof. intros H. by apply Forall_app in H. Qed.

Lemma takes_newline : takes xml_char_ok (Py.u "\n").
Proof. by repeat constructor. Qed.

Lemma takes_tab : takes xml_char_ok (Py.u "\t").
Proof. by repeat constructor. Qed.

Lemma takes_space : takes xml_char_ok (Py.u " ").
Proof using space_ok.
  change (Py.u " ") with [32%N]. constructor; [|constructor].
  unfold writable. by rewrite space_ok, orb_true_r.
Qed.

Lemma takes_strip s : takes xml_char_ok s -> takes xml_char_ok (Py.strip s).
Proof. apply strip_Forall. Qed.

Lemma takes_concat l :
  Forall (takes xml_char_ok) l -> takes xml_char_ok (concat l).
Proof.
  induction 1 as [|x l Hx Hl IH]; [constructor|]. cbn [concat].
  by apply takes_app.
Qed.

Lemma takes_join sp l :
  takes xml_char_ok sp -> Forall (takes xml_char_ok) l ->
  takes xml_char_ok (Py.join sp l).
Proof.
  intros Hsp. induction 1 as [|x l Hx Hl IH]; [constructor|].
  rewrite join_tail. apply takes_app; [done|].
  destruct l; [constructor|]. by apply takes_app.
Qed.

Lemma takes_sentences s : forall in_sep after_term,
  takes xml_char_ok s ->
  Forall (takes xml_char_ok) (SENTENCE_SPLIT_RE_split_from in_sep after_term s).
Proof.
  induction s as [|c s IH]; intros in_sep after_term Hs.
  - repeat constructor.
  - apply Forall_cons in Hs as [Hc Hs]. cbn [SENTENCE_SPLIT_RE_split_from].
    destruct (Py.isspace c && (in_sep || after_term)).
    + destruct in_sep; [by apply IH|]. constructor; [constructor|by apply IH].
    + pose proof (IH false (SENTENCE_TERMINATOR c) Hs) as H.
      destruct (SENTENCE_SPLIT_RE_split_from false (SENTENCE_TERMINATOR c) s)
        as [|p ps].
      * by repeat constructor.
      * apply Forall_cons in H as [Hp Hps]. constructor; [|done].
        by constructor.
Qed.

Lemma takes_split_text text max_chars :
  takes xml_char_ok text ->
  Forall (takes xml_char_ok) (split_text text max_chars).
Proof using space_ok.
  intros Ht. unfold split_text, SENTENCE_SPLIT_RE_split.
  pose proof (takes_sentences text false false Ht) as Hparts.
  assert (Hfold : forall parts st,
             Forall (takes xml_char_ok) parts ->
             Forall (takes xml_char_ok) st.1 -> takes xml_char_ok st.2 ->
             Forall (takes xml_char_ok)
               (fold_left (split_text_step max_chars) parts st).1
             /\ takes xml_char_ok
                  (fold_left (split_text_step max_chars) parts st).2).
  { induction parts as [|part parts IH]; intros [chunks buf] Hp Hc Hb; [done|].
    apply Forall_cons in Hp as [Hpart Hp]. cbn [fold_left fst snd] in *.
    apply IH; [done| |]; unfold split_text_step;
      destruct (negb (Py.truthy part)); cbn [fst snd]; try done;
      destruct (_ <=? _)%Z; cbn [fst snd]; try done.
    - destruct (Py.truthy buf); [|done]. apply Forall_app. by repeat constructor.
    - apply takes_strip, takes_app; [done|]. apply takes_app; [|done].
      apply takes_space. }
  destruct (Hfold (SENTENCE_SPLIT_RE_split_from false false text) ([], []) Hparts)
    as [Hc Hb]; [constructor|constructor|].
  destruct (fold_left _ _ _) as [chunks buf]. cbn [fst snd] in *.
  destruct (Py.truthy buf); [|done]. apply Forall_app. by repeat constructor.
Qed.

Lemma takes_splitlines s : forall after_cr,
  takes xml_char_ok s -> Forall (takes xml_char_ok) (Py.splitlines_from after_cr s).
Proof.
  induction s as [|c s IH]; intros after_cr Hs; [constructor|].
  apply Forall_cons in Hs as [Hc Hs]. cbn [Py.splitlines_from].
  destruct (after_cr && (c =? 10)%N); [by apply IH|].
  destruct (Py.islinebreak c); [constructor; [constructor|by apply IH]|].
  pose proof (IH false Hs) as H.
  destruct (Py.splitlines_from false s) as [|l ls]; [by repeat constructor|].
  apply Forall_cons in H as [Hl Hls]. constructor; [|done]. by constructor.
Qed.

Lemma takes_search raw content :
  TRANSLATION_TAG_RE_search raw = Some content ->
  takes xml_char_ok raw -> takes xml_char_ok content.
Proof.
  intros H Hraw.
  apply TRANSLATION_TAG_RE_search_sound in H
    as (before & opening & closing & after & -> & _).
  apply takes_app_inv in Hraw as [_ Hraw].
  apply takes_app_inv in Hraw as [_ Hraw].
  by apply takes_app_inv in Hraw as [Hraw _].
Qed.

Lemma takes_extract_translation_only raw :
  takes xml_char_ok raw -> takes xml_char_ok (extract_translation_only raw).
Proof.
  intros Hraw. unfold extract_translation_only.
  destruct (negb (Py.truthy raw)); [constructor|].
  assert (Hc : takes xml_char_ok
                 match TRANSLATION_TAG_RE_search raw with
                 | Some group1 => Py.strip group1
                 | None => []
                 end).
  { destruct (TRANSLATION_TAG_RE_search raw) as [content|] eqn:E; [|constructor].
    apply takes_strip. by apply (takes_search raw). }
  destruct (Py.truthy _); [done|].
  apply takes_strip, takes_join; [apply takes_newline|].
  rewrite clean_lines_filter. cbn [app].
  apply List.Forall_forall. intros l Hl.
  apply filter_In in Hl as [Hl _]. apply filter_In in Hl as [Hl _].
  apply in_map_iff in Hl as (line & <- & Hline). apply takes_strip.
  pose proof (takes_splitlines raw false Hraw) as Hlines.
  rewrite List.Forall_forall in Hlines. by apply Hlines.
Qed.

Lemma takes_cleaned_or_text raw text :
  takes xml_char_ok raw -> takes xml_char_ok text ->
  takes xml_char_ok (cleaned_or_text raw text).
Proof.
  intros Hraw Ht. unfold cleaned_or_text.
  destruct (Py.truthy _); [by apply takes_extract_translation_only|done].
Qed.

(** The strings of a tree. *)
Lemma takes_document_order n :
  takes_node xml_char_ok n = true ->
  Forall (fun seg => match seg with
                     | text_segment value => takes xml_char_ok value
                     | img_segment _ => True
                     end) (document_order n).
Proof.
  induction n as [s| |name attrs children IH|s] using node_induction;
    cbn [takes_node document_order]; intros H.
  - constructor; [by apply takes_forallb|constructor].
  - constructor.
  - destruct (Py.eqb name (Py.u "img")); [by repeat constructor|].
    destruct (Py.eqb name (Py.u "br")).
    { constructor; [apply takes_newline|constructor]. }
    induction IH as [|c children Hc _ IHc]; [constructor|].
    cbn [forallb flat_map] in *. apply andb_true_iff in H as [H1 H2].
    apply Forall_app. split; [by apply Hc|by apply IHc].
  - constructor; [by apply takes_forallb|constructor].
Qed.

Lemma takes_merge_runs l :
  Forall (fun seg => match seg with
                     | text_segment value => takes xml_char_ok value
                     | img_segment _ => True
                     end) l ->
  Forall (fun seg => match seg with
                     | text_segment value => takes xml_char_ok value
                     | img_segment _ => True
                     end) (merge_runs l).
Proof.
  induction 1 as [|seg l Hseg Hl IH]; [constructor|].
  destruct seg as [a|src]; cbn [merge_runs]; [|by constructor].
  destruct (merge_runs l) as [|[b|src] m]; [by repeat constructor| |by constructor].
  apply Forall_cons in IH as [Hb Hm]. constructor; [by apply takes_app|done].
Qed.

Lemma takes_extract_inline_segments n :
  takes_node xml_char_ok n = true ->
  Forall (fun seg => match seg with
                     | text_segment value => takes xml_char_ok value
                     | img_segment _ => True
                     end) (extract_inline_segments n).
Proof.
  intros H. unfold extract_inline_segments.
  rewrite merge_text_segments_runs, walk_document_order.
  by apply takes_merge_runs, takes_document_order.
Qed.

Lemma takes_all_strings n :
  takes_node xml_char_ok n = true -> Forall (takes xml_char_ok) (all_strings n).
Proof.
  induction n as [s| |name attrs children IH|s] using node_induction;
    cbn [takes_node all_strings]; intros H.
  - constructor; [by apply takes_forallb|constructor].
  - constructor.
  - induction IH as [|c children Hc _ IHc]; [constructor|].
    cbn [forallb flat_map] in *. apply andb_true_iff in H as [H1 H2].
    apply Forall_app. split; [by apply Hc|by apply IHc].
  - constructor.
Qed.

Lemma takes_get_text n :
  takes_node xml_char_ok n = true -> takes xml_char_ok (get_text (Py.u " ") n).
Proof using space_ok.
  intros H. unfold get_text. apply takes_join; [apply takes_space|].
  apply List.Forall_forall. intros s Hs. apply filter_In in Hs as [Hs _].
  apply in_map_iff in Hs as (s0 & <- & Hs0). apply takes_strip.
  pose proof (takes_all_strings n H) as Hall.
  rewrite List.Forall_forall in Hall. by apply Hall.
Qed.

Lemma takes_descendants n :
  takes_node xml_char_ok n = true ->
  Forall (fun d => takes_node xml_char_ok d = true) (descendants n).
Proof.
  induction n as [s| |name attrs children IH|s] using node_induction;
    cbn [takes_node descendants]; intros H; try constructor.
  induction IH as [|c children Hc _ IHc]; [constructor|].
  cbn [forallb flat_map] in *. apply andb_true_iff in H as [H1 H2].
  constructor; [done|]. apply Forall_app. split; [by apply Hc|by apply IHc].
Qed.

Lemma takes_find_all names n :
  takes_node xml_char_ok n = true ->
  Forall (fun d => takes_node xml_char_ok d = true) (find_all names n).
Proof.
  intros H. unfold find_all. apply List.Forall_forall. intros d Hd.
  apply filter_In in Hd as [Hd _].
  pose proof (takes_descendants n H) as Hall.
  rewrite List.Forall_forall in Hall. by apply Hall.
Qed.

End Taken.

(** *** What the computations of the writer do *)

Lemma ror_dret {A} (a : A) : returns_or_refuses (dret a).
Proof. intros ds. left. by exists a. Qed.

Lemma ror_dbind {A B} (m : D A) (k : A -> D B) :
  returns_or_refuses m -> (forall a, returns_or_refuses (k a)) ->
  returns_or_refuses (dbind m k).
Proof.
  intros Hm Hk ds. unfold dbind. destruct (Hm ds) as [[a Ha]|[text Ha]];
    destruct (m ds) as [ds1 r]; cbn [snd] in Ha; subst r; [apply Hk|].
  right. by exists text.
Qed.

Lemma ror_for_each {A} (f : A -> D unit) l :
  (forall x, returns_or_refuses (f x)) -> returns_or_refuses (for_each f l).
Proof.
  intros Hf. induction l as [|x l IH]; [apply ror_dret|].
  cbn [for_each]. by apply ror_dbind.
Qed.

Lemma ror_new_run p r : returns_or_refuses (new_run p r).
Proof. intros ds. left. by exists tt. Qed.

Lemma ror_add_run xml_char_ok p text : returns_or_refuses (add_run xml_char_ok p text).
Proof.
  intros ds. destruct (add_run_spec xml_char_ok p text ds) as (_ & _ & _ & -> & _).
  destruct (forallb _ text); [left|right]; by eexists.
Qed.

Lemma ror_new_paragraph {A} (k : nat -> D A) :
  (forall p, returns_or_refuses (k p)) ->
  returns_or_refuses (dbind doc_add_paragraph k).
Proof. intros Hk. apply ror_dbind; [|done]. intros ds. left. by eexists. Qed.

Lemma gt_dret xml_char_ok {A} (a : A) : goes_through xml_char_ok (dret a).
Proof. intros ds Hc. split; [by exists a|done]. Qed.

Lemma gt_dbind xml_char_ok {A B} (m : D A) (k : A -> D B) :
  goes_through xml_char_ok m -> (forall a, goes_through xml_char_ok (k a)) ->
  goes_through xml_char_ok (dbind m k).
Proof.
  intros Hm Hk ds Hc. unfold dbind. destruct (Hm ds Hc) as [[a Ha] Hc1].
  destruct (m ds) as [ds1 r]; cbn [fst snd] in *. subst r. by apply Hk.
Qed.

Lemma gt_for_each xml_char_ok {A} (f : A -> D unit) l :
  Forall (fun x => goes_through xml_char_ok (f x)) l ->
  goes_through xml_char_ok (for_each f l).
Proof.
  induction 1 as [|x l Hx Hl IH]; [apply gt_dret|].
  cbn [for_each]. by apply gt_dbind.
Qed.

Lemma gt_new_run xml_char_ok p r : goes_through xml_char_ok (new_run p r).
Proof. intros ds Hc. split; [by exists tt|done]. Qed.

Lemma gt_add_run xml_char_ok p text :
  takes xml_char_ok text -> goes_through xml_char_ok (add_run xml_char_ok p text).
Proof.
  intros Ht ds Hc. apply takes_forallb in Ht.
  destruct (add_run_spec xml_char_ok p text ds) as (stored & -> & _ & -> & _).
  rewrite Ht. split; [by exists tt|done].
Qed.

Lemma gt_new_paragraph xml_char_ok {A} (k : nat -> D A) :
  (forall p, goes_through xml_char_ok (k p)) ->
  goes_through xml_char_ok (dbind doc_add_paragraph k).
Proof.
  intros Hk. apply gt_dbind; [|done]. intros ds Hc. split; [by eexists|done].
Qed.

Section Healthy.

Variable service : list event -> request -> outcome.
Variable translator : OllamaTranslator.
Variable xml_char_ok : N -> bool.
Variable add_picture_ok : str -> bool.
Variable image_map : gmap str str.

Hypothesis service_healthy : healthy service.
Hypothesis retry_budget : (0 <= retry translator)%Z.
Hypothesis pictures_ok :
  forall src img_path, image_map !! src = Some img_path ->
                       add_picture_ok img_path = true.

Lemma _translate_once_healthy text st :
  exists v, (_translate_once service translator text st).2 = Return v.
Proof using service_healthy retry_budget.
  destruct (service_healthy (trace st ++ [Call text])
              (generate_request translator text))
    as (r & data & raw & Hs & H404 & Hst & Hb & Hraw).
  rewrite (_translate_once_reply service translator text st r data raw) by done.
  by eexists.
Qed.

Lemma mapM_translate_once_healthy chunks : forall st,
  exists vs, (mapM (_translate_once service translator) chunks st).2 = Return vs.
Proof using service_healthy retry_budget.
  induction chunks as [|chunk chunks IH]; intros st; [by exists []|].
  rewrite mapM_cons. destruct (_translate_once_healthy chunk st) as [v Hv].
  destruct (_translate_once service translator chunk st) as [st1 r];
    cbn [snd] in Hv. subst r.
  destruct (IH st1) as [vs Hvs].
  destruct (mapM (_translate_once service translator) chunks st1) as [st2 r];
    cbn [snd] in Hvs. subst r. by eexists.
Qed.

Lemma translate_text_healthy text st :
  exists v, (translate_text service translator text st).2 = Return v.
Proof using service_healthy retry_budget.
  destruct (decide (Py.strip text = [])) as [Hb|Hb].
  { rewrite translate_text_blank by done. by eexists. }
  destruct (_cache st !! text) as [cached|] eqn:Hc.
  { rewrite (translate_text_hit service translator text st cached) by done.
    by eexists. }
  rewrite translate_text_miss by done. unfold bind, store, modify, ret.
  destruct (mapM_translate_once_healthy (chunks_of translator text) st) as [vs Hvs].
  destruct (mapM (_translate_once service translator) _ st) as [st1 r];
    cbn [snd] in Hvs. subst r. by eexists.
Qed.

Lemma mapM_translate_text_healthy texts : forall st,
  exists vs, (mapM (translate_text service translator) texts st).2 = Return vs.
Proof using service_healthy retry_budget.
  induction texts as [|text texts IH]; intros st; [by exists []|].
  rewrite mapM_cons. destruct (translate_text_healthy text st) as [v Hv].
  destruct (translate_text service translator text st) as [st1 r];
    cbn [snd] in Hv. subst r.
  destruct (IH st1) as [vs Hvs].
  destruct (mapM (translate_text service translator) texts st1) as [st2 r];
    cbn [snd] in Hvs. subst r. by eexists.
Qed.

Lemma ror_add_translated_text p text :
  returns_or_refuses (add_translated_text service translator xml_char_ok p text).
Proof using service_healthy retry_budget.
  intros ds.
  destruct (add_translated_text_runs service translator xml_char_ok p text ds)
    as (rs & _ & _ & H).
  destruct (translate_text_healthy text (base ds)) as [v Hv]. rewrite Hv in H.
  destruct H as (_ & Hok & Hbad).
  destruct (forallb (writable xml_char_ok) v).
  - left. exists tt. by apply Hok.
  - right. by apply Hbad.
Qed.

Lemma ror_add_segment p doc_path seg :
  returns_or_refuses (add_segment service translator xml_char_ok add_picture_ok
                        p image_map doc_path seg).
Proof using service_healthy retry_budget pictures_ok.
  destruct seg as [value|src]; cbn [add_segment];
    [apply ror_add_translated_text|].
  destruct (resolve_image_src src doc_path) as [resolved|]; [|apply ror_dret].
  destruct (negb (Py.truthy resolved)); [apply ror_dret|].
  destruct (image_map !! resolved) as [img_path|] eqn:E; [|apply ror_dret].
  destruct (negb (Py.truthy img_path)); [apply ror_dret|].
  unfold add_picture. rewrite (pictures_ok _ _ E). apply ror_new_run.
Qed.

Lemma ror_doc_process_table tag :
  returns_or_refuses (doc_process_table service translator xml_char_ok tag).
Proof using service_healthy retry_budget.
  unfold doc_process_table. apply ror_for_each. intros row.
  unfold doc_process_row. apply ror_dbind.
  - intros ds. unfold in_document. rewrite process_cells_filter.
    unfold bind, ret.
    destruct (mapM_translate_text_healthy
                (List.filter Py.truthy
                   (map (get_text (Py.u " "))
                      (find_all [Py.u "td"; Py.u "th"] row))) (base ds))
      as [vs Hvs].
    destruct (mapM (translate_text service translator) _ (base ds)) as [st1 r].
    cbn [snd] in Hvs. subst r. left. by eexists.
  - intros [|c cells]; [apply ror_dret|].
    unfold doc_add_paragraph_text. apply ror_new_paragraph. intros p.
    destruct (Py.truthy _); [apply ror_add_run|apply ror_dret].
Qed.

Lemma ror_process_child doc_path child :
  returns_or_refuses (process_child service translator xml_char_ok
                        add_picture_ok image_map doc_path child).
Proof using service_healthy retry_budget pictures_ok.
  destruct child as [s|name attrs children| |s]; cbn [process_child].
  - destruct (Py.truthy (Py.strip s)); [|apply ror_dret].
    apply ror_new_paragraph. intros p. apply ror_add_translated_text.
  - destruct (existsb _ _).
    + unfold process_block. destruct (Py.eqb name (Py.u "table")).
      * apply ror_doc_process_table.
      * apply ror_new_paragraph. intros p. apply ror_dbind.
        { destruct (existsb _ _); [|destruct (Py.eqb _ _)];
            intros ds; left; by eexists. }
        intros _. apply ror_for_each. intros seg. apply ror_add_segment.
    + apply ror_new_paragraph. intros p.
      apply ror_for_each. intros seg. apply ror_add_segment.
  - apply ror_dret.
  - destruct (Py.truthy (Py.strip s)); [|apply ror_dret].
    apply ror_new_paragraph. intros p. apply ror_add_translated_text.
Qed.

Lemma ror_process_document_item item :
  returns_or_refuses (process_document_item service translator xml_char_ok
                        add_picture_ok item image_map).
Proof using service_healthy retry_budget pictures_ok.
  unfold process_document_item.
  destruct (body_children item) as [children|]; [|apply ror_dret].
  apply ror_for_each. intros child. apply ror_process_child.
Qed.

(** With replies and a book that a document takes. *)

Hypothesis replies : replies_taken xml_char_ok service.
Hypothesis space_ok : xml_char_ok 0x20 = true.

Lemma _translate_once_taken text st :
  takes xml_char_ok text ->
  exists v,
    (_translate_once service translator text st).2 = Return v
    /\ takes xml_char_ok v
    /\ _cache (_translate_once service translator text st).1 = _cache st.
Proof using service_healthy retry_budget replies.
  intros Ht.
  destruct (service_healthy (trace st ++ [Call text])
              (generate_request translator text))
    as (r & data & raw & Hs & H404 & Hst & Hb & Hraw).
  rewrite (_translate_once_reply service translator text st r data raw) by done.
  eexists. split; [done|]. split; [|done].
  apply takes_cleaned_or_text; [|done]. by apply (replies _ _ _ _ _ Hs Hb Hraw).
Qed.

Lemma mapM_translate_once_taken chunks : forall st,
  Forall (takes xml_char_ok) chunks ->
  exists vs,
    (mapM (_translate_once service translator) chunks st).2 = Return vs
    /\ Forall (takes xml_char_ok) vs
    /\ _cache (mapM (_translate_once service translator) chunks st).1 = _cache st.
Proof using service_healthy retry_budget replies.
  induction chunks as [|chunk chunks IH]; intros st Hc; [by exists []|].
  apply Forall_cons in Hc as [Hchunk Hc]. rewrite mapM_cons.
  destruct (_translate_once_taken chunk st Hchunk) as (v & Hv & Htv & Hcv).
  destruct (_translate_once service translator chunk st) as [st1 r];
    cbn [fst snd] in *. subst r.
  destruct (IH st1 Hc) as (vs & Hvs & Htvs & Hcvs).
  destruct (mapM (_translate_once service translator) chunks st1) as [st2 r];
    cbn [fst snd] in *. subst r. eexists. split; [done|].
  split; [by constructor|cbn [fst]; congruence].
Qed.

Lemma translate_text_taken text st :
  takes xml_char_ok text -> cache_taken xml_char_ok st ->
  exists v,
    (translate_text service translator text st).2 = Return v
    /\ takes xml_char_ok v
    /\ cache_taken xml_char_ok (translate_text service translator text st).1.
Proof using service_healthy retry_budget replies space_ok.
  intros Ht Hc.
  destruct (decide (Py.strip text = [])) as [Hb|Hb].
  { rewrite translate_text_blank by done. by eexists. }
  destruct (_cache st !! text) as [cached|] eqn:Hl.
  { rewrite (translate_text_hit service translator text st cached) by done.
    eexists. split; [done|]. split; [by apply (Hc text)|done]. }
  rewrite translate_text_miss by done. unfold bind, store, modify, ret.
  assert (Hchunks : Forall (takes xml_char_ok) (chunks_of translator text)).
  { unfold chunks_of. destruct (_ <=? _)%Z; [by repeat constructor|].
    by apply takes_split_text. }
  destruct (mapM_translate_once_taken (chunks_of translator text) st Hchunks)
    as (vs & Hvs & Htvs & Hcvs).
  destruct (mapM (_translate_once service translator) _ st) as [st1 r];
    cbn [fst snd] in *. subst r. eexists. split; [done|].
  assert (Hv : takes xml_char_ok (concat vs)) by by apply takes_concat.
  split; [done|]. intros k v. cbn [fst set_cache _cache]. rewrite Hcvs.
  destruct (decide (text = k)) as [->|Hne].
  - first [rewrite lookup_insert_eq|rewrite lookup_insert]. by intros [= <-].
  - rewrite lookup_insert_ne by done. apply Hc.
Qed.

Lemma mapM_translate_text_taken texts : forall st,
  Forall (takes xml_char_ok) texts -> cache_taken xml_char_ok st ->
  exists vs,
    (mapM (translate_text service translator) texts st).2 = Return vs
    /\ Forall (takes xml_char_ok) vs
    /\ cache_taken xml_char_ok
         (mapM (translate_text service translator) texts st).1.
Proof using service_healthy retry_budget replies space_ok.
  induction texts as [|text texts IH]; intros st Ht Hc; [by exists []|].
  apply Forall_cons in Ht as [Htext Ht]. rewrite mapM_cons.
  destruct (translate_text_taken text st Htext Hc) as (v & Hv & Htv & Hcv).
  destruct (translate_text service translator text st) as [st1 r];
    cbn [fst snd] in *. subst r.
  destruct (IH st1 Ht Hcv) as (vs & Hvs & Htvs & Hcvs).
  destruct (mapM (translate_text service translator) texts st1) as [st2 r];
    cbn [fst snd] in *. subst r. eexists. split; [done|].
  split; [by constructor|done].
Qed.

Lemma gt_add_translated_text p text :
  takes xml_char_ok text ->
  goes_through xml_char_ok
    (add_translated_text service translator xml_char_ok p text).
Proof using service_healthy retry_budget replies space_ok.
  intros Ht ds Hc.
  destruct (add_translated_text_runs service translator xml_char_ok p text ds)
    as (rs & H1 & _ & H).
  destruct (translate_text_taken text (base ds) Ht Hc) as (v & Hv & Htv & Hcv).
  rewrite Hv in H. destruct H as (_ & Hok & _).
  apply takes_forallb in Htv. destruct (Hok Htv) as [Hd _].
  split; [by exists tt|]. by rewrite H1.
Qed.

Lemma gt_add_segment p doc_path seg :
  match seg with
  | text_segment value => takes xml_char_ok value
  | img_segment _ => True
  end ->
  goes_through xml_char_ok
    (add_segment service translator xml_char_ok add_picture_ok p image_map
       doc_path seg).
Proof using service_healthy retry_budget replies space_ok pictures_ok.
  destruct seg as [value|src]; cbn [add_segment]; intros Hseg;
    [by apply gt_add_translated_text|].
  destruct (resolve_image_src src doc_path) as [resolved|]; [|apply gt_dret].
  destruct (negb (Py.truthy resolved)); [apply gt_dret|].
  destruct (image_map !! resolved) as [img_path|] eqn:E; [|apply gt_dret].
  destruct (negb (Py.truthy img_path)); [apply gt_dret|].
  unfold add_picture. rewrite (pictures_ok _ _ E). apply gt_new_run.
Qed.

Lemma gt_segments p doc_path n :
  takes_node xml_char_ok n = true ->
  goes_through xml_char_ok
    (for_each (add_segment service translator xml_char_ok add_picture_ok p
                 image_map doc_path) (extract_inline_segments n)).
Proof using service_healthy retry_budget replies space_ok pictures_ok.
  intros Hn. apply gt_for_each.
  eapply List.Forall_impl; [|by apply takes_extract_inline_segments].
  intros seg Hseg. by apply gt_add_segment.
Qed.

Lemma gt_doc_process_table tag :
  takes_node xml_char_ok tag = true ->
  goes_through xml_char_ok (doc_process_table service translator xml_char_ok tag).
Proof using service_healthy retry_budget replies space_ok.
  intros Htag. unfold doc_process_table. apply gt_for_each.
  eapply List.Forall_impl; [|by apply (takes_find_all xml_char_ok [Py.u "tr"])].
  intros row Hrow ds Hc. cbv beta in Hrow.
  unfold doc_process_row, dbind, in_document. rewrite process_cells_filter.
  unfold bind, ret.
  assert (Htexts : Forall (takes xml_char_ok)
                     (List.filter Py.truthy
                        (map (get_text (Py.u " "))
                           (find_all [Py.u "td"; Py.u "th"] row)))).
  { apply List.Forall_forall. intros s Hs. apply filter_In in Hs as [Hs _].
    apply in_map_iff in Hs as (cell & <- & Hcell).
    apply takes_get_text; [done|].
    pose proof (takes_find_all xml_char_ok [Py.u "td"; Py.u "th"] row Hrow) as H.
    rewrite List.Forall_forall in H. by apply H. }
  destruct (mapM_translate_text_taken _ (base ds) Htexts Hc)
    as (vs & Hvs & Htvs & Hcvs).
  destruct (mapM (translate_text service translator) _ (base ds)) as [st1 r].
  cbn [fst snd app] in *. subst r.
  destruct vs as [|c cells]; [split; [by eexists|done]|].
  apply (gt_new_paragraph xml_char_ok
           (fun p => if Py.truthy (Py.join (Py.u "\t") (c :: cells))
                     then add_run xml_char_ok p (Py.join (Py.u "\t") (c :: cells))
                     else dret tt));
    [|done].
  intros p. destruct (Py.truthy _); [|apply gt_dret].
  apply gt_add_run, takes_join; [apply takes_tab|done].
Qed.

Lemma gt_process_child doc_path child :
  takes_node xml_char_ok child = true ->
  goes_through xml_char_ok
    (process_child service translator xml_char_ok add_picture_ok image_map
       doc_path child).
Proof using service_healthy retry_budget replies space_ok pictures_ok.
  intros Hchild.
  destruct child as [s|name attrs children| |s]; cbn [process_child].
  - destruct (Py.truthy (Py.strip s)); [|apply gt_dret].
    apply gt_new_paragraph. intros p. apply gt_add_translated_text.
    by apply takes_forallb.
  - destruct (existsb _ _).
    + unfold process_block. destruct (Py.eqb name (Py.u "table")).
      * by apply gt_doc_process_table.
      * apply gt_new_paragraph. intros p. apply gt_dbind.
        { destruct (existsb _ _); [|destruct (Py.eqb _ _)];
            intros ds Hc; (split; [by eexists|done]). }
        intros _. by apply gt_segments.
    + apply gt_new_paragraph. intros p. by apply gt_segments.
  - apply gt_dret.
  - destruct (Py.truthy (Py.strip s)); [|apply gt_dret].
    apply gt_new_paragraph. intros p. apply gt_add_translated_text.
    by apply takes_forallb.
Qed.

Lemma gt_process_document_item item :
  takes_item xml_char_ok item = true ->
  goes_through xml_char_ok
    (process_document_item service translator xml_char_ok add_picture_ok item
       image_map).
Proof using service_healthy retry_budget replies space_ok pictures_ok.
  unfold process_document_item, takes_item.
  destruct (body_children item) as [children|]; [|intros _; apply gt_dret].
  intros H. apply gt_for_each. rewrite forallb_forall in H.
  apply List.Forall_forall. intros child Hin. by apply gt_process_child, H.
Qed.

End Healthy.

(** *** The run *)

Lemma build_image_map_values items temp_dir src img_path :
  build_image_map items temp_dir !! src = Some img_path ->
  In img_path (image_files items temp_dir).
Proof.
  rewrite build_image_map_lookup.
  destruct (existsb _ items) eqn:E; [|done]. intros [= <-].
  apply existsb_exists in E as (item & Hin & Heq). apply eqb_true in Heq.
  unfold image_files. apply in_map_iff. exists item. by rewrite Heq.
Qed.

Lemma length_section_results service translator xml_char_ok add_picture_ok
    image_map items :
  forall st,
    length (section_results service translator xml_char_ok add_picture_ok
              image_map items st) = length items.
Proof.
  induction items as [|item items IH]; intros st; [done|].
  cbn [section_results length]. by rewrite IH.
Qed.

Section HealthyRun.

Variable service : list event -> request -> outcome.
Variable translator : OllamaTranslator.
Variable xml_char_ok : N -> bool.
Variable add_picture_ok : str -> bool.
Variable paragraph_text : paragraph -> str.
Variable open_ok : str -> bool.
Variable image_map : gmap str str.
Variable output_dir : str.
Variable total : nat.

Hypothesis service_healthy : healthy service.
Hypothesis retry_budget : (0 <= retry translator)%Z.
Hypothesis pictures_ok :
  forall src img_path, image_map !! src = Some img_path ->
                       add_picture_ok img_path = true.
Hypothesis sections_open :
  forall idx,
    open_ok (posixpath.join output_dir (section_file idx total (Py.u ".docx")))
    = true
    /\ open_ok (posixpath.join output_dir (section_file idx total (Py.u ".txt")))
       = true.

Lemma translate_sections_ror items : forall st files,
  (translate_sections service xml_char_ok add_picture_ok paragraph_text open_ok
     translator image_map output_dir total items st files).2 = Done tt
  \/ exists text,
       (translate_sections service xml_char_ok add_picture_ok paragraph_text
          open_ok translator image_map output_dir total items st files).2
       = Failed (ValueError text).
Proof using service_healthy retry_budget pictures_ok sections_open.
  induction items as [|[idx item] items IH]; intros st files; [by left|].
  cbn [translate_sections].
  destruct (ror_process_document_item service translator xml_char_ok
              add_picture_ok image_map service_healthy retry_budget pictures_ok
              item {| base := st; document := [] |}) as [[[] H]|[text H]];
    destruct (process_document_item service translator xml_char_ok
                add_picture_ok item image_map {| base := st; document := [] |})
      as [ds r]; cbn [snd] in H; subst r.
  - destruct (sections_open idx) as [-> ->]. cbn [negb]. apply IH.
  - right. by exists text.
Qed.

Hypothesis replies : replies_taken xml_char_ok service.
Hypothesis space_ok : xml_char_ok 0x20 = true.

Lemma translate_sections_gt items : forall st files,
  Forall (fun item => takes_item xml_char_ok item.2 = true) items ->
  cache_taken xml_char_ok st ->
  (translate_sections service xml_char_ok add_picture_ok paragraph_text open_ok
     translator image_map output_dir total items st files).2 = Done tt.
Proof using service_healthy retry_budget pictures_ok sections_open replies
  space_ok.
  induction items as [|[idx item] items IH]; intros st files Hitems Hc; [done|].
  apply Forall_cons in Hitems as [Hitem Hitems]. cbn [snd] in Hitem.
  cbn [translate_sections].
  destruct (gt_process_document_item service translator xml_char_ok
              add_picture_ok image_map service_healthy retry_budget pictures_ok
              replies space_ok item Hitem {| base := st; document := [] |} Hc)
    as [[[] H] Hc1].
  destruct (process_document_item service translator xml_char_ok
              add_picture_ok item image_map {| base := st; document := [] |})
    as [ds r]; cbn [fst snd] in *; subst r.
  destruct (sections_open idx) as [-> ->]. cbn [negb]. by apply IH.
Qed.

End HealthyRun.

Lemma length_section_files paragraph_text output_dir total idxs : forall docs,
  length docs = length idxs ->
  length (concat (zip_with (section_files paragraph_text output_dir total)
                    idxs docs))
  = (2 * length idxs)%nat.
Proof.
  induction idxs as [|idx idxs IH]; intros [|doc docs] Hl; cbn [length] in Hl;
    try done.
  cbn [zip_with concat]. rewrite length_app, IH by lia.
  cbn [length section_files]. lia.
Qed.


Lemma reply_service_healthy reply : healthy (reply_service reply).
Proof.
  intros tr req.
  exists {| status_code := 200;
            body := Some (JDict [ (Py.u "response", JStr reply) ]) |},
         (JDict [ (Py.u "response", JStr reply) ]), (Py.strip reply).
  split; [reflexivity|]. split; [by cbn|]. split; [cbn; lia|].
  split; [reflexivity|]. by destruct reply.
Qed.


Lemma reply_service_replies xml_char_ok reply :
  takes xml_char_ok (Py.strip reply) ->
  replies_taken xml_char_ok (reply_service reply).
Proof.
  intros H tr req r data raw [= <-]. cbn [body]. intros [= <-] Hraw.
  assert (E : raw_text_of (JDict [ (Py.u "response", JStr reply) ])
              = Return (Py.strip reply)) by by destruct reply.
  rewrite E in Hraw. by injection Hraw as <-.
Qed.

(** X26: with a service that answers, a run goes through. Let every
    request be answered with a good status and a body that has a text,
    the retry budget not be negative, [add_picture] take the files of
    the images, the output directory be made and the files of the images
    and of the sections be opened. Then the only error with which
    [translate_epub_to_docx] can end is the [ValueError] of a text that
    the document does not take; when it returns, it has written two
    files for every section; and it does return when, besides, a
    document takes a space, every text with which the service answers,
    and every string of the bodies of the book. *)
Theorem X26_healthy_run_returns service xml_char_ok add_picture_ok
    paragraph_text makedirs_ok open_ok book output_dir model0 url0 max_chars0
    retry0 temp_dir :
  healthy service -> (0 <= retry0)%Z ->
  (forall img_path,
      In img_path (image_files (images book) temp_dir) ->
      add_picture_ok img_path = true) ->
  makedirs_ok output_dir = true ->
  forallb open_ok (image_files (images book) temp_dir) = true ->
  (forall idx,
      open_ok (posixpath.join output_dir
                 (section_file idx (length (documents book)) (Py.u ".docx")))
      = true
      /\ open_ok (posixpath.join output_dir
                    (section_file idx (length (documents book)) (Py.u ".txt")))
         = true) ->
  ((translate_epub_to_docx service xml_char_ok add_picture_ok paragraph_text
      makedirs_ok open_ok book output_dir model0 url0 max_chars0 retry0
      temp_dir).2 = Done tt
   \/ exists text,
        (translate_epub_to_docx service xml_char_ok add_picture_ok
           paragraph_text makedirs_ok open_ok book output_dir model0 url0
           max_chars0 retry0 temp_dir).2 = Failed (ValueError text))
  /\ ((translate_epub_to_docx service xml_char_ok add_picture_ok paragraph_text
         makedirs_ok open_ok book output_dir model0 url0 max_chars0 retry0
         temp_dir).2 = Done tt ->
      length (translate_epub_to_docx service xml_char_ok add_picture_ok
                paragraph_text makedirs_ok open_ok book output_dir model0 url0
                max_chars0 retry0 temp_dir).1.2
      = (2 * length (documents book))%nat)
  /\ (replies_taken xml_char_ok service -> xml_char_ok 0x20%N = true ->
      forallb (takes_item xml_char_ok) (documents book) = true ->
      (translate_epub_to_docx service xml_char_ok add_picture_ok paragraph_text
         makedirs_ok open_ok book output_dir model0 url0 max_chars0 retry0
         temp_dir).2 = Done tt).
Proof.
  intros Hs Hr Hp Hmk Himg Hopen.
  assert (Hpics : forall src img_path,
             build_image_map (images book) temp_dir !! src = Some img_path ->
             add_picture_ok img_path = true).
  { intros src img_path H. by apply Hp, (build_image_map_values _ _ src). }
  unfold translate_epub_to_docx. cbn [OllamaTranslator_init].
  rewrite Hmk, (find_none_forallb _ _ Himg). cbn [negb].
  split; [by apply translate_sections_ror|]. split.
  - destruct (translate_sections_results service xml_char_ok add_picture_ok
                paragraph_text open_ok
                {| model := model0; url := Py.rstrip_chars (Py.u "/") url0;
                   max_chars := max_chars0; retry := retry0 |}
                (build_image_map (images book) temp_dir) output_dir
                (length (documents book)) (documents book) 1
                {| _cache := ∅; trace := []; paragraphs := [] |} [])
      as (k & partial & _ & Hf & Hres).
    intros Hdone. rewrite Hdone in Hres. destruct Hres as [-> ->].
    rewrite Hf, app_nil_r. cbn [app].
    rewrite length_section_files; rewrite ?length_map, ?length_take,
      ?length_section_results, ?length_seq; lia.
  - intros Hreplies Hspace Hbook. apply translate_sections_gt; try done.
    rewrite forallb_forall in Hbook. apply List.Forall_forall.
    intros [idx item] Hin. apply in_combine_r in Hin. by apply Hbook.
Qed.

Lemma X26_healthy_run_returns_witness :
  let book :=
    {| images := [ {| get_name := Py.u "images/a.png" |} ];
       documents :=
         [ {| doc_item := {| get_name := Py.u "text/ch1.xhtml" |};
              body_children :=
                Some [ Tag (Py.u "h1") [] [NavigableString (Py.u "One")];
                       Tag (Py.u "p") []
                         [ NavigableString (Py.u "Hello.");
                           Tag (Py.u "img") [(Py.u "src", Py.u "../images/a.png")] [] ];
                       table [ tr [td (Py.u "a"); td (Py.u "b")] ] ] |};
           {| doc_item := {| get_name := Py.u "text/ch2.xhtml" |};
              body_children := None |} ] |} in
  (0 <= 2)%Z
  /\ every_file_ok (Py.u "out") = true
  /\ forallb every_file_ok (image_files (images book) (Py.u "/tmp/x")) = true
  /\ (translate_epub_to_docx (reply_service (Py.u "你好")) xml_1_0_char
        every_picture_ok spelled_text every_file_ok every_file_ok book
        (Py.u "out") (Py.u "qwen3:8b") (Py.u "http://localhost:11434/") 1500 2
        (Py.u "/tmp/x")).2 = Done tt
  /\ map fst
       (translate_epub_to_docx (reply_service (Py.u "你好")) xml_1_0_char
          every_picture_ok spelled_text every_file_ok every_file_ok book
          (Py.u "out") (Py.u "qwen3:8b") (Py.u "http://localhost:11434/") 1500 2
          (Py.u "/tmp/x")).1.2
     = [ Py.u "out/section_01_of_02.docx"; Py.u "out/section_01_of_02.txt";
         Py.u "out/section_02_of_02.docx"; Py.u "out/section_02_of_02.txt" ].
Proof.
  intros book. assert (Hr : (0 <= 2)%Z) by lia.
  assert (Himg : forallb every_file_ok (image_files (images book) (Py.u "/tmp/x"))
                 = true) by reflexivity.
  assert (Hbook : forallb (takes_item xml_1_0_char) (documents book) = true)
    by (vm_compute; reflexivity).
  assert (Hspace : xml_1_0_char 0x20%N = true) by (vm_compute; reflexivity).
  assert (Hreplies : replies_taken xml_1_0_char (reply_service (Py.u "你好"))).
  { apply reply_service_replies, takes_forallb. vm_compute. reflexivity. }
  split; [exact Hr|]. split; [reflexivity|]. split; [exact Himg|].
  split; [|vm_compute; reflexivity].
  exact (proj2 (proj2
           (X26_healthy_run_returns (reply_service (Py.u "你好")) xml_1_0_char
              every_picture_ok spelled_text every_file_ok every_file_ok book
              (Py.u "out") (Py.u "qwen3:8b") (Py.u "http://localhost:11434/")
              1500 2 (Py.u "/tmp/x") (reply_service_healthy _) Hr
              (fun _ _ => eq_refl) eq_refl Himg
              (fun _ => conj eq_refl eq_refl))) Hreplies Hspace Hbook).
Defined.

(** ** A negative retry budget *)

(** X27: with a negative retry budget nothing is translated. A logical
    call then makes no attempt: it raises [RuntimeError] with no cause,
    without a request and without a pause; so does [translate_text] on
    every text that is neither blank nor in the cache. *)
Theorem X27_negative_retry_never_asks service self text st :
  (retry self < 0)%Z ->
  _translate_once service self text st
  = (log (Call text) st, Raise (RuntimeError None))
  /\ (Py.strip text <> [] -> _cache st !! text = None ->
      exists chunk,
        translate_text service self text st
        = (log (Call chunk) st, Raise (RuntimeError None))).
Proof.
  intros Hr.
  assert (Honce : forall t s,
             _translate_once service self t s
             = (log (Call t) s, Raise (RuntimeError None))).
  { intros t s. unfold _translate_once, bind, modify.
    replace (Z.to_nat (retry self + 1)) with 0%nat by lia. done. }
  split; [apply Honce|]. intros Hs Hc.
  assert (Hnb : blank text = false).
  { destruct (blank text) eqn:E; [|done]. by apply strip_blank in E. }
  destruct (chunks_of_nonempty self text Hnb) as [Hne _].
  rewrite translate_text_miss by done. unfold bind.
  destruct (chunks_of self text) as [|chunk chunks]; [done|].
  exists chunk. by rewrite mapM_cons, Honce.
Qed.

Lemma X27_negative_retry_never_asks_witness :
  (retry (demo_translator 1500 (-1)) < 0)%Z
  /\ _translate_once mock_service (demo_translator 1500 (-1)) (Py.u "Hello.") fresh
     = (log (Call (Py.u "Hello.")) fresh, Raise (RuntimeError None)).
Proof.
  assert (Hr : (retry (demo_translator 1500 (-1)) < 0)%Z) by (cbn; lia).
  split; [exact Hr|].
  exact (proj1 (X27_negative_retry_never_asks mock_service
                  (demo_translator 1500 (-1)) (Py.u "Hello.") fresh Hr)).
Defined.
